(** * NestJSBooksAPI: the data-access layer and its per-user policy

    A shallow embedding of
    - [BaseService] ([src/modules/BaseService.ts]), the generic wrapper
      around a TypeORM repository;
    - [BooksService], the queries over one user's books (its text follows
      [UpdateBookDto] in [src/modules/books/dto/update-book.dto.ts]);
    - [AuthService] ([src/modules/auth/auth.service.ts]), registration and
      login;
    - the book routes of [BooksController] (its text follows
      [AuthController] in [src/modules/auth/auth.controller.ts]);
    together with the theorems that settle what the specification says
    about them.

    Conventions of the embedding:
    - a JavaScript [number] that the code uses as an integer (ids, page,
      limit, counts) is a [Z]; the one division of the code,
      [Math.ceil(count / limit)], is computed exactly in [Q];
    - a JavaScript string is a [string]; where a definition looks inside
      one ([Js.toLowerCase], [trim], the pattern of ILIKE) the string is
      taken to hold ASCII characters only, and [AuthService] takes
      [String.prototype.toLowerCase] as a parameter instead, next to
      bcrypt and the JWT signer, which may throw;
    - an [async] method is a state-and-exception computation over the
      table of the repository it was constructed with ([Task]);
    - a thrown value is a [Thrown]; [try]/[catch] is [try_catch];
    - the relational store behind TypeORM's [Repository] is an in-memory
      table that enforces the unique index of the entity; a call may also
      be rejected whatever the table holds ([Fate]), which is how a lost
      connection or a constraint hit by a concurrent writer shows;
    - the timestamps the store maintains, the relations loaded with a
      query and the projection of [select] are left out. *)

From Stdlib Require Import String Ascii ZArith List Bool Lia QArith Qround Sorted.
Import ListNotations.

Local Open Scope string_scope.
Local Open Scope Z_scope.

(** ** JavaScript values the services handle *)

Module Js.

(** [String.prototype.toLowerCase] on a string of ASCII characters: the
    letters A-Z are lowercased.  A character outside ASCII is left as it
    is, which is not what JavaScript does with a cased letter such as
    a capital A with grave; where the email of an account is lowercased,
    [AuthService] therefore takes the function of the platform as a
    parameter. *)
Definition lower_ascii (c : ascii) : ascii :=
  let n := nat_of_ascii c in
  if ((65 <=? n) && (n <=? 90))%nat then ascii_of_nat (n + 32) else c.

Fixpoint toLowerCase (s : string) : string :=
  match s with
  | EmptyString => EmptyString
  | String c s' => String (lower_ascii c) (toLowerCase s')
  end.

(** [String.prototype.trim]: white space removed at both ends. *)
Definition is_space (c : ascii) : bool :=
  let n := nat_of_ascii c in
  ((n =? 32) || ((9 <=? n) && (n <=? 13)))%nat.

Fixpoint trimStart (s : string) : string :=
  match s with
  | String c s' => if is_space c then trimStart s' else s
  | EmptyString => EmptyString
  end.

Fixpoint trimEnd (s : string) : string :=
  match s with
  | EmptyString => EmptyString
  | String c s' =>
      match trimEnd s' with
      | EmptyString => if is_space c then EmptyString else String c EmptyString
      | t => String c t
      end
  end.

Definition trim (s : string) : string := trimEnd (trimStart s).

(** [String.prototype.includes]. *)
Fixpoint includes (s sub : string) : bool :=
  String.prefix sub s ||
  match s with
  | EmptyString => false
  | String _ s' => includes s' sub
  end.

(** Truthiness of an optional string: [undefined] and [''] are falsy. *)
Definition truthy (o : option string) : bool :=
  match o with
  | Some s => negb (String.eqb s "")
  | None => false
  end.

(** The values that are thrown in this code base. *)
Inductive Thrown : Type :=
| JsError (message : string)
    (* [new Error(message)] *)
| HttpException (status : Z) (message : string)
    (* Nest's [HttpException] and its subclasses, [getStatus()] = status *)
| QueryFailedError (message : string) (code : string) (constraint : option string)
    (* what TypeORM rejects with when the driver reports an error *)
| ThrownObject (message : option string) (code : option string).
    (* a rejection that is not an [Error], as jest's [{ code: '23505' }] *)

Definition instanceof_Error (e : Thrown) : bool :=
  match e with
  | ThrownObject _ _ => false
  | _ => true
  end.

Definition instanceof_HttpException (e : Thrown) : bool :=
  match e with
  | HttpException _ _ => true
  | _ => false
  end.

(** [error.message], read where the code has checked [instanceof Error]. *)
Definition error_message (e : Thrown) : string :=
  match e with
  | JsError m | HttpException _ m | QueryFailedError m _ _ => m
  | ThrownObject (Some m) _ => m
  | ThrownObject None _ => "undefined"
  end.

(** [error.code]; [None] is [undefined]. *)
Definition error_code (e : Thrown) : option string :=
  match e with
  | QueryFailedError _ c _ => Some c
  | ThrownObject _ c => c
  | _ => None
  end.

(** [error.constraint]. *)
Definition error_constraint (e : Thrown) : option string :=
  match e with
  | QueryFailedError _ _ k => k
  | _ => None
  end.

Definition ConflictException (m : string) : Thrown := HttpException 409 m.
Definition UnauthorizedException (m : string) : Thrown := HttpException 401 m.
Definition BadRequestException (m : string) : Thrown := HttpException 400 m.

(** [Math.ceil(a / b)] for integers [a], [b], the division being exact. *)
Definition Math_ceil_div (a b : Z) : Z := Qceiling (inject_Z a / inject_Z b).

End Js.
Export Js.

(** ** Asynchronous methods: state and exceptions *)

Inductive Outcome (A : Type) : Type :=
| Resolved (a : A)
| Rejected (e : Thrown).
Arguments Resolved {A} a.
Arguments Rejected {A} e.

(** A method run against a world [W] settles and leaves a world behind. *)
Definition Task (W A : Type) : Type := W -> Outcome A * W.

Definition ret {W A} (a : A) : Task W A := fun w => (Resolved a, w).

Definition throw {W A} (e : Thrown) : Task W A := fun w => (Rejected e, w).

Definition bind {W A B} (m : Task W A) (k : A -> Task W B) : Task W B :=
  fun w =>
    match m w with
    | (Resolved a, w') => k a w'
    | (Rejected e, w') => (Rejected e, w')
    end.

(** [try { body } catch (error) { handler }]. *)
Definition try_catch {W A} (body : Task W A) (handler : Thrown -> Task W A)
  : Task W A :=
  fun w =>
    match body w with
    | (Resolved a, w') => (Resolved a, w')
    | (Rejected e, w') => handler e w'
    end.

(** The outcome of a call to a collaborator, which returns or throws. *)
Definition settle {W A} (outcome : Thrown + A) : Task W A :=
  match outcome with
  | inl e => throw e
  | inr a => ret a
  end.

Declare Scope task_scope.
Delimit Scope task_scope with task.
Notation "x <- m ;; k" := (bind m (fun x => k))
  (at level 100, m at next level, right associativity) : task_scope.
Notation "m ;;; k" := (bind m (fun _ => k))
  (at level 100, right associativity) : task_scope.
Local Open Scope task_scope.

(** ** The relational store behind a TypeORM repository *)

Inductive Value : Type :=
| VNum (n : Z)
| VStr (s : string)
| VNull.

Definition Value_eqb (a b : Value) : bool :=
  match a, b with
  | VNum x, VNum y => x =? y
  | VStr x, VStr y => String.eqb x y
  | _, _ => false      (* SQL: a comparison with NULL is never true *)
  end.

Inductive SortOrder : Type := ASC | DESC.

(** Conditions of a [where]: the keys of a [FindOptionsWhere] object are
    [CEq], the fragments handed to a query builder are the others. *)
Inductive Cond : Type :=
| CEq (field : string) (v : Value)
| CILike (field : string) (pattern : string)
| CIn (field : string) (vs : list Value)
| COr (a b : Cond).

(** [FindManyOptions]: the keys the services set. *)
Record FindManyOptions : Type := mkFind {
  where_ : list Cond;
  order : option (string * SortOrder);
  take : option Z;
  skip : option Z
}.

(** A call received by the repository. *)
Record Call : Type := mkCall {
  method : string;
  options : FindManyOptions
}.

(** What the store does with the next call: run it, or reject it whatever
    the table holds (lost connection; a constraint hit by a writer that
    got in first). *)
Inductive Fate : Type :=
| Proceed
| Reject (e : Thrown).

(** SQL [LIKE]: [%] any run, [_] any one character, a backslash takes the
    next character literally. *)
Definition backslash : ascii := ascii_of_nat 92.

Fixpoint like_match (p s : list ascii) {struct p} : bool :=
  match p with
  | [] => match s with [] => true | _ => false end
  | c :: p' =>
      if Ascii.eqb c "%" then
        (fix any (t : list ascii) : bool :=
           like_match p' t ||
           match t with
           | [] => false
           | _ :: t' => any t'
           end) s
      else if Ascii.eqb c "_" then
        match s with
        | [] => false
        | _ :: s' => like_match p' s'
        end
      else if Ascii.eqb c backslash then
        match p' with
        | [] => false
        | e :: p'' =>
            match s with
            | [] => false
            | d :: s' => Ascii.eqb e d && like_match p'' s'
            end
        end
      else
        match s with
        | [] => false
        | d :: s' => Ascii.eqb c d && like_match p' s'
        end
  end.

(** [value ILIKE pattern]. *)
Definition ilike (value pattern : string) : bool :=
  like_match (list_ascii_of_string (toLowerCase pattern))
             (list_ascii_of_string (toLowerCase value)).

(** An entity class with its table: what the repository needs to know of
    [T extends BaseEntity]. *)
Class Entity (T : Type) : Type := {
  Draft : Type;                       (* [DeepPartial<T>] given to [create] *)
  Patch : Type;                       (* [DeepPartial<T>] given to [update] *)
  entity_id : T -> Z;                 (* the primary key, [id] *)
  column : string -> T -> Value;      (* [row[field]], [VNull] when there is none *)
  deleted : T -> bool;                (* [deletedAt] is set *)
  set_deleted : bool -> T -> T;
  materialize : Z -> Draft -> T;      (* the row stored for a draft under a new id *)
  apply_patch : Patch -> T -> T;      (* the columns of the patch overwritten *)
  unique_clash : T -> T -> bool;      (* two rows that the unique index forbids *)
  unique_name : string                (* the name the driver reports for that index *)
}.

Definition dquote : string := String (ascii_of_nat 34) EmptyString.

Module Repository.
Section Repository.

Context {T : Type} `{Entity T}.

(** The table in scan order, the id sequence, the calls received so far
    and what the store will do with the calls to come (nothing listed:
    it runs them). *)
Record World : Type := mkWorld {
  rows : list T;
  next_id : Z;
  calls : list Call;
  fates : list Fate
}.

Definition all_rows : FindManyOptions := mkFind [] None None None.

Definition filtering (conds : list Cond) : FindManyOptions := mkFind conds None None None.

Fixpoint matches (c : Cond) (r : T) : bool :=
  match c with
  | CEq f v => Value_eqb (column f r) v
  | CILike f p =>
      match column f r with
      | VStr s => ilike s p
      | _ => false
      end
  | CIn f vs => existsb (Value_eqb (column f r)) vs
  | COr a b => matches a r || matches b r
  end.

Definition satisfies (conds : list Cond) (r : T) : bool :=
  forallb (fun c => matches c r) conds.

(** Rows a read sees: soft-deleted rows are skipped. *)
Definition visible (conds : list Cond) (table : list T) : list T :=
  filter (fun r => negb (deleted r) && satisfies conds r) table.

(** The order of [ORDER BY] on one column.  Numbers are compared as the
    database compares them.  Strings are compared character by character,
    which stands in for the collation of the database: src does not say
    which one that is, and under another collation the rows of a page
    ordered on a string column come in another order. *)
Definition Value_leb (a b : Value) : bool :=
  match a, b with
  | VNum x, VNum y => x <=? y
  | VStr x, VStr y => String.leb x y
  | _, VNull => true                (* NULLs come last in ascending order *)
  | VNull, _ => false
  | VNum _, VStr _ => true
  | VStr _, VNum _ => false
  end.

Definition row_leb (o : string * SortOrder) (a b : T) : bool :=
  match snd o with
  | ASC => Value_leb (column (fst o) a) (column (fst o) b)
  | DESC => Value_leb (column (fst o) b) (column (fst o) a)
  end.

Fixpoint insert_by (le : T -> T -> bool) (x : T) (l : list T) : list T :=
  match l with
  | [] => [x]
  | y :: l' => if le x y then x :: l else y :: insert_by le x l'
  end.

(** [ORDER BY]; without one the rows come in scan order. *)
Definition ordered (o : option (string * SortOrder)) (l : list T) : list T :=
  match o with
  | Some k => fold_right (insert_by (row_leb k)) [] l
  | None => l
  end.

(** [OFFSET skip LIMIT take]. *)
Definition window (opts : FindManyOptions) (l : list T) : list T :=
  let l1 := match skip opts with
            | Some n => skipn (Z.to_nat n) l
            | None => l
            end in
  match take opts with
  | Some n => firstn (Z.to_nat n) l1
  | None => l1
  end.

Definition select (opts : FindManyOptions) (table : list T) : list T :=
  window opts (ordered (order opts) (visible (where_ opts) table)).

Definition unique_violation : Thrown :=
  QueryFailedError
    ("duplicate key value violates unique constraint " ++ dquote ++ unique_name ++ dquote)
    "23505" (Some unique_name).

Fixpoint unique_ok (l : list T) : bool :=
  match l with
  | [] => true
  | x :: l' => negb (existsb (unique_clash x) l') && unique_ok l'
  end.

(** Every call is recorded, then meets its fate. *)
Definition received {A} (c : Call) (run : Task World A) : Task World A :=
  fun w =>
    let logged fs := mkWorld (rows w) (next_id w) (calls w ++ [c]) fs in
    match fates w with
    | Reject e :: fs => (Rejected e, logged fs)
    | Proceed :: fs => run (logged fs)
    | [] => run (logged [])
    end.

Definition read {A} (f : list T -> A) : Task World A :=
  fun w => (Resolved (f (rows w)), w).

Definition find (opts : FindManyOptions) : Task World (list T) :=
  received (mkCall "find" opts) (read (select opts)).

(** [createQueryBuilder(alias).where(..).andWhere(..).getMany()]. *)
Definition getMany (conds : list Cond) : Task World (list T) :=
  received (mkCall "getMany" (filtering conds)) (read (select (filtering conds))).

Definition findBy (conds : list Cond) : Task World (list T) :=
  received (mkCall "findBy" (filtering conds)) (read (select (filtering conds))).

Definition findAndCount (opts : FindManyOptions) : Task World (list T * Z) :=
  received (mkCall "findAndCount" opts)
    (read (fun table =>
             (select opts table,
              Z.of_nat (length (visible (where_ opts) table))))).

Definition findOne (opts : FindManyOptions) : Task World (option T) :=
  received (mkCall "findOne" opts) (read (fun table => hd_error (select opts table))).

Definition findOneBy (conds : list Cond) : Task World (option T) :=
  received (mkCall "findOneBy" (filtering conds))
    (read (fun table => hd_error (select (filtering conds) table))).

Definition count (conds : list Cond) : Task World Z :=
  received (mkCall "count" (filtering conds))
    (read (fun table => Z.of_nat (length (visible conds table)))).

(** [INSERT]: the unique index is checked, the id is drawn. *)
Definition insert (d : Draft) : Task World T :=
  fun w =>
    let row := materialize (next_id w) d in
    if existsb (unique_clash row) (rows w)
    then (Rejected unique_violation, w)
    else (Resolved row, mkWorld (rows w ++ [row]) (next_id w + 1) (calls w) (fates w)).

(** [save(entity)] of an entity made by [create(data)]. *)
Definition save (d : Draft) : Task World T :=
  received (mkCall "save" all_rows) (insert d).

Fixpoint insert_all (ds : list Draft) : Task World (list T) :=
  match ds with
  | [] => ret []
  | d :: ds' => r <- insert d ;; rs <- insert_all ds' ;; ret (r :: rs)
  end.

(** What a rolled-back transaction leaves: the table as it was. *)
Definition rolled_back (before after : World) : World :=
  mkWorld (rows before) (next_id after) (calls after) (fates after).

Definition transaction {A} (op : Task World A) : Task World A :=
  fun w =>
    match op w with
    | (Resolved a, w') => (Resolved a, w')
    | (Rejected e, w') => (Rejected e, rolled_back w w')
    end.

(** [save(entities)]: TypeORM runs the inserts of one call to [save] in
    one transaction, so all the rows are stored or none. *)
Definition saveMany (ds : list Draft) : Task World (list T) :=
  received (mkCall "save" all_rows) (transaction (insert_all ds)).

(** [UpdateResult.affected] / [DeleteResult.affected]. *)
Definition affected (conds : list Cond) (table : list T) : Z :=
  Z.of_nat (length (filter (satisfies conds) table)).

(** [UPDATE .. SET patch WHERE conds]. *)
Definition update (conds : list Cond) (p : Patch) : Task World Z :=
  received (mkCall "update" (filtering conds))
    (fun w =>
       let table := map (fun r => if satisfies conds r then apply_patch p r else r)
                        (rows w) in
       if unique_ok table
       then (Resolved (affected conds (rows w)),
             mkWorld table (next_id w) (calls w) (fates w))
       else (Rejected unique_violation, w)).

(** [DELETE .. WHERE conds]. *)
Definition delete (conds : list Cond) : Task World Z :=
  received (mkCall "delete" (filtering conds))
    (fun w =>
       (Resolved (affected conds (rows w)),
        mkWorld (filter (fun r => negb (satisfies conds r)) (rows w))
                (next_id w) (calls w) (fates w))).

Definition mark (flag : bool) (conds : list Cond) : Task World Z :=
  fun w =>
    (Resolved (affected conds (rows w)),
     mkWorld (map (fun r => if satisfies conds r then set_deleted flag r else r) (rows w))
             (next_id w) (calls w) (fates w)).

Definition softDelete (conds : list Cond) : Task World Z :=
  received (mkCall "softDelete" (filtering conds)) (mark true conds).

Definition restore (conds : list Cond) : Task World Z :=
  received (mkCall "restore" (filtering conds)) (mark false conds).

End Repository.
Arguments World T : clear implicits.
End Repository.

(** ** [BaseService<T>] *)

Record PaginationOptions : Type := mkPaginationOptions {
  page : Z;
  limit : Z;
  sortBy : option string;
  sortOrder : option SortOrder
}.

Record Pagination : Type := mkPagination {
  currentPage : Z;
  totalPages : Z;
  totalItems : Z;
  itemsPerPage : Z;
  hasNextPage : bool;
  hasPreviousPage : bool
}.

Record PaginatedResult (T : Type) : Type := mkPaginatedResult {
  data : list T;
  pagination : Pagination
}.
Arguments mkPaginatedResult {T} data pagination.
Arguments data {T} p.
Arguments pagination {T} p.

Module BaseService.
Section BaseService.

Context {T : Type} `{Entity T}.

Abbreviation World := (Repository.World T).
Abbreviation Service := (Task World).

(** Centralized error handling: [handleError(operation, error): never]. *)
Definition handleError {A} (operation : string) (error : Thrown) : Service A :=
  let message :=
    if instanceof_Error error then error_message error else "Unknown error" in
  throw (JsError ("Service error in " ++ operation ++ ": " ++ message)).

Definition by_id (id : Z) : list Cond := [CEq "id" (VNum id)].

Definition getById (id : Z) : Service (option T) :=
  try_catch (Repository.findOneBy (by_id id)) (handleError "getById").

Definition getAll (options : option FindManyOptions) : Service (list T) :=
  try_catch
    (Repository.find (match options with Some o => o | None => Repository.all_rows end))
    (handleError "getAll").

Definition create (data : Draft) : Service T :=
  try_catch (Repository.save data) (handleError "create").

Definition update (id : Z) (data : Patch) : Service Z :=
  try_catch (Repository.update (by_id id) data) (handleError "update").

Definition updateByField (searchField : string) (searchValue : Value) (data : Patch)
  : Service Z :=
  try_catch
    (let whereClause := [CEq searchField searchValue] in
     Repository.update whereClause data)
    (handleError "updateByField").

Definition delete (id : Z) : Service Z :=
  try_catch (Repository.delete (by_id id)) (handleError "delete").

Definition deleteByField (searchField : string) (searchValue : Value) : Service Z :=
  try_catch
    (let whereClause := [CEq searchField searchValue] in
     Repository.delete whereClause)
    (handleError "deleteByField").

(** [{ ...findOptions, take: limit, skip: offset }]. *)
Definition spread_take_skip (findOptions : option FindManyOptions) (limit offset : Z)
  : FindManyOptions :=
  match findOptions with
  | Some o => mkFind (where_ o) (order o) (Some limit) (Some offset)
  | None => mkFind [] None (Some limit) (Some offset)
  end.

Definition getPaginated (options : PaginationOptions)
                        (findOptions : option FindManyOptions)
  : Service (PaginatedResult T) :=
  try_catch
    (let page := page options in
     let limit := limit options in
     let sortBy := sortBy options in
     let sortOrder := sortOrder options in
     if page <? 1 then throw (JsError "Page must be greater than 0")
     else if (limit <? 1) || (limit >? 100)
     then throw (JsError "Limit must be between 1 and 100")
     else
       let offset := (page - 1) * limit in
       let queryOptions := spread_take_skip findOptions limit offset in
       let queryOptions :=
         match sortBy with
         | Some field =>
             if truthy sortBy
             then mkFind (where_ queryOptions)
                         (Some (field, match sortOrder with Some o => o | None => ASC end))
                         (take queryOptions) (skip queryOptions)
             else queryOptions
         | None => queryOptions
         end in
       found <- Repository.findAndCount queryOptions ;;
       let '(data, count) := found in
       let totalPages := Math_ceil_div count limit in
       ret (mkPaginatedResult data
              (mkPagination page totalPages count limit
                            (page <? totalPages) (page >? 1))))
    (handleError "getPaginated").

Definition findByField (field : string) (value : Value)
                       (options : option FindManyOptions) : Service (list T) :=
  try_catch
    (let whereClause := [CEq field value] in
     Repository.find
       (match options with
        | Some o => mkFind whereClause (order o) (take o) (skip o)
        | None => mkFind whereClause None None None
        end))
    (handleError "findByField").

Definition findOneByField (field : string) (value : Value)
                          (options : option FindManyOptions) : Service (option T) :=
  try_catch
    (let whereClause := [CEq field value] in
     Repository.findOne
       (match options with
        | Some o => mkFind whereClause (order o) (take o) (skip o)
        | None => mkFind whereClause None None None
        end))
    (handleError "findOneByField").

(** [exists(field, value)]. *)
Definition exists_ (field : string) (value : Value) : Service bool :=
  try_catch
    (let whereClause := [CEq field value] in
     count <- Repository.count whereClause ;;
     ret (count >? 0))
    (handleError "exists").

Definition count (whereClause : list Cond) : Service Z :=
  try_catch (Repository.count whereClause) (handleError "count").

Definition bulkCreate (dataArray : list Draft) : Service (list T) :=
  try_catch
    (match dataArray with
     | [] => ret []
     | _ => Repository.saveMany dataArray
     end)
    (handleError "bulkCreate").

Definition updateAndReturn (id : Z) (data : Patch) : Service (option T) :=
  try_catch
    (Repository.update (by_id id) data ;;;
     getById id)
    (handleError "updateAndReturn").

Definition softDelete (id : Z) : Service Z :=
  try_catch (Repository.softDelete (by_id id)) (handleError "softDelete").

Definition restore (id : Z) : Service Z :=
  try_catch (Repository.restore (by_id id)) (handleError "restore").

(** [withTransaction(operation)]: no [catch] of its own. *)
Definition withTransaction {R} (operation : Service R) : Service R :=
  Repository.transaction operation.

End BaseService.
End BaseService.

(** ** Entities *)

(** Modelled from the spec: [src/entities/base.entity.ts] is not part of
    the sources at hand.  Of [BaseEntity] the model keeps the numeric [id]
    that [BaseService] filters on and the deletion marker ([deletedAt],
    here whether it is set); [createdAt] and [updatedAt] are left out. *)
Record Book : Type := mkBook {
  book_id : Z;
  title : string;
  author : string;
  description : option string;
  year : option Z;
  coverImageUrl : option string;
  userId : Z;
  book_deletedAt : bool
}.

(** The object literal handed to [create] by the controller. *)
Record BookData : Type := mkBookData {
  d_title : string;
  d_author : string;
  d_description : option string;
  d_year : option Z;
  d_coverImageUrl : option string;
  d_userId : Z
}.

(** [DeepPartial<Book>] as [update] receives it; [None] is an absent key. *)
Record BookPatch : Type := mkBookPatch {
  p_title : option string;
  p_author : option string;
  p_description : option string;
  p_year : option Z;
  p_coverImageUrl : option string;
  p_userId : option Z
}.

Definition opt_str (o : option string) : Value :=
  match o with Some s => VStr s | None => VNull end.

Definition opt_num (o : option Z) : Value :=
  match o with Some n => VNum n | None => VNull end.

Definition or_else {A} (o : option A) (a : A) : A :=
  match o with Some x => x | None => a end.

Definition or_keep {A} (o : option A) (a : option A) : option A :=
  match o with Some x => Some x | None => a end.

(** [row[field]] for the columns that [Book] declares.  The timestamps of
    [BaseEntity] are no columns of this model, though [BookQueryDto]
    admits [createdAt] and [updatedAt] as sort keys: the model sees NULL
    there, so an order on one of them leaves its rows in scan order where
    the database sorts them. *)
Definition Book_column (f : string) (b : Book) : Value :=
  if String.eqb f "id" then VNum (book_id b)
  else if String.eqb f "title" then VStr (title b)
  else if String.eqb f "author" then VStr (author b)
  else if String.eqb f "description" then opt_str (description b)
  else if String.eqb f "year" then opt_num (year b)
  else if String.eqb f "coverImageUrl" then opt_str (coverImageUrl b)
  else if String.eqb f "userId" then VNum (userId b)
  else VNull.

Definition Book_patch (p : BookPatch) (b : Book) : Book :=
  mkBook (book_id b)
         (or_else (p_title p) (title b))
         (or_else (p_author p) (author b))
         (or_keep (p_description p) (description b))
         (or_keep (p_year p) (year b))
         (or_keep (p_coverImageUrl p) (coverImageUrl b))
         (or_else (p_userId p) (userId b))
         (book_deletedAt b).

(** [@Unique(['userId', 'title'])].  The name of the constraint is the
    schema's; here it is one that mentions both columns, which is what
    [createBook] looks for. *)
Definition Book_clash (a b : Book) : bool :=
  (userId a =? userId b) && String.eqb (title a) (title b).

#[export] Instance Book_entity : Entity Book := {
  Draft := BookData;
  Patch := BookPatch;
  entity_id := book_id;
  column := Book_column;
  deleted := book_deletedAt;
  set_deleted := fun flag b =>
    mkBook (book_id b) (title b) (author b) (description b) (year b)
           (coverImageUrl b) (userId b) flag;
  materialize := fun id d =>
    mkBook id (d_title d) (d_author d) (d_description d) (d_year d)
           (d_coverImageUrl d) (d_userId d) false;
  apply_patch := Book_patch;
  unique_clash := Book_clash;
  unique_name := "UQ_books_userId_title"
}.

Record User : Type := mkUser {
  user_id : Z;
  email : string;
  password : string;
  user_deletedAt : bool
}.

Record UserData : Type := mkUserData {
  d_email : string;
  d_password : string
}.

Record UserPatch : Type := mkUserPatch {
  p_email : option string;
  p_password : option string
}.

Definition User_column (f : string) (u : User) : Value :=
  if String.eqb f "id" then VNum (user_id u)
  else if String.eqb f "email" then VStr (email u)
  else if String.eqb f "password" then VStr (password u)
  else VNull.

(** [@Index(['email'], { unique: true })]. *)
Definition User_clash (a b : User) : bool := String.eqb (email a) (email b).

#[export] Instance User_entity : Entity User := {
  Draft := UserData;
  Patch := UserPatch;
  entity_id := user_id;
  column := User_column;
  deleted := user_deletedAt;
  set_deleted := fun flag u => mkUser (user_id u) (email u) (password u) flag;
  materialize := fun id d => mkUser id (d_email d) (d_password d) false;
  apply_patch := fun p u =>
    mkUser (user_id u) (or_else (p_email p) (email u))
           (or_else (p_password p) (password u)) (user_deletedAt u);
  unique_clash := User_clash;
  unique_name := "UQ_users_email"
}.

(** ** [BooksService extends BaseService<Book>] *)

Module BooksService.

Abbreviation Service := (Task (Repository.World Book)).

Definition findByAuthor (author : string) : Service (list Book) :=
  BaseService.findByField "author" (VStr author) None.

Definition findByUser (userId : Z) : Service (list Book) :=
  BaseService.findByField "userId" (VNum userId) None.

Definition findByYear (year : Z) : Service (list Book) :=
  BaseService.findByField "year" (VNum year) None.

Definition titleExists (title : string) : Service bool :=
  BaseService.exists_ "title" (VStr title).

Definition countByUser (userId : Z) : Service Z :=
  BaseService.count [CEq "userId" (VNum userId)].

Definition deleteAllByUser (userId : Z) : Service Z :=
  BaseService.deleteByField "userId" (VNum userId).

Definition searchByTitle (title : string) : Service (list Book) :=
  try_catch
    (Repository.getMany [CILike "title" ("%" ++ title ++ "%")])
    (BaseService.handleError "searchByTitle").

Definition searchByAuthor (author : string) : Service (list Book) :=
  try_catch
    (Repository.getMany [CILike "author" ("%" ++ author ++ "%")])
    (BaseService.handleError "searchByAuthor").

(** [find({ ...options, relations: ['user'] })]. *)
Definition getBooksWithUser (options : option FindManyOptions) : Service (list Book) :=
  try_catch
    (Repository.find (match options with Some o => o | None => Repository.all_rows end))
    (BaseService.handleError "getBooksWithUser").

Definition findByAuthors (authors : list string) : Service (list Book) :=
  try_catch
    (match authors with
     | [] => ret []
     | _ => Repository.getMany [CIn "author" (map VStr authors)]
     end)
    (BaseService.handleError "findByAuthors").

Definition findByIdAndUser (bookId userId : Z) : Service (option Book) :=
  try_catch
    (Repository.findOneBy [CEq "id" (VNum bookId); CEq "userId" (VNum userId)])
    (BaseService.handleError "findByIdAndUser").

Definition searchByTitleForUser (userId : Z) (searchTerm : string)
  : Service (list Book) :=
  try_catch
    (let pattern := "%" ++ searchTerm ++ "%" in
     Repository.getMany
       [CEq "userId" (VNum userId);
        COr (CILike "title" pattern) (CILike "author" pattern)])
    (BaseService.handleError "searchByTitleForUser").

Definition findByAuthorForUser (userId : Z) (author : string) : Service (list Book) :=
  try_catch
    (Repository.getMany
       [CEq "userId" (VNum userId); CILike "author" ("%" ++ author ++ "%")])
    (BaseService.handleError "findByAuthorForUser").

Definition getPaginatedByUser (userId : Z) (options : PaginationOptions)
                              (findOptions : option FindManyOptions)
  : Service (PaginatedResult Book) :=
  let whereOptions :=
    match findOptions with
    | Some o => mkFind [CEq "userId" (VNum userId)] (order o) (take o) (skip o)
    | None => mkFind [CEq "userId" (VNum userId)] None None None
    end in
  BaseService.getPaginated options (Some whereOptions).

Definition findByYearForUser (userId year : Z) : Service (list Book) :=
  try_catch
    (Repository.findBy [CEq "userId" (VNum userId); CEq "year" (VNum year)])
    (BaseService.handleError "findByYearForUser").

Definition titleExistsForUser (userId : Z) (title : string) : Service bool :=
  try_catch
    (count <- Repository.count [CEq "userId" (VNum userId); CEq "title" (VStr title)] ;;
     ret (count >? 0))
    (BaseService.handleError "titleExistsForUser").

End BooksService.

(** ** [AuthService extends BaseService<User>] *)

Record RegisterDto : Type := mkRegisterDto {
  reg_email : string;
  reg_password : string
}.

Record LoginDto : Type := mkLoginDto {
  login_email : string;
  login_password : string
}.

Record JwtPayload : Type := mkJwtPayload {
  sub : Z;
  jwt_email : string
}.

Record AuthUser : Type := mkAuthUser {
  auth_id : Z;
  auth_email : string
}.

Record AuthResponse : Type := mkAuthResponse {
  user : AuthUser;
  access_token : string
}.

Definition code_is (e : Thrown) (c : string) : bool :=
  match error_code e with
  | Some c' => String.eqb c' c
  | None => false
  end.

Module AuthService.
Section AuthService.

(** [String.prototype.toLowerCase], whatever it does to letters outside
    ASCII. *)
Variable toLowerCase : string -> string.

(** [bcryptjs] and [JwtService] are collaborators: a call returns a value
    or throws. *)
Variable bcrypt_hash : string -> Z -> Thrown + string.
Variable bcrypt_compare : string -> string -> Thrown + bool.
Variable jwt_sign : JwtPayload -> Thrown + string.

Abbreviation Service := (Task (Repository.World User)).

Definition register (registerDto : RegisterDto) : Service AuthResponse :=
  let email' := reg_email registerDto in
  let password' := reg_password registerDto in
  existingUser <- BaseService.exists_ "email" (VStr (toLowerCase email')) ;;
  if existingUser : bool
  then throw (ConflictException "User with this email already exists")
  else
    let saltRounds := 12 in
    hashedPassword <- settle (bcrypt_hash password' saltRounds) ;;
    try_catch
      (savedUser <- BaseService.create (mkUserData (toLowerCase email') hashedPassword) ;;
       let payload := mkJwtPayload (user_id savedUser) (email savedUser) in
       access_token <- settle (jwt_sign payload) ;;
       ret (mkAuthResponse (mkAuthUser (user_id savedUser) (email savedUser))
                           access_token))
      (fun error =>
         if code_is error "23505"
         then throw (ConflictException "User with this email already exists")
         else throw (BadRequestException "Failed to create user")).

Definition login (loginDto : LoginDto) : Service AuthResponse :=
  let email' := login_email loginDto in
  let password' := login_password loginDto in
  users <- BaseService.findByField "email" (VStr (toLowerCase email')) None ;;
  if (Z.of_nat (length users) =? 0)
  then throw (UnauthorizedException "Invalid email or password")
  else
    user <- Repository.findOne (Repository.filtering [CEq "email" (VStr (toLowerCase email'))]) ;;
    match user with
    | None => throw (UnauthorizedException "Invalid email or password")
    | Some user =>
        isPasswordValid <- settle (bcrypt_compare password' (password user)) ;;
        if negb isPasswordValid
        then throw (UnauthorizedException "Invalid email or password")
        else
          let payload := mkJwtPayload (user_id user) (email user) in
          access_token <- settle (jwt_sign payload) ;;
          ret (mkAuthResponse (mkAuthUser (user_id user) (email user)) access_token)
    end.

Definition validateUser (payload : JwtPayload) : Service (option User) :=
  BaseService.getById (sub payload).

Definition findUserByEmail (email' : string) : Service (option User) :=
  try_catch
    (users <- BaseService.findByField "email" (VStr (toLowerCase email')) None ;;
     ret (hd_error users))
    (fun error =>
       throw (JsError ("Error finding user by email: " ++
                       (if instanceof_Error error then error_message error
                        else "Unknown error")))).

Definition emailExists (email' : string) : Service bool :=
  BaseService.exists_ "email" (VStr (toLowerCase email')).

End AuthService.
End AuthService.

(** ** [BooksController]: the routes over one user's books *)

(** [ApiResponse<T>] of [utils/response.helper.ts], without its timestamp. *)
Record ApiResponse (A : Type) : Type := mkApiResponse {
  success : bool;
  message : string;
  payload : A;
  paging : option Pagination
}.
Arguments mkApiResponse {A} success message payload paging.
Arguments success {A} a.
Arguments message {A} a.
Arguments payload {A} a.
Arguments paging {A} a.

Definition successResponse {A} (data : A) (message : string) : ApiResponse A :=
  mkApiResponse true message data None.

Definition successResponseWithPagination {A} (data : A) (pagination : Pagination)
  (message : string) : ApiResponse A :=
  mkApiResponse true message data (Some pagination).

(** [throwErrorResponse(message, statusCode): never]. *)
Definition throwErrorResponse {W A} (message : string) (statusCode : Z) : Task W A :=
  throw (HttpException statusCode message).

Definition NOT_FOUND : Z := 404.
Definition CONFLICT : Z := 409.
Definition BAD_REQUEST : Z := 400.
Definition INTERNAL_SERVER_ERROR : Z := 500.

Record CreateBookDto : Type := mkCreateBookDto {
  c_title : string;
  c_author : string;
  c_description : option string;
  c_year : option Z;
  c_userId : option Z
}.

(** [Express.Multer.File], the fields the controller reads. *)
Record File : Type := mkFile {
  mimetype : string;
  size : Z;
  originalname : string
}.

(** [BookQueryDto]. *)
Record BookQueryDto : Type := mkBookQueryDto {
  q_page : option Z;
  q_limit : option Z;
  q_sortBy : option string;
  q_sortOrder : option SortOrder;
  q_author : option string;
  q_search : option string
}.

Definition duplicate_title_message (title : string) : string :=
  "You already have a book with the title " ++ dquote ++ title ++ dquote ++
  ". Please use a different title.".

Module BooksController.
Section BooksController.

(** [MinioService.uploadFile] for a file of a user: the url, or what it
    throws.  The object store is a collaborator. *)
Variable minio_uploadFile : File -> Z -> Thrown + string.

Abbreviation Handler := (Task (Repository.World Book)).

(** The last [catch] of every route. *)
Definition unknown_error {A} (error : Thrown) : Handler A :=
  throwErrorResponse
    (if instanceof_Error error then error_message error else "Unknown error occurred")
    INTERNAL_SERVER_ERROR.

Definition uploadCoverImage (coverImage : File) (user : User) : Handler string :=
  try_catch
    (let allowedMimeTypes := ["image/jpeg"; "image/jpg"; "image/png"] in
     if negb (existsb (String.eqb (mimetype coverImage)) allowedMimeTypes)
     then throw (HttpException BAD_REQUEST
                   "Invalid file type. Only JPEG, PNG images are allowed.")
     else
       let maxSize := 3 * 1024 * 1024 in
       if size coverImage >? maxSize
       then throw (HttpException BAD_REQUEST "File too large. Maximum size is 3MB.")
       else
         match minio_uploadFile coverImage (user_id user) with
         | inl e => throw e
         | inr url => ret url
         end)
    (fun uploadError =>
       throw (HttpException INTERNAL_SERVER_ERROR
                ("Failed to upload cover image: " ++ error_message uploadError))).

Definition getAllBooks (user : User) (query : BookQueryDto)
  : Handler (ApiResponse (list Book)) :=
  try_catch
    (let page := or_else (q_page query) 1 in
     let limit := or_else (q_limit query) 10 in
     if truthy (q_search query)
     then
       books <- BooksService.searchByTitleForUser (user_id user)
                  (or_else (q_search query) "") ;;
       ret (successResponse books "Books retrieved successfully")
     else if truthy (q_author query)
     then
       books <- BooksService.findByAuthorForUser (user_id user)
                  (or_else (q_author query) "") ;;
       ret (successResponse books "Books by author retrieved successfully")
     else
       let paginationOptions :=
         mkPaginationOptions page limit (q_sortBy query) (q_sortOrder query) in
       result <- BooksService.getPaginatedByUser (user_id user) paginationOptions None ;;
       ret (successResponseWithPagination (data result) (pagination result)
              "Books retrieved successfully"))
    unknown_error.

Definition getBookById (user : User) (id : Z) : Handler (ApiResponse Book) :=
  try_catch
    (book <- BooksService.findByIdAndUser id (user_id user) ;;
     match book with
     | None => throwErrorResponse "Book not found" NOT_FOUND
     | Some book => ret (successResponse book "Book retrieved successfully")
     end)
    (fun error =>
       if instanceof_HttpException error then throw error else unknown_error error).

Definition createBook (user : User) (createBookDto : CreateBookDto)
                      (coverImage : option File) : Handler (ApiResponse Book) :=
  try_catch
    (titleExists <- BooksService.titleExistsForUser (user_id user)
                      (c_title createBookDto) ;;
     (if titleExists : bool
      then throwErrorResponse (duplicate_title_message (c_title createBookDto)) CONFLICT
      else ret tt) ;;;
     coverImageUrl <- match coverImage with
                      | Some file => url <- uploadCoverImage file user ;; ret (Some url)
                      | None => ret None
                      end ;;
     let bookData :=
       mkBookData (c_title createBookDto) (c_author createBookDto)
                  (c_description createBookDto) (c_year createBookDto)
                  coverImageUrl (user_id user) in
     book <- BaseService.create (T:=Book) bookData ;;
     ret (successResponse book "Book created successfully"))
    (fun error =>
       if instanceof_HttpException error then throw error
       else if code_is error "23505" &&
               match error_constraint error with
               | Some constraint =>
                   includes constraint "userId" && includes constraint "title"
               | None => false
               end
       then throwErrorResponse (duplicate_title_message (c_title createBookDto)) CONFLICT
       else unknown_error error).

(** The body arrives as [UpdateBookDto as any]: a [userId] key is
    possible and is what the destructuring takes out. *)
Definition updateBook (user : User) (id : Z) (updateBookDto : BookPatch)
  : Handler (ApiResponse (option Book)) :=
  try_catch
    (existingBook <- BooksService.findByIdAndUser id (user_id user) ;;
     match existingBook with
     | None => throwErrorResponse "Book not found" NOT_FOUND
     | Some existingBook =>
         (if truthy (p_title updateBookDto) &&
             negb (String.eqb (or_else (p_title updateBookDto) "") (title existingBook))
          then
            titleExists <- BooksService.titleExistsForUser (user_id user)
                             (or_else (p_title updateBookDto) "") ;;
            if titleExists : bool
            then throwErrorResponse
                   (duplicate_title_message (or_else (p_title updateBookDto) ""))
                   CONFLICT
            else ret tt
          else ret tt) ;;;
         let updateData :=
           mkBookPatch (p_title updateBookDto) (p_author updateBookDto)
                       (p_description updateBookDto) (p_year updateBookDto)
                       (p_coverImageUrl updateBookDto) None in
         BaseService.update (T:=Book) id updateData ;;;
         updatedBook <- BooksService.findByIdAndUser id (user_id user) ;;
         ret (successResponse updatedBook "Book updated successfully")
     end)
    (fun error =>
       if instanceof_HttpException error then throw error else unknown_error error).

(** The cover image is removed from the object store first; whatever
    that attempt does is swallowed by its own [catch]. *)
Definition deleteBook (user : User) (id : Z) : Handler (ApiResponse unit) :=
  try_catch
    (book <- BooksService.findByIdAndUser id (user_id user) ;;
     match book with
     | None => throwErrorResponse "Book not found" NOT_FOUND
     | Some _ =>
         BaseService.delete (T:=Book) id ;;;
         ret (successResponse tt "Book deleted successfully")
     end)
    (fun error =>
       if instanceof_HttpException error then throw error else unknown_error error).

End BooksController.
End BooksController.

(** ** [MinioService]: the names it computes

    [MinioService] follows [Book] in [src/entities/book.entity.ts].  Its
    name helpers work on characters beyond ASCII, so here a JavaScript
    string is the list of its UTF-16 code units. *)

Module MinioService.

(** The code units of an ASCII literal. *)
Definition units (s : string) : list N :=
  map N_of_ascii (list_ascii_of_string s).

Definition underscore : N := 95.
Definition dot : N := 46.

(** [replacements], in the order of [Object.entries]: each key is one
    code unit. *)
Definition replacements : list (N * N) :=
  [ (231, 99); (199, 67);      (* c with cedilla *)
    (287, 103); (286, 71);     (* g with breve *)
    (305, 105); (304, 73);     (* dotless i, dotted I *)
    (246, 111); (214, 79);     (* o with diaeresis *)
    (351, 115); (350, 83);     (* s with cedilla *)
    (252, 117); (220, 85);     (* u with diaeresis *)
    (32, 95);                  (* space *)
    (224, 97); (225, 97); (226, 97); (227, 97); (228, 97); (229, 97);
    (232, 101); (233, 101); (234, 101); (235, 101);
    (236, 105); (237, 105); (238, 105); (239, 105);
    (242, 111); (243, 111); (244, 111); (245, 111);
    (249, 117); (250, 117); (251, 117);
    (241, 110);
    (253, 121); (255, 121) ]%N.

(** [s.replace(new RegExp(char, 'g'), replacement)] for a one-unit [char]
    that means itself in a pattern. *)
Definition replace_all (char replacement : N) (s : list N) : list N :=
  map (fun x => if (x =? char)%N then replacement else x) s.

(** The class [[a-zA-Z0-9._-]]. *)
Definition is_safe (x : N) : bool :=
  ((97 <=? x) && (x <=? 122) || (65 <=? x) && (x <=? 90) ||
   (48 <=? x) && (x <=? 57) || (x =? 46) || (x =? 95) || (x =? 45))%N.

(** [s.replace(/_+/g, '_')]. *)
Fixpoint squeeze (s : list N) : list N :=
  match s with
  | [] => []
  | x :: t =>
      if (x =? underscore)%N
      then match t with
           | y :: _ => if (y =? underscore)%N then squeeze t else x :: squeeze t
           | [] => [x]
           end
      else x :: squeeze t
  end.

Fixpoint drop_underscores (s : list N) : list N :=
  match s with
  | x :: t => if (x =? underscore)%N then drop_underscores t else s
  | [] => []
  end.

(** [s.replace(/^_+|_+$/g, '')]. *)
Definition strip_underscores (s : list N) : list N :=
  rev (drop_underscores (rev (drop_underscores s))).

Definition sanitizeFileName (fileName : list N) : list N :=
  let sanitized :=
    fold_left (fun sanitized entry => replace_all (fst entry) (snd entry) sanitized)
              replacements fileName in
  let sanitized := map (fun x => if is_safe x then x else underscore) sanitized in
  let sanitized := squeeze sanitized in
  strip_underscores sanitized.

(** [s.split(sep)] for a one-unit separator: never empty. *)
Fixpoint split (sep : N) (s : list N) : list (list N) :=
  match s with
  | [] => [[]]
  | x :: t =>
      if (x =? sep)%N then [] :: split sep t
      else match split sep t with
           | segment :: rest => (x :: segment) :: rest
           | [] => [[x]]
           end
  end.

(** [segments.join(sep)]. *)
Fixpoint join (sep : N) (segments : list (list N)) : list N :=
  match segments with
  | [] => []
  | [segment] => segment
  | segment :: rest => segment ++ sep :: join sep rest
  end.

(** [generateFileName], the rendered [Date.now()] and the [uuidv4()] being
    given. *)
Definition generateFileName (timestamp uuidv4 : list N) (originalFileName : list N)
  : list N :=
  let extension := last (split dot originalFileName) [] in
  let uuid := firstn 8 uuidv4 in
  let baseName := join dot (removelast (split dot originalFileName)) in
  let cleanBaseName := firstn 50 (sanitizeFileName baseName) in
  timestamp ++ units "-" ++ uuid ++ units "-" ++ cleanBaseName ++ units "." ++ extension.

Definition lower_unit (x : N) : N :=
  if ((65 <=? x) && (x <=? 90))%N then (x + 32)%N else x.

Definition equal_units (a b : list N) : bool :=
  if list_eq_dec N.eq_dec a b then true else false.

(** What [contentTypes[extension] || 'application/octet-stream'] gives:
    a type of the table, the default, or, [contentTypes] being an object
    literal, the member of [Object.prototype] that a lowercase key
    reaches. *)
Inductive ContentType : Type :=
| Mime (value : string)
| PrototypeMember (key : string).

Definition getContentType (fileName : list N) : ContentType :=
  let extension := map lower_unit (last (split dot fileName) []) in
  match extension with
  | [] => Mime "application/octet-stream"
  | _ =>
      if equal_units extension (units "jpg") then Mime "image/jpeg"
      else if equal_units extension (units "jpeg") then Mime "image/jpeg"
      else if equal_units extension (units "png") then Mime "image/png"
      else if equal_units extension (units "txt") then Mime "text/plain"
      else if equal_units extension (units "constructor") then PrototypeMember "constructor"
      else if equal_units extension (units "__proto__") then PrototypeMember "__proto__"
      else Mime "application/octet-stream"
  end.

End MinioService.

(** ** Vocabulary of the statements *)

(** The store runs the next call it receives. *)
Definition runs_next {T} `{Entity T} (w : Repository.World T) : bool :=
  match Repository.fates w with
  | Reject _ :: _ => false
  | _ => true
  end.

(** The store runs every call to come. *)
Definition quiet {T} `{Entity T} (w : Repository.World T) : bool :=
  forallb (fun f => match f with Proceed => true | Reject _ => false end)
          (Repository.fates w).

(** The [where] that [getPaginated] passes on. *)
Definition where_of (findOptions : option FindManyOptions) : list Cond :=
  match findOptions with
  | Some o => where_ o
  | None => []
  end.

Definition order_of (findOptions : option FindManyOptions) : option (string * SortOrder) :=
  match findOptions with
  | Some o => order o
  | None => None
  end.

(** The world a call is run in once it has been recorded. *)
Definition after_call {T} `{Entity T} (c : Call) (w : Repository.World T)
  : Repository.World T :=
  Repository.mkWorld (Repository.rows w) (Repository.next_id w)
                     (Repository.calls w ++ [c]) (tl (Repository.fates w)).

(** The query [getPaginated] sends for a request in range. *)
Definition paginated_query (options : PaginationOptions)
                           (findOptions : option FindManyOptions) : FindManyOptions :=
  mkFind (where_of findOptions)
         (match sortBy options with
          | Some field =>
              if truthy (sortBy options)
              then Some (field, or_else (sortOrder options) ASC)
              else order_of findOptions
          | None => order_of findOptions
          end)
         (Some (limit options))
         (Some ((page options - 1) * limit options)).

(** The rows a conditional update leaves. *)
Definition patched {T} `{Entity T} (conds : list Cond) (p : Patch) (table : list T)
  : list T :=
  map (fun r => if Repository.satisfies conds r then apply_patch p r else r) table.

(** The update payload once [userId] has been taken out of it. *)
Definition without_userId (dto : BookPatch) : BookPatch :=
  mkBookPatch (p_title dto) (p_author dto) (p_description dto) (p_year dto)
              (p_coverImageUrl dto) None.

(** The value thrown on by [handleError]. *)
Definition service_error (operation : string) (e : Thrown) : Thrown :=
  JsError ("Service error in " ++ operation ++ ": " ++
           (if instanceof_Error e then error_message e else "Unknown error")).

(** What a settled call failed with, if it failed. *)
Definition failure {W A} (settled : Outcome A * W) : option Thrown :=
  match fst settled with
  | Rejected e => Some e
  | Resolved _ => None
  end.

(** What an update with payload [dto] may change of a stored book: the
    columns the payload names, and never the id, the owner or the deletion
    marker. *)
Definition untouched_by (dto : BookPatch) (before after : Book) : Prop :=
  book_id after = book_id before /\
  userId after = userId before /\
  book_deletedAt after = book_deletedAt before /\
  (p_title dto = None -> title after = title before) /\
  (p_author dto = None -> author after = author before) /\
  (p_description dto = None -> description after = description before) /\
  (p_year dto = None -> year after = year before) /\
  (p_coverImageUrl dto = None -> coverImageUrl after = coverImageUrl before).

(** The operations of [BaseService] that end in
    [catch (error) { this.handleError(name, error) }]: all of them but
    [withTransaction]. *)
Inductive Operation (T : Type) `{Entity T} : Type :=
| OpGetById (id : Z)
| OpGetAll (options : option FindManyOptions)
| OpCreate (data : Draft)
| OpUpdate (id : Z) (data : Patch)
| OpUpdateByField (searchField : string) (searchValue : Value) (data : Patch)
| OpDelete (id : Z)
| OpDeleteByField (searchField : string) (searchValue : Value)
| OpGetPaginated (options : PaginationOptions) (findOptions : option FindManyOptions)
| OpFindByField (field : string) (value : Value) (options : option FindManyOptions)
| OpFindOneByField (field : string) (value : Value) (options : option FindManyOptions)
| OpExists (field : string) (value : Value)
| OpCount (whereClause : list Cond)
| OpBulkCreate (dataArray : list Draft)
| OpUpdateAndReturn (id : Z) (data : Patch)
| OpSoftDelete (id : Z)
| OpRestore (id : Z).
Arguments OpGetById {T _} id.
Arguments OpGetAll {T _} options.
Arguments OpCreate {T _} data.
Arguments OpUpdate {T _} id data.
Arguments OpUpdateByField {T _} searchField searchValue data.
Arguments OpDelete {T _} id.
Arguments OpDeleteByField {T _} searchField searchValue.
Arguments OpGetPaginated {T _} options findOptions.
Arguments OpFindByField {T _} field value options.
Arguments OpFindOneByField {T _} field value options.
Arguments OpExists {T _} field value.
Arguments OpCount {T _} whereClause.
Arguments OpBulkCreate {T _} dataArray.
Arguments OpUpdateAndReturn {T _} id data.
Arguments OpSoftDelete {T _} id.
Arguments OpRestore {T _} id.

(** The name the operation passes to [handleError]. *)
Definition operation_name {T} `{Entity T} (op : Operation T) : string :=
  match op with
  | OpGetById _ => "getById"
  | OpGetAll _ => "getAll"
  | OpCreate _ => "create"
  | OpUpdate _ _ => "update"
  | OpUpdateByField _ _ _ => "updateByField"
  | OpDelete _ => "delete"
  | OpDeleteByField _ _ => "deleteByField"
  | OpGetPaginated _ _ => "getPaginated"
  | OpFindByField _ _ _ => "findByField"
  | OpFindOneByField _ _ _ => "findOneByField"
  | OpExists _ _ => "exists"
  | OpCount _ => "count"
  | OpBulkCreate _ => "bulkCreate"
  | OpUpdateAndReturn _ _ => "updateAndReturn"
  | OpSoftDelete _ => "softDelete"
  | OpRestore _ => "restore"
  end.

(** What running the operation fails with, if it fails. *)
Definition failure_of {T} `{Entity T} (op : Operation T) (w : Repository.World T)
  : option Thrown :=
  match op with
  | OpGetById id => failure (BaseService.getById id w)
  | OpGetAll options => failure (BaseService.getAll options w)
  | OpCreate data => failure (BaseService.create data w)
  | OpUpdate id data => failure (BaseService.update id data w)
  | OpUpdateByField f v data => failure (BaseService.updateByField f v data w)
  | OpDelete id => failure (BaseService.delete id w)
  | OpDeleteByField f v => failure (BaseService.deleteByField f v w)
  | OpGetPaginated options findOptions =>
      failure (BaseService.getPaginated options findOptions w)
  | OpFindByField f v options => failure (BaseService.findByField f v options w)
  | OpFindOneByField f v options => failure (BaseService.findOneByField f v options w)
  | OpExists f v => failure (BaseService.exists_ f v w)
  | OpCount whereClause => failure (BaseService.count whereClause w)
  | OpBulkCreate dataArray => failure (BaseService.bulkCreate dataArray w)
  | OpUpdateAndReturn id data => failure (BaseService.updateAndReturn id data w)
  | OpSoftDelete id => failure (BaseService.softDelete id w)
  | OpRestore id => failure (BaseService.restore id w)
  end.

(** The operation sends a call to the repository before anything else:
    every one does, but [getPaginated] out of range and [bulkCreate] of
    nothing. *)
Definition reaches_store {T} `{Entity T} (op : Operation T) : bool :=
  match op with
  | OpGetPaginated options _ =>
      negb (page options <? 1) &&
      negb ((limit options <? 1) || (limit options >? 100))
  | OpBulkCreate [] => false
  | _ => true
  end.

(** The rows that a list of drafts becomes, one after the other, under
    the ids drawn from [id] on. *)
Fixpoint materialized {T} `{Entity T} (id : Z) (drafts : list Draft) : list T :=
  match drafts with
  | [] => []
  | d :: drafts' => materialize id d :: materialized (id + 1) drafts'
  end.

(** What the table of an entity class is expected to do with the primary
    key: a new row gets the id drawn for it, is not marked deleted, and the
    column [id] is that key. *)
Definition keyed_by_id (T : Type) `{Entity T} : Prop :=
  (forall (id : Z) (d : Draft), entity_id (materialize id d) = id) /\
  (forall (id : Z) (d : Draft), deleted (materialize id d) = false) /\
  (forall r : T, column "id" r = VNum (entity_id r)).

(** A search term that holds none of the characters [LIKE] gives a
    meaning to. *)
Definition is_wildcard (c : ascii) : bool :=
  Ascii.eqb c "%" || Ascii.eqb c "_" || Ascii.eqb c backslash.

Definition literal (term : string) : bool :=
  forallb (fun c => negb (is_wildcard c)) (list_ascii_of_string term).

(** [t] is a prefix of [s]; [f] holds of some suffix of [s]. *)
Fixpoint prefixb (t s : list ascii) : bool :=
  match t, s with
  | [], _ => true
  | c :: t', d :: s' => Ascii.eqb c d && prefixb t' s'
  | _ :: _, [] => false
  end.

Fixpoint somewhere (f : list ascii -> bool) (s : list ascii) : bool :=
  f s || match s with
         | [] => false
         | _ :: s' => somewhere f s'
         end.

(** Two underscores side by side somewhere in a name. *)
Fixpoint adjacent_underscores (s : list N) : bool :=
  match s with
  | x :: t =>
      match t with
      | y :: _ =>
          (x =? MinioService.underscore)%N && (y =? MinioService.underscore)%N
          || adjacent_underscores t
      | [] => false
      end
  | [] => false
  end.

(** A name of safe code units only, with no run of underscores and no
    underscore at either end. *)
Definition clean_name (s : list N) : bool :=
  forallb MinioService.is_safe s && negb (adjacent_underscores s) &&
  negb (hd 0 s =? MinioService.underscore)%N &&
  negb (last s 0 =? MinioService.underscore)%N.

(** A small library used by the examples. *)
Module Sample.

Definition gatsby : Book :=
  mkBook 1 "The Great Gatsby" "F. Scott Fitzgerald" None (Some 1925) None 1 false.
Definition ulysses : Book :=
  mkBook 2 "Ulysses" "James Joyce" None (Some 1922) None 1 false.
Definition gatsby_of_2 : Book :=
  mkBook 3 "The Great Gatsby" "F. Scott Fitzgerald" None (Some 1925) None 2 false.

Definition shelf : Repository.World Book :=
  Repository.mkWorld [gatsby; ulysses; gatsby_of_2] 4 [] [].

Definition alice : User := mkUser 1 "alice@example.com" "$2a$12$Passw0rd" false.
Definition bob : User := mkUser 2 "bob@example.com" "$2a$12$Passw0rd" false.

(** Stand-ins for the collaborators. *)
Definition hash (p : string) (_ : Z) : Thrown + string := inr ("$2a$12$" ++ p).
Definition compare (p h : string) : Thrown + bool := inr (String.eqb ("$2a$12$" ++ p) h).
Definition sign (_ : JwtPayload) : Thrown + string := inr "jwt-token".

(** Collaborators that throw. *)
Definition broken_compare (_ _ : string) : Thrown + bool := inl (JsError "Bcrypt error").
Definition broken_sign (_ : JwtPayload) : Thrown + string :=
  inl (JsError "secretOrPrivateKey must have a value").
Definition upload (_ : File) (_ : Z) : Thrown + string :=
  inr "https://minio.example.com/cover.jpg".

Definition nobody : Repository.World User := Repository.mkWorld [] 1 [] [].
Definition members : Repository.World User := Repository.mkWorld [alice] 2 [] [].
Definition no_books : Repository.World Book := Repository.mkWorld [] 1 [] [].

Definition dune : CreateBookDto :=
  mkCreateBookDto "Dune" "Frank Herbert" None (Some 1965) None.
Definition dune_data : BookData :=
  mkBookData "Dune" "Frank Herbert" None (Some 1965) None 1.

(** The store runs the pre-check and then rejects the insert with a
    unique violation: another request has stored the same key meanwhile. *)
Definition raced_shelf : Repository.World Book :=
  Repository.mkWorld [gatsby] 2 [] [Proceed; Reject (@Repository.unique_violation Book _)].
Definition raced_members : Repository.World User :=
  Repository.mkWorld [alice] 2 [] [Proceed; Reject (@Repository.unique_violation User _)].

(** The store rejects the next call. *)
Definition rejecting (e : Thrown) : Repository.World Book :=
  Repository.mkWorld [] 1 [] [Reject e].

End Sample.

(** ** Arithmetic of the page count *)

Lemma Math_ceil_div_eq (a b : Z) : Math_ceil_div a b = - ((- a) / b).
Proof.
  unfold Math_ceil_div, Qceiling.
  f_equal.
  rewrite Zdiv_Qdiv.
  apply Qfloor_comp.
  unfold Qdiv. rewrite inject_Z_opp. ring.
Qed.

Lemma Math_ceil_div_bounds (a b : Z) :
  0 < b ->
  (Math_ceil_div a b - 1) * b < a <= Math_ceil_div a b * b.
Proof.
  intros Hb. rewrite Math_ceil_div_eq.
  pose proof (Z.mul_div_le (- a) b Hb).
  pose proof (Z.mul_succ_div_gt (- a) b Hb).
  nia.
Qed.

(** The ceiling is the only integer between those bounds. *)
Lemma Math_ceil_div_unique (a b k : Z) :
  0 < b -> (k - 1) * b < a <= k * b -> k = Math_ceil_div a b.
Proof.
  intros Hb Hk.
  pose proof (Math_ceil_div_bounds a b Hb).
  nia.
Qed.

(** ** The window of a query *)

Section WindowFacts.

Context {T : Type} `{Entity T}.

Lemma window_take_length (opts : FindManyOptions) (n : Z) (l : list T) :
  take opts = Some n -> 0 <= n ->
  Z.of_nat (length (Repository.window opts l)) <= n.
Proof.
  intros Ht Hn. unfold Repository.window. rewrite Ht.
  pose proof (firstn_le_length (Z.to_nat n)
                (match skip opts with
                 | Some k => skipn (Z.to_nat k) l
                 | None => l
                 end)).
  lia.
Qed.

Lemma visible_In (conds : list Cond) (table : list T) (r : T) :
  In r (Repository.visible conds table) ->
  In r table /\ Repository.satisfies conds r = true.
Proof.
  unfold Repository.visible. rewrite filter_In.
  intros [Hin Hb]. apply andb_true_iff in Hb. tauto.
Qed.

Lemma insert_by_In (le : T -> T -> bool) (x r : T) (l : list T) :
  In r (Repository.insert_by le x l) -> r = x \/ In r l.
Proof.
  induction l as [| y l IH]; simpl.
  - intros [E | []]; auto.
  - destruct (le x y); simpl.
    + intros [E | [E | Hin]]; auto.
    + intros [E | Hin]; auto. destruct (IH Hin); auto.
Qed.

Lemma ordered_In (o : option (string * SortOrder)) (l : list T) (r : T) :
  In r (Repository.ordered o l) -> In r l.
Proof.
  destruct o as [k |]; simpl; [| auto].
  induction l as [| x l IH]; simpl; [auto |].
  intros Hin. apply insert_by_In in Hin. destruct Hin; auto.
Qed.

Lemma window_In (opts : FindManyOptions) (l : list T) (r : T) :
  In r (Repository.window opts l) -> In r l.
Proof.
  unfold Repository.window. intros Hin.
  assert (Hs : In r (match skip opts with
                     | Some k => skipn (Z.to_nat k) l
                     | None => l
                     end)).
  { destruct (take opts) as [n |]; [| auto].
    rewrite <- (firstn_skipn (Z.to_nat n)). apply in_or_app. now left. }
  destruct (skip opts) as [k |]; [| auto].
  rewrite <- (firstn_skipn (Z.to_nat k) l). apply in_or_app. now right.
Qed.

(** Whatever a read returns is a stored row that meets every condition. *)
Lemma select_In (opts : FindManyOptions) (table : list T) (r : T) :
  In r (Repository.select opts table) ->
  In r table /\ Repository.satisfies (where_ opts) r = true.
Proof.
  unfold Repository.select. intros Hin.
  apply window_In, ordered_In in Hin. now apply visible_In.
Qed.

End WindowFacts.

(** ** Facts about the store *)

Section StoreFacts.

Context {T : Type} `{Entity T}.

Abbreviation World := (Repository.World T).

Lemma received_runs {A} (c : Call) (run : Task World A) (w : World) :
  runs_next w = true ->
  Repository.received c run w = run (after_call c w).
Proof.
  unfold runs_next, Repository.received, after_call.
  destruct (Repository.fates w) as [| [| e] fs]; simpl; congruence.
Qed.

Lemma received_cases {A} (c : Call) (run : Task World A) (w : World) :
  Repository.received c run w = run (after_call c w) \/
  exists e, Repository.received c run w = (Rejected e, after_call c w).
Proof.
  unfold Repository.received, after_call.
  destruct (Repository.fates w) as [| [| e] fs]; simpl; eauto.
Qed.

End StoreFacts.

(** ** Pagination *)

Section Pagination.

Context {T : Type} `{Entity T}.

Abbreviation World := (Repository.World T).

Lemma getPaginated_in_range (options : PaginationOptions)
      (findOptions : option FindManyOptions) (w : World) :
  1 <= page options -> 1 <= limit options <= 100 ->
  BaseService.getPaginated options findOptions w =
  try_catch
    (found <- Repository.findAndCount (paginated_query options findOptions) ;;
     ret (mkPaginatedResult (fst found)
            (mkPagination (page options)
               (Math_ceil_div (snd found) (limit options))
               (snd found) (limit options)
               (page options <? Math_ceil_div (snd found) (limit options))
               (page options >? 1))))
    (BaseService.handleError "getPaginated") w.
Proof.
  intros Hp Hl. unfold BaseService.getPaginated, try_catch.
  destruct (Z.ltb_spec (page options) 1); [lia |].
  destruct (Z.ltb_spec (limit options) 1); [lia |].
  destruct (Z.gtb_spec (limit options) 100); [lia |].
  simpl.
  assert (Hq : (match sortBy options with
                | Some field =>
                    if truthy (sortBy options)
                    then
                      mkFind
                        (where_ (BaseService.spread_take_skip findOptions (limit options)
                                   ((page options - 1) * limit options)))
                        (Some (field, match sortOrder options with
                                      | Some o => o
                                      | None => ASC
                                      end))
                        (take (BaseService.spread_take_skip findOptions (limit options)
                                 ((page options - 1) * limit options)))
                        (skip (BaseService.spread_take_skip findOptions (limit options)
                                 ((page options - 1) * limit options)))
                    else BaseService.spread_take_skip findOptions (limit options)
                           ((page options - 1) * limit options)
                | None => BaseService.spread_take_skip findOptions (limit options)
                            ((page options - 1) * limit options)
                end) = paginated_query options findOptions).
  { unfold paginated_query, BaseService.spread_take_skip, where_of, order_of, or_else.
    destruct (sortBy options); [destruct (truthy _) |]; destruct findOptions; reflexivity. }
  rewrite Hq. unfold bind.
  destruct (Repository.findAndCount (paginated_query options findOptions) w)
    as [[[data count] | e] w']; reflexivity.
Qed.

End Pagination.

(** C1. For a request with [page >= 1] and [1 <= limit <= 100] that the
    store runs, [getPaginated] resolves with [currentPage = page],
    [itemsPerPage = limit], [totalItems] the number of matching rows,
    [totalPages] the ceiling of [totalItems / limit] (the one integer [k]
    with [(k - 1) * limit < totalItems <= k * limit]), at most [limit]
    items, [hasNextPage = (currentPage < totalPages)] and
    [hasPreviousPage = (currentPage > 1)]. *)
Theorem getPaginated_valid_request :
  forall (T : Type) (E : Entity T) (options : PaginationOptions)
         (findOptions : option FindManyOptions) (w : Repository.World T),
    1 <= page options ->
    1 <= limit options <= 100 ->
    runs_next w = true ->
    exists (res : PaginatedResult T) (w' : Repository.World T),
      BaseService.getPaginated options findOptions w = (Resolved res, w') /\
      currentPage (pagination res) = page options /\
      itemsPerPage (pagination res) = limit options /\
      totalItems (pagination res) =
        Z.of_nat (length (Repository.visible (where_of findOptions) (Repository.rows w))) /\
      totalPages (pagination res) =
        Math_ceil_div (totalItems (pagination res)) (itemsPerPage (pagination res)) /\
      (totalPages (pagination res) - 1) * limit options < totalItems (pagination res)
        <= totalPages (pagination res) * limit options /\
      Z.of_nat (length (data res)) <= limit options /\
      hasNextPage (pagination res) =
        (currentPage (pagination res) <? totalPages (pagination res)) /\
      hasPreviousPage (pagination res) = (currentPage (pagination res) >? 1).
Proof.
  intros T E options findOptions w Hp Hl Hrun.
  rewrite getPaginated_in_range by assumption.
  unfold try_catch, bind, Repository.findAndCount.
  rewrite received_runs by assumption.
  unfold Repository.read, ret. simpl.
  eexists. eexists. split; [reflexivity |]. simpl.
  repeat split; try reflexivity.
  - apply Math_ceil_div_bounds. lia.
  - apply Math_ceil_div_bounds. lia.
  - apply window_take_length; [reflexivity | lia].
Qed.

Lemma getPaginated_valid_request_witness :
  exists (res : PaginatedResult Book) (w' : Repository.World Book),
    BaseService.getPaginated (mkPaginationOptions 2 2 None None) None Sample.shelf
      = (Resolved res, w') /\
    currentPage (pagination res) = 2 /\
    itemsPerPage (pagination res) = 2 /\
    totalItems (pagination res) = 3 /\
    totalPages (pagination res) =
      Math_ceil_div (totalItems (pagination res)) (itemsPerPage (pagination res)) /\
    (totalPages (pagination res) - 1) * 2 < totalItems (pagination res)
      <= totalPages (pagination res) * 2 /\
    Z.of_nat (length (data res)) <= 2 /\
    hasNextPage (pagination res) =
      (currentPage (pagination res) <? totalPages (pagination res)) /\
    hasPreviousPage (pagination res) = (currentPage (pagination res) >? 1).
Proof.
  apply (getPaginated_valid_request Book Book_entity
           (mkPaginationOptions 2 2 None None) None Sample.shelf).
  - simpl. lia.
  - simpl. lia.
  - reflexivity.
Defined.

(** C2, as stated, fails.  No error of its own kind marks a bad page or
    limit: the guard throws a plain [Error] inside the [try], and the
    [catch] of [getPaginated] passes it through [handleError] like every
    other failure.  What comes out for page 0 is the very value that comes
    out when the store fails with that message; it is no [HttpException]
    and has no [code], and the list route answers it with 500, as it
    answers a failure of the store. *)
Lemma getPaginated_guard_error_counterexample :
  fst (@BaseService.getPaginated Book Book_entity
         (mkPaginationOptions 0 10 None None) None Sample.shelf) =
    Rejected (service_error "getPaginated" (JsError "Page must be greater than 0")) /\
  fst (@BaseService.getPaginated Book Book_entity
         (mkPaginationOptions 0 10 None None) None Sample.shelf) =
    fst (@BaseService.getPaginated Book Book_entity
           (mkPaginationOptions 1 10 None None) None
           (Sample.rejecting (JsError "Page must be greater than 0"))) /\
  instanceof_HttpException
    (service_error "getPaginated" (JsError "Page must be greater than 0")) = false /\
  error_code (service_error "getPaginated" (JsError "Page must be greater than 0")) = None /\
  fst (BooksController.getAllBooks Sample.alice
         (mkBookQueryDto (Some 0) (Some 10) None None None None) Sample.shelf) =
    Rejected (HttpException INTERNAL_SERVER_ERROR
                "Service error in getPaginated: Page must be greater than 0") /\
  fst (BooksController.getAllBooks Sample.alice
         (mkBookQueryDto (Some 1) (Some 10) None None None None)
         (Sample.rejecting (JsError "Page must be greater than 0"))) =
    Rejected (HttpException INTERNAL_SERVER_ERROR
                "Service error in getPaginated: Page must be greater than 0").
Proof. repeat split; reflexivity. Qed.

(** C2, amended.  A request with [page < 1], [limit < 1] or [limit > 100]
    is rejected by the guard of [getPaginated] before the repository has
    received any call, the world being left as it was; it is rejected
    with the plain [Error] that [handleError] makes of every failure,
    'Service error in getPaginated: ' followed by the message of the
    bound it breaks. *)
Theorem getPaginated_rejects_out_of_range :
  forall (T : Type) (E : Entity T) (options : PaginationOptions)
         (findOptions : option FindManyOptions) (w : Repository.World T),
    page options < 1 \/ limit options < 1 \/ limit options > 100 ->
    exists reason : string,
      BaseService.getPaginated options findOptions w =
        (Rejected (JsError ("Service error in getPaginated: " ++ reason)), w) /\
      ((page options < 1 /\ reason = "Page must be greater than 0") \/
       (1 <= page options /\ reason = "Limit must be between 1 and 100")).
Proof.
  intros T E options findOptions w Hbad.
  unfold BaseService.getPaginated, try_catch.
  destruct (Z.ltb_spec (page options) 1) as [Hp | Hp].
  - exists "Page must be greater than 0". split; [reflexivity | left; auto].
  - exists "Limit must be between 1 and 100".
    destruct (Z.ltb_spec (limit options) 1) as [Hl | Hl]; simpl.
    + split; [reflexivity | right; auto].
    + destruct (Z.gtb_spec (limit options) 100) as [Hg | Hg]; [| lia].
      split; [reflexivity | right; auto].
Qed.

Lemma getPaginated_rejects_out_of_range_witness :
  (exists reason : string,
     BaseService.getPaginated (mkPaginationOptions 0 10 None None) None Sample.shelf =
       (Rejected (JsError ("Service error in getPaginated: " ++ reason)), Sample.shelf) /\
     ((0 < 1 /\ reason = "Page must be greater than 0") \/
      (1 <= 0 /\ reason = "Limit must be between 1 and 100"))) /\
  (exists reason : string,
     BaseService.getPaginated (mkPaginationOptions 1 0 None None) None Sample.shelf =
       (Rejected (JsError ("Service error in getPaginated: " ++ reason)), Sample.shelf) /\
     ((1 < 1 /\ reason = "Page must be greater than 0") \/
      (1 <= 1 /\ reason = "Limit must be between 1 and 100"))) /\
  (exists reason : string,
     BaseService.getPaginated (mkPaginationOptions 1 101 None None) None Sample.shelf =
       (Rejected (JsError ("Service error in getPaginated: " ++ reason)), Sample.shelf) /\
     ((1 < 1 /\ reason = "Page must be greater than 0") \/
      (1 <= 1 /\ reason = "Limit must be between 1 and 100"))).
Proof.
  split; [| split].
  - apply (getPaginated_rejects_out_of_range Book Book_entity
             (mkPaginationOptions 0 10 None None) None Sample.shelf).
    simpl. lia.
  - apply (getPaginated_rejects_out_of_range Book Book_entity
             (mkPaginationOptions 1 0 None None) None Sample.shelf).
    simpl. lia.
  - apply (getPaginated_rejects_out_of_range Book Book_entity
             (mkPaginationOptions 1 101 None None) None Sample.shelf).
    simpl. lia.
Defined.

(** C9, as stated, fails.  With [sortBy] absent the code sets no order of
    its own, so the order the caller put in [findOptions] is the one the
    store applies: here the page comes back on descending titles, ids 2
    then 1. *)
Lemma getPaginated_default_order_counterexample :
  exists (res : PaginatedResult Book) (w' : Repository.World Book),
    BaseService.getPaginated
      (mkPaginationOptions 1 10 None None)
      (Some (mkFind [] (Some ("title", DESC)) None None))
      (Repository.mkWorld [Sample.gatsby; Sample.ulysses] 3 [] [])
    = (Resolved res, w') /\
    data res = [Sample.ulysses; Sample.gatsby] /\
    ~ Sorted Z.le (map entity_id (data res)).
Proof.
  eexists. eexists. split; [reflexivity |]. split; [reflexivity |].
  simpl. intros Hs. inversion Hs as [| a l Hl Hhd]; subst.
  inversion Hhd as [| b l' Hle]; subst. unfold Sample.ulysses, Sample.gatsby in Hle.
  simpl in Hle. lia.
Qed.

(** C9, amended.  With [sortBy] absent (or empty) a request in range that
    the store runs sends one [findAndCount] whose [order] is the one of
    [findOptions], if any; the page is the window of the matching rows in
    that order, and in the scan order of the table when there is none. *)
Theorem getPaginated_without_sortBy :
  forall (T : Type) (E : Entity T) (options : PaginationOptions)
         (findOptions : option FindManyOptions) (w : Repository.World T),
    1 <= page options ->
    1 <= limit options <= 100 ->
    truthy (sortBy options) = false ->
    runs_next w = true ->
    exists (res : PaginatedResult T) (w' : Repository.World T),
      BaseService.getPaginated options findOptions w = (Resolved res, w') /\
      Repository.calls w' =
        (Repository.calls w ++
         [mkCall "findAndCount"
            (mkFind (where_of findOptions) (order_of findOptions)
                    (Some (limit options)) (Some ((page options - 1) * limit options)))])%list /\
      data res =
        firstn (Z.to_nat (limit options))
          (skipn (Z.to_nat ((page options - 1) * limit options))
             (Repository.ordered (order_of findOptions)
                (Repository.visible (where_of findOptions) (Repository.rows w)))) /\
      (order_of findOptions = None ->
       data res =
         firstn (Z.to_nat (limit options))
           (skipn (Z.to_nat ((page options - 1) * limit options))
              (Repository.visible (where_of findOptions) (Repository.rows w)))).
Proof.
  intros T E options findOptions w Hp Hl Hsort Hrun.
  rewrite getPaginated_in_range by assumption.
  assert (Hq : paginated_query options findOptions =
               mkFind (where_of findOptions) (order_of findOptions)
                      (Some (limit options)) (Some ((page options - 1) * limit options))).
  { unfold paginated_query. rewrite Hsort. destruct (sortBy options); reflexivity. }
  rewrite Hq.
  unfold try_catch, bind, Repository.findAndCount.
  rewrite received_runs by assumption.
  unfold Repository.read, ret. simpl.
  eexists. eexists. split; [reflexivity |]. simpl.
  split; [reflexivity |]. split; [reflexivity |].
  intros Ho. unfold Repository.select, Repository.window. simpl.
  rewrite Ho. reflexivity.
Qed.

Lemma getPaginated_without_sortBy_witness :
  exists (res : PaginatedResult Book) (w' : Repository.World Book),
    BaseService.getPaginated (mkPaginationOptions 1 2 None None) None Sample.shelf
      = (Resolved res, w') /\
    Repository.calls w' =
      (Repository.calls Sample.shelf ++
       [mkCall "findAndCount" (mkFind [] None (Some 2) (Some ((1 - 1) * 2)))])%list /\
    data res =
      firstn (Z.to_nat 2)
        (skipn (Z.to_nat ((1 - 1) * 2))
           (Repository.ordered None
              (Repository.visible [] (Repository.rows Sample.shelf)))) /\
    (@None (string * SortOrder) = None ->
     data res =
       firstn (Z.to_nat 2)
         (skipn (Z.to_nat ((1 - 1) * 2))
            (Repository.visible [] (Repository.rows Sample.shelf)))).
Proof.
  apply (getPaginated_without_sortBy Book Book_entity
           (mkPaginationOptions 1 2 None None) None Sample.shelf).
  - simpl. lia.
  - simpl. lia.
  - reflexivity.
  - reflexivity.
Defined.

(** ** Reads scoped to an owner *)

Lemma satisfies_userId (owner : Z) (rest : list Cond) (b : Book) :
  Repository.satisfies (CEq "userId" (VNum owner) :: rest) b = true ->
  userId b = owner.
Proof.
  unfold Repository.satisfies. simpl. intros Hs.
  apply andb_true_iff in Hs. destruct Hs as [Hu _]. now apply Z.eqb_eq.
Qed.

Lemma satisfies_id_userId (id owner : Z) (b : Book) :
  Repository.satisfies [CEq "id" (VNum id); CEq "userId" (VNum owner)] b = true ->
  book_id b = id /\ userId b = owner.
Proof.
  unfold Repository.satisfies. simpl. intros Hs.
  apply andb_true_iff in Hs. destruct Hs as [Hi Hs].
  apply andb_true_iff in Hs. destruct Hs as [Hu _].
  split; now apply Z.eqb_eq.
Qed.

Lemma hd_error_In {A} (l : list A) (a : A) : hd_error l = Some a -> In a l.
Proof. destruct l; simpl; [discriminate |]. intros [= ->]. now left. Qed.

(** C3. [findByIdAndUser] sends one [findOneBy] whose [where] holds both
    the id and the owner and leaves the table as it is; a book it returns
    has the requested id and the requested owner; when the store runs the
    call and every stored book with that id belongs to someone else, it
    resolves with no book. *)
Theorem findByIdAndUser_scoped :
  forall (bookId owner : Z) (w : Repository.World Book),
    let result := BooksService.findByIdAndUser bookId owner w in
    Repository.calls (snd result) =
      (Repository.calls w ++
       [mkCall "findOneBy"
          (Repository.filtering [CEq "id" (VNum bookId); CEq "userId" (VNum owner)])])%list /\
    Repository.rows (snd result) = Repository.rows w /\
    (forall b : Book,
        fst result = Resolved (Some b) ->
        In b (Repository.rows w) /\ book_id b = bookId /\ userId b = owner) /\
    (runs_next w = true ->
     (forall b : Book, In b (Repository.rows w) -> book_id b = bookId -> userId b <> owner) ->
     fst result = Resolved None).
Proof.
  intros bookId owner w. cbv zeta.
  unfold BooksService.findByIdAndUser, try_catch, Repository.findOneBy.
  set (c := mkCall "findOneBy" _).
  set (pick := Repository.read _).
  assert (Hpick : forall b, hd_error (Repository.select
                     (Repository.filtering [CEq "id" (VNum bookId); CEq "userId" (VNum owner)])
                     (Repository.rows w)) = Some b ->
                  In b (Repository.rows w) /\ book_id b = bookId /\ userId b = owner).
  { intros b Hb. apply hd_error_In, select_In in Hb. destruct Hb as [Hin Hs].
    apply satisfies_id_userId in Hs. tauto. }
  destruct (received_cases c pick w) as [Hrun | [e Hrej]].
  - rewrite Hrun. unfold pick, Repository.read. simpl.
    split; [reflexivity |]. split; [reflexivity |]. split.
    + intros b [= Hb]. now apply Hpick.
    + intros _ Hother.
      destruct (hd_error _) as [b |] eqn:Hb; [| reflexivity].
      destruct (Hpick b eq_refl) as (Hin & Hid & Hown).
      exfalso. exact (Hother b Hin Hid Hown).
  - rewrite Hrej. unfold BaseService.handleError, throw. simpl.
    split; [reflexivity |]. split; [reflexivity |]. split.
    + intros b Hb. discriminate Hb.
    + intros Hrunning _. exfalso.
      rewrite received_runs in Hrej by assumption.
      unfold pick, Repository.read in Hrej. discriminate.
Qed.

Lemma findByIdAndUser_scoped_witness :
  fst (BooksService.findByIdAndUser 3 1 Sample.shelf) = Resolved None.
Proof.
  pose proof (findByIdAndUser_scoped 3 1 Sample.shelf) as Hrun.
  cbv zeta in Hrun. destruct Hrun as (_ & _ & _ & Habsent).
  apply Habsent.
  - reflexivity.
  - intros b Hin Hid. simpl in Hin.
    destruct Hin as [<- | [<- | [<- | []]]]; simpl in *; lia.
Defined.

(** ** Reads and writes, one call at a time *)

Section Calls.

Context {T : Type} `{Entity T}.

Abbreviation World := (Repository.World T).

(** A guarded read resolves with what it reads from the table and leaves
    the rows alone, whatever its fate. *)
Lemma guarded_read {A} (c : Call) (f : list T -> A) (operation : string) (w : World) :
  exists r : Outcome A,
    try_catch (Repository.received c (Repository.read f))
              (BaseService.handleError operation) w = (r, after_call c w) /\
    (forall a, r = Resolved a -> a = f (Repository.rows w)).
Proof.
  unfold try_catch.
  destruct (received_cases c (Repository.read f) w) as [-> | [e ->]].
  - unfold Repository.read. simpl. eexists. split; [reflexivity |].
    now intros a [= <-].
  - unfold BaseService.handleError, throw. eexists. split; [reflexivity |].
    intros a Ha. discriminate Ha.
Qed.

Lemma guarded_update (conds : list Cond) (p : Patch) (operation : string) (w : World) :
  exists (r : Outcome Z) (w' : World),
    try_catch (Repository.update conds p) (BaseService.handleError operation) w = (r, w') /\
    Repository.calls w' = Repository.calls (after_call (mkCall "update" (Repository.filtering conds)) w) /\
    Repository.fates w' = tl (Repository.fates w) /\
    (Repository.rows w' = Repository.rows w \/
     Repository.rows w' = patched conds p (Repository.rows w)).
Proof.
  unfold try_catch, Repository.update.
  set (c := mkCall "update" _). set (run := fun w0 : World => _).
  destruct (received_cases c run w) as [-> | [e ->]].
  - unfold run. simpl.
    destruct (Repository.unique_ok _); simpl; eexists; eexists;
      (split; [reflexivity |]); simpl; auto.
  - unfold BaseService.handleError, throw. eexists. eexists.
    split; [reflexivity |]. simpl. auto.
Qed.

Lemma guarded_delete (conds : list Cond) (operation : string) (w : World) :
  exists (r : Outcome Z) (w' : World),
    try_catch (Repository.delete conds) (BaseService.handleError operation) w = (r, w') /\
    (Repository.rows w' = Repository.rows w \/
     Repository.rows w' =
       filter (fun r => negb (Repository.satisfies conds r)) (Repository.rows w)).
Proof.
  unfold try_catch, Repository.delete.
  set (c := mkCall "delete" _). set (run := fun w0 : World => _).
  destruct (received_cases c run w) as [-> | [e ->]].
  - unfold run. simpl. eexists. eexists. split; [reflexivity |]. simpl. auto.
  - unfold BaseService.handleError, throw. eexists. eexists.
    split; [reflexivity |]. simpl. auto.
Qed.

Lemma guarded_save (d : Draft) (operation : string) (w : World) :
  exists (r : Outcome T) (w' : World),
    try_catch (Repository.save d) (BaseService.handleError operation) w = (r, w') /\
    Repository.fates w' = tl (Repository.fates w) /\
    ((exists e, r = Rejected e /\ Repository.rows w' = Repository.rows w) \/
     (r = Resolved (materialize (Repository.next_id w) d) /\
      Repository.rows w' =
        (Repository.rows w ++ [materialize (Repository.next_id w) d])%list)).
Proof.
  unfold try_catch, Repository.save.
  match goal with
  | |- context [Repository.received ?c ?run w] =>
      destruct (received_cases c run w) as [-> | [e ->]]
  end.
  - unfold Repository.insert. simpl.
    destruct (existsb _ _); simpl; eexists; eexists;
      (split; [reflexivity |]); simpl; (split; [reflexivity |]); eauto.
  - unfold BaseService.handleError, throw. eexists. eexists.
    split; [reflexivity |]. simpl. eauto.
Qed.

(** An insert that the store runs and that meets no clash goes through. *)
Lemma guarded_save_runs (d : Draft) (operation : string) (w : World) :
  runs_next w = true ->
  existsb (unique_clash (materialize (Repository.next_id w) d)) (Repository.rows w) = false ->
  try_catch (Repository.save d) (BaseService.handleError operation) w =
    (Resolved (materialize (Repository.next_id w) d),
     Repository.mkWorld
       (Repository.rows w ++ [materialize (Repository.next_id w) d])
       (Repository.next_id w + 1)
       (Repository.calls w ++ [mkCall "save" Repository.all_rows])
       (tl (Repository.fates w))).
Proof.
  intros Hrun Hfree. unfold try_catch, Repository.save.
  rewrite received_runs by assumption.
  unfold Repository.insert. simpl. rewrite Hfree. reflexivity.
Qed.

Lemma exists_run (field : string) (value : Value) (w : World) :
  exists r : Outcome bool,
    BaseService.exists_ field value w =
      (r, after_call (mkCall "count" (Repository.filtering [CEq field value])) w) /\
    (forall found, r = Resolved found ->
       found = (Z.of_nat (length (Repository.visible [CEq field value]
                                     (Repository.rows w))) >? 0)).
Proof.
  unfold BaseService.exists_, try_catch, bind, Repository.count.
  match goal with
  | |- context [Repository.received ?c ?run w] =>
      destruct (received_cases c run w) as [-> | [e ->]]
  end.
  - unfold Repository.read, ret. simpl. eexists. split; [reflexivity |].
    now intros found [= <-].
  - unfold BaseService.handleError, throw. eexists. split; [reflexivity |].
    intros found Hf. discriminate Hf.
Qed.

Lemma quiet_runs_next (w : World) : quiet w = true -> runs_next w = true.
Proof.
  unfold quiet, runs_next. destruct (Repository.fates w) as [| [| e] fs]; simpl; auto.
Qed.

Lemma quiet_tl (w w' : World) :
  quiet w = true -> Repository.fates w' = tl (Repository.fates w) -> quiet w' = true.
Proof.
  unfold quiet. intros Hq ->. destruct (Repository.fates w) as [| f fs]; simpl in *; auto.
  apply andb_true_iff in Hq. tauto.
Qed.

Lemma visible_app_new (conds : list Cond) (table : list T) (row : T) :
  Repository.visible conds table = [] ->
  deleted row = false -> Repository.satisfies conds row = true ->
  Repository.visible conds (table ++ [row]) = [row].
Proof.
  intros Hnone Hlive Hs. unfold Repository.visible in *.
  rewrite filter_app, Hnone. simpl. now rewrite Hlive, Hs.
Qed.

End Calls.

Ltac run_read :=
  match goal with
  | |- context [try_catch (Repository.received ?c (Repository.read ?f))
                          (BaseService.handleError ?op) ?w] =>
      let r := fresh "r" in
      let E := fresh "E" in
      let Hr := fresh "Hr" in
      destruct (guarded_read c f op w) as (r & E & Hr); rewrite E; clear E
  end.

(** ** The owner-scoped methods of [BooksService] *)

Lemma select_owned (owner : Z) (rest : list Cond) (opts : FindManyOptions)
      (table : list Book) (b : Book) :
  where_ opts = CEq "userId" (VNum owner) :: rest ->
  In b (Repository.select opts table) ->
  In b table /\ userId b = owner.
Proof.
  intros Hw Hin. apply select_In in Hin. rewrite Hw in Hin.
  destruct Hin as [Hin Hs]. split; [assumption |].
  now apply satisfies_userId in Hs.
Qed.

Lemma findByUser_owned (owner : Z) (w : Repository.World Book) (bs : list Book) (b : Book) :
  fst (BooksService.findByUser owner w) = Resolved bs -> In b bs -> userId b = owner.
Proof.
  unfold BooksService.findByUser, BaseService.findByField, Repository.find. cbv zeta.
  run_read. simpl. intros Hbs Hin. rewrite (Hr bs Hbs) in Hin.
  now apply (select_owned owner []) in Hin.
Qed.

Lemma searchByTitleForUser_owned (owner : Z) (term : string) (w : Repository.World Book)
      (bs : list Book) (b : Book) :
  fst (BooksService.searchByTitleForUser owner term w) = Resolved bs ->
  In b bs -> userId b = owner.
Proof.
  unfold BooksService.searchByTitleForUser, Repository.getMany. cbv zeta.
  run_read. simpl. intros Hbs Hin. rewrite (Hr bs Hbs) in Hin.
  eapply select_owned in Hin; [apply Hin | reflexivity].
Qed.

Lemma findByAuthorForUser_owned (owner : Z) (name : string) (w : Repository.World Book)
      (bs : list Book) (b : Book) :
  fst (BooksService.findByAuthorForUser owner name w) = Resolved bs ->
  In b bs -> userId b = owner.
Proof.
  unfold BooksService.findByAuthorForUser, Repository.getMany.
  run_read. simpl. intros Hbs Hin. rewrite (Hr bs Hbs) in Hin.
  eapply select_owned in Hin; [apply Hin | reflexivity].
Qed.

Lemma findByYearForUser_owned (owner y : Z) (w : Repository.World Book)
      (bs : list Book) (b : Book) :
  fst (BooksService.findByYearForUser owner y w) = Resolved bs ->
  In b bs -> userId b = owner.
Proof.
  unfold BooksService.findByYearForUser, Repository.findBy.
  run_read. simpl. intros Hbs Hin. rewrite (Hr bs Hbs) in Hin.
  eapply select_owned in Hin; [apply Hin | reflexivity].
Qed.

Lemma getPaginatedByUser_owned (owner : Z) (options : PaginationOptions)
      (findOptions : option FindManyOptions) (w : Repository.World Book)
      (res : PaginatedResult Book) (b : Book) :
  fst (BooksService.getPaginatedByUser owner options findOptions w) = Resolved res ->
  In b (data res) -> userId b = owner.
Proof.
  unfold BooksService.getPaginatedByUser, BaseService.getPaginated, try_catch.
  cbv zeta.
  destruct (page options <? 1); [discriminate |].
  destruct ((limit options <? 1) || (limit options >? 100)); [discriminate |].
  match goal with
  | |- context [Repository.findAndCount ?q] =>
      assert (Hq : where_ q = [CEq "userId" (VNum owner)])
        by (destruct (sortBy options); [destruct (truthy _) |];
            destruct findOptions; reflexivity);
      generalize dependent q
  end.
  intros q Hq. unfold bind, Repository.findAndCount.
  match goal with
  | |- context [Repository.received ?c ?run w] =>
      destruct (received_cases c run w) as [-> | [e ->]]
  end.
  - unfold Repository.read, ret. simpl. intros [= <-]. simpl. intros Hin.
    now apply (select_owned owner [] q) in Hin.
  - discriminate.
Qed.

(** ** The routes and the rows they touch *)

Lemma try_catch_snd {W A} (body : Task W A) (handler : Thrown -> Task W A) (w : W) :
  (forall e w0, snd (handler e w0) = w0) ->
  snd (try_catch body handler w) = snd (body w).
Proof.
  intros Hh. unfold try_catch. destruct (body w) as [[a | e] w']; simpl; auto.
Qed.

(** The [catch] of a route throws and does nothing else. *)
Lemma route_catch_world {A} (e : Thrown) (w : Repository.World Book) :
  snd ((fun error : Thrown =>
          if instanceof_HttpException error
          then throw error
          else BooksController.unknown_error (A:=A) error) e w) = w.
Proof.
  simpl. destruct (instanceof_HttpException e); reflexivity.
Qed.

Lemma titleExistsForUser_run (owner : Z) (name : string) (w : Repository.World Book) :
  exists r : Outcome bool,
    BooksService.titleExistsForUser owner name w =
    (r, after_call (mkCall "count"
                      (Repository.filtering
                         [CEq "userId" (VNum owner); CEq "title" (VStr name)])) w) /\
    (forall found, r = Resolved found ->
       found = (Z.of_nat (length (Repository.visible
                  [CEq "userId" (VNum owner); CEq "title" (VStr name)]
                  (Repository.rows w))) >? 0)).
Proof.
  unfold BooksService.titleExistsForUser, try_catch, bind, Repository.count.
  match goal with
  | |- context [Repository.received ?c ?run w] =>
      destruct (received_cases c run w) as [-> | [e ->]]
  end.
  - unfold Repository.read, ret. simpl. eexists. split; [reflexivity |].
    now intros found [= <-].
  - unfold BaseService.handleError, throw. eexists. split; [reflexivity |].
    intros found Hf. discriminate Hf.
Qed.

(** The title check of a route reads at most once and changes no row. *)
Lemma title_check_rows (cond : bool) (owner : Z) (name text : string)
      (w : Repository.World Book) :
  exists (r : Outcome unit) (w' : Repository.World Book),
    (if cond
     then bind (BooksService.titleExistsForUser owner name)
               (fun titleExists : bool =>
                  if titleExists then throwErrorResponse text CONFLICT else ret tt)
     else ret tt) w = (r, w') /\
    Repository.rows w' = Repository.rows w.
Proof.
  destruct cond.
  - unfold bind.
    destruct (titleExistsForUser_run owner name w) as (r & -> & _).
    destruct r as [[|] | e]; simpl; eexists; eexists; split; reflexivity.
  - eexists. eexists. split; reflexivity.
Qed.

Lemma findByIdAndUser_rows (bookId owner : Z) (w : Repository.World Book) :
  exists (r : Outcome (option Book)) (w' : Repository.World Book),
    BooksService.findByIdAndUser bookId owner w = (r, w') /\
    Repository.rows w' = Repository.rows w /\
    (forall b, r = Resolved (Some b) ->
       In b (Repository.rows w) /\ book_id b = bookId /\ userId b = owner).
Proof.
  unfold BooksService.findByIdAndUser, Repository.findOneBy.
  run_read. eexists. eexists. split; [reflexivity |]. split; [reflexivity |].
  intros b Hb. apply Hr in Hb. symmetry in Hb.
  apply hd_error_In, select_In in Hb. destruct Hb as [Hin Hs].
  apply satisfies_id_userId in Hs. tauto.
Qed.

(** [updateBook] leaves the table as it was, or patched at the id of a book
    it found for the requesting user, the patch carrying no [userId]. *)
Lemma updateBook_rows (user : User) (id : Z) (dto : BookPatch) (w : Repository.World Book) :
  let w' := snd (BooksController.updateBook user id dto w) in
  Repository.rows w' = Repository.rows w \/
  (exists existing : Book,
      In existing (Repository.rows w) /\ book_id existing = id /\
      userId existing = user_id user /\
      Repository.rows w' =
        @patched Book Book_entity (BaseService.by_id id) (without_userId dto) (Repository.rows w)).
Proof.
  cbv zeta.
  set (P := fun table : list Book =>
              table = Repository.rows w \/
              (exists existing : Book,
                  In existing (Repository.rows w) /\ book_id existing = id /\
                  userId existing = user_id user /\
                  table = @patched Book Book_entity (BaseService.by_id id) (without_userId dto)
                                  (Repository.rows w))).
  change (P (Repository.rows (snd (BooksController.updateBook user id dto w)))).
  assert (Hsame : forall w0, Repository.rows w0 = Repository.rows w -> P (Repository.rows w0))
    by (intros w0 E; left; exact E).
  unfold BooksController.updateBook.
  rewrite try_catch_snd by apply route_catch_world.
  unfold bind at 1.
  destruct (findByIdAndUser_rows id (user_id user) w) as (r1 & w1 & -> & Hrows1 & Hfound).
  destruct r1 as [[existing |] | e]; simpl; [| now apply Hsame | now apply Hsame].
  destruct (Hfound existing eq_refl) as (Hin & Hid & Hown).
  assert (Hpatched : forall w0,
             Repository.rows w0 =
               @patched Book Book_entity (BaseService.by_id id) (without_userId dto)
                       (Repository.rows w) ->
             P (Repository.rows w0))
    by (intros w0 E; right; exists existing; auto).
  unfold bind at 1.
  match goal with
  | |- context [(if ?c then bind (BooksService.titleExistsForUser ?o ?n)
                                 (fun titleExists : bool =>
                                    if titleExists then throwErrorResponse ?t CONFLICT
                                    else ret tt)
                 else ret tt) w1] =>
      destruct (title_check_rows c o n t w1) as (r2 & w2 & -> & Hrows2)
  end.
  destruct r2 as [[] | e]; simpl; [| apply Hsame; congruence].
  unfold bind at 1. unfold BaseService.update.
  destruct (@guarded_update Book Book_entity (BaseService.by_id id) (without_userId dto)
              "update" w2)
    as (r3 & w3 & E3 & _ & _ & Hrows3).
  unfold without_userId in E3. rewrite E3.
  assert (H3 : P (Repository.rows w3)).
  { destruct Hrows3 as [E | E]; [apply Hsame | apply Hpatched]; congruence. }
  destruct r3 as [n | e]; simpl; [| exact H3].
  unfold bind.
  destruct (findByIdAndUser_rows id (user_id user) w3) as (r4 & w4 & -> & Hrows4 & _).
  destruct r4 as [updated | e]; simpl; rewrite Hrows4; exact H3.
Qed.


Lemma Forall2_map_same {A} (R : A -> A -> Prop) (f : A -> A) (l : list A) :
  (forall a, R a (f a)) -> Forall2 R l (map f l).
Proof.
  intros Hf. induction l as [| a l IH]; simpl; constructor; auto.
Qed.

Lemma untouched_by_refl (dto : BookPatch) (b : Book) : untouched_by dto b b.
Proof. unfold untouched_by. tauto. Qed.

Lemma untouched_by_patch (dto : BookPatch) (b : Book) :
  untouched_by dto b (Book_patch (without_userId dto) b).
Proof.
  unfold untouched_by, Book_patch, without_userId. simpl.
  repeat split; intros ->; reflexivity.
Qed.

(** C8. Whatever the payload of [updateBook] holds, a [userId] key
    included, and however the route ends, every stored book keeps its id
    and its [userId], and keeps every column the payload does not name. *)
Theorem updateBook_keeps_owner :
  forall (user : User) (id : Z) (updateBookDto : BookPatch) (w : Repository.World Book),
    Forall2 (untouched_by updateBookDto)
            (Repository.rows w)
            (Repository.rows (snd (BooksController.updateBook user id updateBookDto w))).
Proof.
  intros user id dto w.
  destruct (updateBook_rows user id dto w) as [-> | (existing & _ & _ & _ & ->)].
  - rewrite <- (map_id (Repository.rows w)) at 2.
    apply Forall2_map_same. intros b. apply untouched_by_refl.
  - unfold patched. apply Forall2_map_same. intros b.
    destruct (Repository.satisfies _ b).
    + apply untouched_by_patch.
    + apply untouched_by_refl.
Qed.

(** The update does go through: the new title is written, the [userId] of
    the payload is not. *)
Example updateBook_strips_userId :
  fst (BooksController.updateBook Sample.alice 1
         (mkBookPatch (Some "Gatsby") None None None None (Some 2)) Sample.shelf) =
    Resolved (successResponse
                (Some (mkBook 1 "Gatsby" "F. Scott Fitzgerald" None (Some 1925) None 1 false))
                "Book updated successfully") /\
  Repository.rows
    (snd (BooksController.updateBook Sample.alice 1
            (mkBookPatch (Some "Gatsby") None None None None (Some 2)) Sample.shelf)) =
    [mkBook 1 "Gatsby" "F. Scott Fitzgerald" None (Some 1925) None 1 false;
     Sample.ulysses; Sample.gatsby_of_2].
Proof. split; reflexivity. Qed.

Lemma deleteBook_rows (user : User) (id : Z) (w : Repository.World Book) :
  let w' := snd (BooksController.deleteBook user id w) in
  Repository.rows w' = Repository.rows w \/
  (exists existing : Book,
      In existing (Repository.rows w) /\ book_id existing = id /\
      userId existing = user_id user /\
      Repository.rows w' =
        filter (fun r => negb (Repository.satisfies (BaseService.by_id id) r))
               (Repository.rows w)).
Proof.
  cbv zeta.
  set (P := fun table : list Book =>
              table = Repository.rows w \/
              (exists existing : Book,
                  In existing (Repository.rows w) /\ book_id existing = id /\
                  userId existing = user_id user /\
                  table = filter (fun r => negb (Repository.satisfies (BaseService.by_id id) r))
                                 (Repository.rows w))).
  change (P (Repository.rows (snd (BooksController.deleteBook user id w)))).
  unfold BooksController.deleteBook.
  rewrite try_catch_snd by apply route_catch_world.
  unfold bind at 1.
  destruct (findByIdAndUser_rows id (user_id user) w) as (r1 & w1 & -> & Hrows1 & Hfound).
  destruct r1 as [[existing |] | e]; simpl; [| now left | now left].
  destruct (Hfound existing eq_refl) as (Hin & Hid & Hown).
  unfold bind, BaseService.delete.
  destruct (@guarded_delete Book Book_entity (BaseService.by_id id) "delete" w1)
    as (r2 & w2 & -> & Hrows2).
  assert (H2 : P (Repository.rows w2)).
  { destruct Hrows2 as [E | E]; [left; congruence |].
    right. exists existing. repeat split; auto. congruence. }
  destruct r2 as [n | e]; simpl; exact H2.
Qed.

Lemma uploadCoverImage_world (upload : File -> Z -> Thrown + string)
      (file : File) (user : User) (w : Repository.World Book) :
  snd (BooksController.uploadCoverImage upload file user w) = w.
Proof.
  unfold BooksController.uploadCoverImage, try_catch.
  destruct (negb _); [reflexivity |].
  destruct (size file >? _); [reflexivity |].
  destruct (upload file (user_id user)); reflexivity.
Qed.

(** [createBook] adds at most one row, and that row belongs to the
    requesting user whatever [userId] the body carries. *)
Lemma createBook_rows (upload : File -> Z -> Thrown + string) (user : User)
      (dto : CreateBookDto) (coverImage : option File) (w : Repository.World Book) :
  let w' := snd (BooksController.createBook upload user dto coverImage w) in
  Repository.rows w' = Repository.rows w \/
  (exists row : Book,
      userId row = user_id user /\ title row = c_title dto /\
      Repository.rows w' = (Repository.rows w ++ [row])%list).
Proof.
  cbv zeta.
  set (P := fun table : list Book =>
              table = Repository.rows w \/
              (exists row : Book,
                  userId row = user_id user /\ title row = c_title dto /\
                  table = (Repository.rows w ++ [row])%list)).
  change (P (Repository.rows
               (snd (BooksController.createBook upload user dto coverImage w)))).
  unfold BooksController.createBook.
  rewrite try_catch_snd
    by (intros e w0; simpl; destruct (instanceof_HttpException e); [reflexivity |];
        destruct (_ && _); reflexivity).
  unfold bind at 1.
  destruct (titleExistsForUser_run (user_id user) (c_title dto) w) as (r1 & -> & _).
  destruct r1 as [[|] | e]; simpl; try (left; reflexivity).
  set (w1 := after_call _ w).
  assert (Hw1 : Repository.rows w1 = Repository.rows w) by reflexivity.
  assert (Hnext : Repository.next_id w1 = Repository.next_id w) by reflexivity.
  clearbody w1.
  unfold bind at 1. unfold ret at 1. cbv iota beta.
  unfold bind at 1.
  assert (Hupload : exists (r2 : Outcome (option string)),
             match coverImage with
             | Some file =>
                 bind (BooksController.uploadCoverImage upload file user)
                      (fun url => ret (Some url))
             | None => ret None
             end w1 = (r2, w1)).
  { destruct coverImage as [file |]; [| eexists; reflexivity].
    unfold bind. pose proof (uploadCoverImage_world upload file user w1) as Hu.
    destruct (BooksController.uploadCoverImage upload file user w1) as [[url | e] w2].
    - simpl in Hu. subst w2. eexists. reflexivity.
    - simpl in Hu. subst w2. eexists. reflexivity. }
  destruct Hupload as (r2 & ->).
  destruct r2 as [coverImageUrl | e]; simpl; [| left; exact Hw1].
  unfold bind, BaseService.create.
  match goal with
  | |- context [try_catch (Repository.save ?d) (BaseService.handleError ?op) w1] =>
      destruct (@guarded_save Book Book_entity d op w1) as (r3 & w3 & -> & _ & Hrows3)
  end.
  assert (H3 : P (Repository.rows w3)).
  { destruct Hrows3 as [(e & _ & E) | (_ & E)]; [left; congruence |].
    right. eexists. split; [| split; [| rewrite E, Hw1; reflexivity]]; reflexivity. }
  destruct r3 as [book | e]; simpl; exact H3.
Qed.

Lemma same_id_same_book (table : list Book) (a b : Book) :
  NoDup (map book_id table) -> In a table -> In b table ->
  book_id a = book_id b -> a = b.
Proof.
  induction table as [| x table IH]; simpl; [tauto |].
  intros Hnd Ha Hb Hid. inversion Hnd as [| i l Hnotin Hnd']; subst.
  destruct Ha as [-> | Ha], Hb as [-> | Hb]; auto.
  - exfalso. apply Hnotin. rewrite Hid. now apply in_map.
  - exfalso. apply Hnotin. rewrite <- Hid. now apply in_map.
Qed.

Lemma by_id_satisfies (id : Z) (b : Book) :
  Repository.satisfies (BaseService.by_id id) b = (book_id b =? id).
Proof. unfold Repository.satisfies. simpl. apply andb_true_r. Qed.

(** A book of somebody else is not at the id of a book of the user. *)
Lemma other_owner_other_id (table : list Book) (existing b : Book) (owner : Z) :
  NoDup (map book_id table) -> In existing table -> In b table ->
  userId existing = owner -> userId b <> owner ->
  (book_id b =? book_id existing) = false.
Proof.
  intros Hnd He Hb Hown Hother. apply Z.eqb_neq. intros Hid.
  apply Hother. rewrite (same_id_same_book table b existing Hnd Hb He Hid). exact Hown.
Qed.

(** C7, as stated, fails.  [searchByTitle] takes no owner and returns the
    books of two users at once; the [delete] that [BooksService] inherits
    removes a book whoever owns it. *)
Lemma unscoped_methods_counterexample :
  fst (BooksService.searchByTitle "gat" Sample.shelf)
    = Resolved [Sample.gatsby; Sample.gatsby_of_2] /\
  userId Sample.gatsby = 1 /\
  userId Sample.gatsby_of_2 = 2 /\
  fst (BooksService.findByAuthor "James Joyce" Sample.shelf) = Resolved [Sample.ulysses] /\
  Repository.rows (snd (BaseService.delete (T:=Book) 3 Sample.shelf))
    = [Sample.gatsby; Sample.ulysses].
Proof. repeat split; reflexivity. Qed.

(** C7, amended.  Every read of [BooksService] that takes an owner
    ([findByIdAndUser], [findByUser], [searchByTitleForUser],
    [findByAuthorForUser], [findByYearForUser], [getPaginatedByUser])
    returns books of that owner only; the routes write on behalf of the
    requesting user only: [createBook] adds at most one book and it is
    the user's, and, ids being unique, [updateBook] and [deleteBook]
    leave every book of another owner in place. *)
Theorem owner_scoped_operations :
  forall (owner : Z) (w : Repository.World Book),
    (forall id b,
        fst (BooksService.findByIdAndUser id owner w) = Resolved (Some b) ->
        userId b = owner) /\
    (forall bs b,
        fst (BooksService.findByUser owner w) = Resolved bs -> In b bs ->
        userId b = owner) /\
    (forall term bs b,
        fst (BooksService.searchByTitleForUser owner term w) = Resolved bs -> In b bs ->
        userId b = owner) /\
    (forall name bs b,
        fst (BooksService.findByAuthorForUser owner name w) = Resolved bs -> In b bs ->
        userId b = owner) /\
    (forall y bs b,
        fst (BooksService.findByYearForUser owner y w) = Resolved bs -> In b bs ->
        userId b = owner) /\
    (forall options findOptions res b,
        fst (BooksService.getPaginatedByUser owner options findOptions w) = Resolved res ->
        In b (data res) -> userId b = owner) /\
    (forall upload user dto coverImage,
        user_id user = owner ->
        let w' := snd (BooksController.createBook upload user dto coverImage w) in
        Repository.rows w' = Repository.rows w \/
        exists row, userId row = owner /\
                    Repository.rows w' = (Repository.rows w ++ [row])%list) /\
    (forall user id dto b,
        user_id user = owner ->
        NoDup (map book_id (Repository.rows w)) ->
        In b (Repository.rows w) -> userId b <> owner ->
        In b (Repository.rows (snd (BooksController.updateBook user id dto w)))) /\
    (forall user id b,
        user_id user = owner ->
        NoDup (map book_id (Repository.rows w)) ->
        In b (Repository.rows w) -> userId b <> owner ->
        In b (Repository.rows (snd (BooksController.deleteBook user id w)))).
Proof.
  intros owner w.
  split; [| split; [| split; [| split; [| split; [| split; [| split; [| split]]]]]]].
  - intros id b Hb.
    destruct (findByIdAndUser_rows id owner w) as (r & w' & E & _ & Hfound).
    rewrite E in Hb. simpl in Hb. now apply Hfound.
  - intros bs b. apply findByUser_owned.
  - intros term bs b. apply searchByTitleForUser_owned.
  - intros name bs b. apply findByAuthorForUser_owned.
  - intros y bs b. apply findByYearForUser_owned.
  - intros options findOptions res b. apply getPaginatedByUser_owned.
  - intros upload user dto coverImage <-. cbv zeta.
    destruct (createBook_rows upload user dto coverImage w) as [E | (row & Hu & _ & E)].
    + now left.
    + right. exists row. auto.
  - intros user id dto b <- Hnd Hin Hother.
    destruct (updateBook_rows user id dto w) as [-> | (existing & He & Hid & Hown & ->)];
      [assumption |].
    unfold patched. apply in_map_iff. exists b. split; [| assumption].
    rewrite by_id_satisfies, <- Hid.
    now rewrite (other_owner_other_id _ existing b (user_id user) Hnd He Hin Hown Hother).
  - intros user id b <- Hnd Hin Hother.
    destruct (deleteBook_rows user id w) as [-> | (existing & He & Hid & Hown & ->)];
      [assumption |].
    apply filter_In. split; [assumption |].
    rewrite by_id_satisfies, <- Hid.
    now rewrite (other_owner_other_id _ existing b (user_id user) Hnd He Hin Hown Hother).
Qed.

Lemma owner_scoped_operations_witness :
  In Sample.gatsby_of_2
     (Repository.rows
        (snd (BooksController.updateBook Sample.alice 3
                (mkBookPatch (Some "Mine") None None None None (Some 1)) Sample.shelf))) /\
  In Sample.gatsby_of_2
     (Repository.rows (snd (BooksController.deleteBook Sample.alice 3 Sample.shelf))).
Proof.
  destruct (owner_scoped_operations 1 Sample.shelf)
    as (_ & _ & _ & _ & _ & _ & _ & Hupdate & Hdelete).
  assert (Hnd : NoDup (map book_id (Repository.rows Sample.shelf))).
  { simpl. repeat constructor; simpl; intuition discriminate. }
  assert (Hin : In Sample.gatsby_of_2 (Repository.rows Sample.shelf))
    by (simpl; auto).
  assert (Hother : userId Sample.gatsby_of_2 <> 1) by (simpl; lia).
  split.
  - apply Hupdate; [reflexivity | exact Hnd | exact Hin | exact Hother].
  - apply Hdelete; [reflexivity | exact Hnd | exact Hin | exact Hother].
Defined.

(** ** Uniqueness conflicts *)

Lemma visible_nonempty {T} `{Entity T} (conds : list Cond) (table : list T) (r : T) :
  In r table -> deleted r = false -> Repository.satisfies conds r = true ->
  (Z.of_nat (length (Repository.visible conds table)) >? 0) = true.
Proof.
  intros Hin Hd Hs.
  assert (Hv : In r (Repository.visible conds table)).
  { unfold Repository.visible. apply filter_In. split; [assumption |].
    now rewrite Hd, Hs. }
  destruct (Repository.visible conds table); [destruct Hv |].
  simpl length. apply Z.gtb_lt. lia.
Qed.

(** The pre-check of [createBook]: a live book of the user with that very
    title makes the route answer 409 with a message that quotes the
    title, and nothing is stored. *)
Lemma createBook_precheck_conflict (upload : File -> Z -> Thrown + string)
      (user : User) (dto : CreateBookDto) (coverImage : option File)
      (w : Repository.World Book) (b : Book) :
  runs_next w = true ->
  In b (Repository.rows w) -> book_deletedAt b = false ->
  userId b = user_id user -> title b = c_title dto ->
  exists w',
    BooksController.createBook upload user dto coverImage w =
      (Rejected (HttpException CONFLICT (duplicate_title_message (c_title dto))), w') /\
    Repository.rows w' = Repository.rows w.
Proof.
  intros Hrun Hin Hlive Hown Htitle.
  unfold BooksController.createBook, try_catch, bind at 1.
  unfold bind at 1.
  destruct (titleExistsForUser_run (user_id user) (c_title dto) w) as (r & E & Hr).
  assert (Hfound : r = Resolved true).
  { unfold BooksService.titleExistsForUser, try_catch, bind, Repository.count in E.
    rewrite received_runs in E by assumption.
    unfold Repository.read, ret in E. simpl in E.
    injection E as <-. f_equal.
    apply (visible_nonempty _ _ b); auto.
    unfold Repository.satisfies. simpl.
    rewrite Hown, Htitle, Z.eqb_refl, String.eqb_refl. reflexivity. }
  rewrite E, Hfound. simpl. eexists. split; reflexivity.
Qed.

(** The same title under two owners: both inserts go through; the second
    insert of one owner is stopped by the pre-check. *)
Example same_title_two_owners :
  let first :=
    BooksController.createBook Sample.upload Sample.alice Sample.dune None Sample.no_books in
  let second :=
    BooksController.createBook Sample.upload Sample.bob Sample.dune None (snd first) in
  let third :=
    BooksController.createBook Sample.upload Sample.alice Sample.dune None (snd second) in
  fst first = Resolved (successResponse
                 (mkBook 1 "Dune" "Frank Herbert" None (Some 1965) None 1 false)
                 "Book created successfully") /\
  fst second = Resolved (successResponse
                 (mkBook 2 "Dune" "Frank Herbert" None (Some 1965) None 2 false)
                 "Book created successfully") /\
  fst third = Rejected (HttpException CONFLICT (duplicate_title_message "Dune")) /\
  Repository.rows (snd third) = Repository.rows (snd second).
Proof. repeat split; reflexivity. Qed.

(** C4, where the code departs from it.  The pre-check passes and the
    store then rejects the insert with a unique violation (code 23505,
    constraint naming [userId] and [title]): [BaseService.create] hands the
    route a plain [Error], the test on [error.code] does not fire, and the
    route answers 500 with the message of the driver instead of the 409
    that quotes the title. *)
Lemma createBook_insert_violation_is_500 :
  fst (BooksController.createBook Sample.upload Sample.alice Sample.dune None
         Sample.raced_shelf) =
    Rejected (HttpException INTERNAL_SERVER_ERROR
                ("Service error in create: duplicate key value violates unique constraint "
                 ++ dquote ++ "UQ_books_userId_title" ++ dquote)) /\
  fst (BooksController.createBook Sample.upload Sample.alice Sample.dune None
         Sample.raced_shelf) <>
    Rejected (HttpException CONFLICT (duplicate_title_message "Dune")).
Proof. split; [reflexivity | discriminate]. Qed.

(** What [handleError] throws on carries neither [code] nor [constraint]. *)
Lemma service_error_code (operation : string) (e : Thrown) (c : string) :
  error_code (service_error operation e) = None /\
  error_constraint (service_error operation e) = None /\
  code_is (service_error operation e) c = false /\
  instanceof_HttpException (service_error operation e) = false.
Proof. repeat split; reflexivity. Qed.

(** Whatever the store rejects the insert with, [createBook] answers 500:
    its test on [error.code] sees the error of [handleError], never the one
    of the driver. *)
Lemma createBook_insert_failure (upload : File -> Z -> Thrown + string)
      (user : User) (dto : CreateBookDto) (w : Repository.World Book)
      (e : Thrown) (fs : list Fate) :
  Repository.fates w = Proceed :: Reject e :: fs ->
  Repository.visible [CEq "userId" (VNum (user_id user)); CEq "title" (VStr (c_title dto))]
                     (Repository.rows w) = [] ->
  fst (BooksController.createBook upload user dto None w) =
    Rejected (HttpException INTERNAL_SERVER_ERROR
                (error_message (service_error "create" e))).
Proof.
  intros Hf Hnone.
  unfold BooksController.createBook, try_catch, bind at 1.
  unfold bind at 1.
  unfold BooksService.titleExistsForUser, try_catch, bind at 1, Repository.count.
  unfold Repository.received at 1. rewrite Hf.
  unfold Repository.read, ret. cbv beta iota zeta. cbn [Repository.rows].
  rewrite Hnone. simpl.
  unfold bind, BaseService.create, try_catch, Repository.save, Repository.received.
  simpl. reflexivity.
Qed.

(** ** Registration *)

Section Registration.

Variable toLowerCase : string -> string.
Variable bcrypt_hash : string -> Z -> Thrown + string.
Variable bcrypt_compare : string -> string -> Thrown + bool.
Variable jwt_sign : JwtPayload -> Thrown + string.

Abbreviation register := (AuthService.register toLowerCase bcrypt_hash jwt_sign).
Abbreviation login := (AuthService.login toLowerCase bcrypt_compare jwt_sign).

(** Whatever the store rejects the insert with, a unique violation
    included, [register] answers [BadRequestException]. *)
Lemma register_insert_failure (dto : RegisterDto) (w : Repository.World User)
      (e : Thrown) (fs : list Fate) (hashed : string) :
  Repository.fates w = Proceed :: Reject e :: fs ->
  Repository.visible [CEq "email" (VStr (toLowerCase (reg_email dto)))]
                     (Repository.rows w) = [] ->
  bcrypt_hash (reg_password dto) 12 = inr hashed ->
  fst (register dto w) = Rejected (BadRequestException "Failed to create user").
Proof.
  intros Hf Hnone Hhash.
  unfold AuthService.register, bind at 1.
  unfold BaseService.exists_, try_catch, bind at 1, Repository.count.
  unfold Repository.received at 1. rewrite Hf.
  unfold Repository.read, ret. cbv beta iota zeta. cbn [Repository.rows].
  rewrite Hnone. simpl. rewrite Hhash.
  unfold bind, settle, ret, BaseService.create, try_catch, Repository.save,
    Repository.received.
  simpl. reflexivity.
Qed.

(** A failure of [bcrypt.hash] is outside the [try] of [register]: it
    comes out as it was thrown, and nothing is stored. *)
Lemma register_hash_failure (dto : RegisterDto) (w : Repository.World User)
      (e : Thrown) :
  runs_next w = true ->
  Repository.visible [CEq "email" (VStr (toLowerCase (reg_email dto)))]
                     (Repository.rows w) = [] ->
  bcrypt_hash (reg_password dto) 12 = inl e ->
  exists w' : Repository.World User,
    register dto w = (Rejected e, w') /\ Repository.rows w' = Repository.rows w.
Proof.
  intros Hrun Hnone Hhash.
  unfold AuthService.register, bind at 1.
  unfold BaseService.exists_, try_catch, bind at 1, Repository.count.
  rewrite received_runs by assumption.
  unfold Repository.read, ret. cbv beta iota zeta. cbn [after_call Repository.rows].
  rewrite Hnone. cbn [length Z.of_nat Z.gtb Z.compare].
  unfold bind, settle. rewrite Hhash. eexists. split; reflexivity.
Qed.

End Registration.

(** A failure of the existence check itself is outside the [try] of
    [register]: it comes out as [exists] threw it. *)
Example register_check_failure_propagates :
  fst (AuthService.register toLowerCase Sample.hash Sample.sign
         (mkRegisterDto "bob@example.com" "Passw0rd")
         (Repository.mkWorld [Sample.alice] 2 [] [Reject (JsError "Connection lost")])) =
    Rejected (JsError "Service error in exists: Connection lost").
Proof. reflexivity. Qed.

(** C5, where the code departs from it.  The existence check finds
    nobody and the store then rejects the insert with a unique violation
    on the email (code 23505): [register] answers
    [BadRequestException('Failed to create user')], not
    [ConflictException]. *)
Lemma register_insert_violation_is_bad_request :
  fst (AuthService.register toLowerCase Sample.hash Sample.sign
         (mkRegisterDto "Bob@Example.com" "Passw0rd") Sample.raced_members) =
    Rejected (BadRequestException "Failed to create user") /\
  fst (AuthService.register toLowerCase Sample.hash Sample.sign
         (mkRegisterDto "Bob@Example.com" "Passw0rd") Sample.raced_members) <>
    Rejected (ConflictException "User with this email already exists").
Proof. split; [reflexivity | discriminate]. Qed.

(** ** Email normalisation *)

Lemma no_email_visible (e : string) (table : list User) :
  (forall u, In u table -> email u <> e) ->
  Repository.visible [CEq "email" (VStr e)] table = [].
Proof.
  induction table as [| u table IH]; intros Hno; [reflexivity |].
  unfold Repository.visible in *. simpl.
  assert (Hu : String.eqb (email u) e = false)
    by (apply String.eqb_neq, Hno; now left).
  unfold Repository.satisfies. simpl. rewrite Hu, andb_false_r. simpl.
  apply IH. intros u' Hin. apply Hno. now right.
Qed.

Lemma no_email_clash (id : Z) (e pw : string) (table : list User) :
  (forall u, In u table -> email u <> e) ->
  existsb (User_clash (mkUser id e pw false)) table = false.
Proof.
  induction table as [| u table IH]; intros Hno; [reflexivity |].
  simpl. rewrite IH by (intros u' Hin; apply Hno; now right).
  unfold User_clash. simpl.
  assert (Hu : String.eqb e (email u) = false).
  { apply String.eqb_neq. intros ->. apply (Hno u); [now left | reflexivity]. }
  now rewrite Hu.
Qed.

Section Normalisation.

Variable toLowerCase : string -> string.
Variable bcrypt_hash : string -> Z -> Thrown + string.
Variable bcrypt_compare : string -> string -> Thrown + bool.
Variable jwt_sign : JwtPayload -> Thrown + string.

Abbreviation register := (AuthService.register toLowerCase bcrypt_hash jwt_sign).
Abbreviation login := (AuthService.login toLowerCase bcrypt_compare jwt_sign).

(** Only the lowercased email enters [register] and [login]. *)
Lemma register_casing (e1 e2 pw : string) (w : Repository.World User) :
  toLowerCase e1 = toLowerCase e2 ->
  register (mkRegisterDto e1 pw) w = register (mkRegisterDto e2 pw) w.
Proof.
  intros Hcase. unfold AuthService.register. simpl. rewrite Hcase. reflexivity.
Qed.

Lemma login_casing (e1 e2 pw : string) (w : Repository.World User) :
  toLowerCase e1 = toLowerCase e2 ->
  login (mkLoginDto e1 pw) w = login (mkLoginDto e2 pw) w.
Proof.
  intros Hcase. unfold AuthService.login. simpl. rewrite Hcase. reflexivity.
Qed.

(** What [register] resolves with is what it stored. *)
Lemma register_resolved (dto : RegisterDto) (w : Repository.World User)
      (res : AuthResponse) (w' : Repository.World User) :
  register dto w = (Resolved res, w') ->
  auth_email (user res) = toLowerCase (reg_email dto) /\
  exists u : User,
    In u (Repository.rows w') /\ user_id u = auth_id (user res) /\
    email u = toLowerCase (reg_email dto).
Proof.
  unfold AuthService.register, bind at 1.
  destruct (exists_run (T:=User) "email" (VStr (toLowerCase (reg_email dto))) w)
    as (r1 & -> & _).
  destruct r1 as [[|] | e]; try discriminate.
  unfold bind at 1, settle at 1.
  destruct (bcrypt_hash _ _) as [e | hashed]; [discriminate |].
  unfold ret at 1.
  unfold try_catch at 1, bind, BaseService.create.
  match goal with
  | |- context [try_catch (Repository.save ?d) (BaseService.handleError ?op) ?w1] =>
      destruct (@guarded_save User User_entity d op w1)
        as (r3 & w3 & -> & _ & [(e & -> & _) | (-> & Hrows)])
  end.
  - destruct (code_is _ _); discriminate.
  - unfold settle. destruct (jwt_sign _) as [e | token]; unfold throw, ret.
    + destruct (code_is _ _); discriminate.
    + intros [= <- <-]. simpl. split; [reflexivity |].
      eexists. split; [rewrite Hrows; apply in_or_app; right; left; reflexivity |].
      split; reflexivity.
Qed.

(** On a store that runs its calls, an email nobody holds is stored once
    the password is hashed; what [register] answers then depends on the
    signer alone. *)
Lemma register_fresh (dto : RegisterDto) (w : Repository.World User) (hashed : string) :
  quiet w = true ->
  (forall u, In u (Repository.rows w) -> email u <> toLowerCase (reg_email dto)) ->
  bcrypt_hash (reg_password dto) 12 = inr hashed ->
  let stored := mkUser (Repository.next_id w) (toLowerCase (reg_email dto)) hashed false in
  exists w' : Repository.World User,
    register dto w =
      (match jwt_sign (mkJwtPayload (user_id stored) (email stored)) with
       | inr token =>
           Resolved (mkAuthResponse (mkAuthUser (user_id stored) (email stored)) token)
       | inl e =>
           Rejected (if code_is e "23505"
                     then ConflictException "User with this email already exists"
                     else BadRequestException "Failed to create user")
       end, w') /\
    Repository.rows w' = (Repository.rows w ++ [stored])%list /\
    quiet w' = true.
Proof.
  intros Hq Hno Hhash stored.
  unfold AuthService.register, bind at 1.
  unfold BaseService.exists_, try_catch at 1, bind at 1, Repository.count.
  rewrite received_runs by now apply quiet_runs_next.
  unfold Repository.read, ret. cbv beta iota zeta. cbn [after_call Repository.rows].
  rewrite (no_email_visible _ _ Hno). cbn [length Z.of_nat Z.gtb Z.compare].
  unfold bind at 1, settle at 1. rewrite Hhash. unfold ret at 1.
  unfold try_catch at 1, bind, BaseService.create.
  set (w1 := after_call _ w).
  assert (Hq1 : quiet w1 = true) by (apply (quiet_tl w); [assumption | reflexivity]).
  rewrite (@guarded_save_runs User User_entity)
    by (try (now apply quiet_runs_next); apply no_email_clash; exact Hno).
  change (jwt_sign _) with (jwt_sign (mkJwtPayload (user_id stored) (email stored))).
  unfold settle.
  destruct (jwt_sign (mkJwtPayload (user_id stored) (email stored))) as [e | token];
    unfold throw, ret.
  - destruct (code_is e "23505");
      (eexists; split; [reflexivity |]; split; [reflexivity |];
       apply (quiet_tl w1); [assumption | reflexivity]).
  - eexists. split; [reflexivity |]. split; [reflexivity |].
    apply (quiet_tl w1); [assumption | reflexivity].
Qed.

(** On a store that runs its calls, the one account under an email logs
    in with a password that matches its hash. *)
Lemma login_known (dto : LoginDto) (w : Repository.World User) (u : User) :
  quiet w = true ->
  Repository.visible [CEq "email" (VStr (toLowerCase (login_email dto)))]
                     (Repository.rows w) = [u] ->
  bcrypt_compare (login_password dto) (password u) = inr true ->
  exists w' : Repository.World User,
    login dto w =
      (match jwt_sign (mkJwtPayload (user_id u) (email u)) with
       | inr token =>
           Resolved (mkAuthResponse (mkAuthUser (user_id u) (email u)) token)
       | inl e => Rejected e
       end, w').
Proof.
  intros Hq Hone Hpw.
  unfold AuthService.login, bind at 1.
  unfold BaseService.findByField, try_catch, Repository.find. cbv zeta.
  rewrite received_runs by now apply quiet_runs_next.
  unfold Repository.read at 1. cbv beta iota.
  unfold Repository.select at 1, Repository.window, Repository.ordered.
  cbn [where_ order take skip after_call Repository.rows].
  rewrite Hone. cbn [length Z.of_nat Z.eqb Pos.of_succ_nat].
  unfold bind, Repository.findOne.
  set (w1 := after_call _ w).
  assert (Hq1 : quiet w1 = true) by (apply (quiet_tl w); [assumption | reflexivity]).
  rewrite received_runs by now apply quiet_runs_next.
  unfold Repository.read. cbv beta iota.
  unfold Repository.select, Repository.window, Repository.ordered, Repository.filtering.
  cbn [where_ order take skip after_call Repository.rows w1].
  subst w1. cbn [after_call Repository.rows]. rewrite Hone. cbn [hd_error].
  unfold bind, settle. rewrite Hpw. unfold ret at 1. cbn [negb].
  destruct (jwt_sign _); eexists; reflexivity.
Qed.

Lemma login_resolved (dto : LoginDto) (w : Repository.World User)
      (res : AuthResponse) (w' : Repository.World User) :
  login dto w = (Resolved res, w') ->
  auth_email (user res) = toLowerCase (login_email dto).
Proof.
  unfold AuthService.login, bind at 1.
  unfold BaseService.findByField, Repository.find. cbv zeta.
  run_read. destruct r as [users | e]; [| discriminate].
  destruct (Z.of_nat (length users) =? 0); [discriminate |].
  unfold bind, Repository.findOne.
  match goal with
  | |- context [Repository.received ?c ?run ?w1] =>
      destruct (received_cases c run w1) as [-> | [e ->]]
  end; [| discriminate].
  unfold Repository.read. cbv beta iota.
  destruct (hd_error _) as [u |] eqn:Hu; [| discriminate].
  unfold bind, settle.
  destruct (bcrypt_compare _ _) as [e | valid]; [discriminate |].
  unfold ret at 1. destruct (negb valid); [discriminate |].
  destruct (jwt_sign _) as [e | token]; [discriminate |].
  unfold ret. intros [= <- <-]. simpl.
  apply hd_error_In, select_In in Hu. destruct Hu as [_ Hs].
  unfold Repository.satisfies in Hs. simpl in Hs.
  rewrite andb_true_r in Hs. now apply String.eqb_eq in Hs.
Qed.

End Normalisation.

(** C6, as stated, fails.  Nothing trims: an email with white space around
    it is checked, stored and returned with the white space, lowercased
    only; and a login with white space around the email of an existing
    account finds nobody. *)
Lemma register_does_not_trim :
  fst (AuthService.register toLowerCase Sample.hash Sample.sign
         (mkRegisterDto " A@B.COM " "Passw0rd") Sample.nobody)
    = Resolved (mkAuthResponse (mkAuthUser 1 " a@b.com ") "jwt-token") /\
  map email (Repository.rows
               (snd (AuthService.register toLowerCase Sample.hash Sample.sign
                       (mkRegisterDto " A@B.COM " "Passw0rd") Sample.nobody)))
    = [" a@b.com "] /\
  map (fun c => where_ (options c))
      (Repository.calls
         (snd (AuthService.register toLowerCase Sample.hash Sample.sign
                 (mkRegisterDto " A@B.COM " "Passw0rd") Sample.nobody)))
    = [[CEq "email" (VStr " a@b.com ")]; []] /\
  toLowerCase (trim " A@B.COM ") = "a@b.com" /\
  fst (AuthService.login toLowerCase Sample.compare Sample.sign
         (mkLoginDto " alice@example.com" "Passw0rd") Sample.members)
    = Rejected (UnauthorizedException "Invalid email or password") /\
  fst (AuthService.login toLowerCase Sample.compare Sample.sign
         (mkLoginDto "Alice@Example.com" "Passw0rd") Sample.members)
    = Resolved (mkAuthResponse (mkAuthUser 1 "alice@example.com") "jwt-token").
Proof. repeat split; reflexivity. Qed.

(** C6, amended.  [register] and [login] lowercase the email, and do no
    more to it, before the existence check, the lookup and the insert.
    Whatever [toLowerCase] does to a string, and whatever bcrypt and the
    signer return or throw:
    - when [register] resolves, the account it returns and the row it
      stored carry the lowercased email;
    - on a store that runs its calls, with a password that is hashed and a
      token that is signed, an email nobody holds is registered, and a
      login with the same credentials then resolves with the same account
      (the password matching its own hash);
    - when [login] resolves, the account carries the lowercased email;
    - two emails with the same lowercase form are treated alike by both. *)
Theorem register_login_lowercase :
  forall (toLowerCase : string -> string)
         (bcrypt_hash : string -> Z -> Thrown + string)
         (bcrypt_compare : string -> string -> Thrown + bool)
         (jwt_sign : JwtPayload -> Thrown + string)
         (e pw : string) (w : Repository.World User),
    (forall res w',
        AuthService.register toLowerCase bcrypt_hash jwt_sign (mkRegisterDto e pw) w
          = (Resolved res, w') ->
        auth_email (user res) = toLowerCase e /\
        exists u, In u (Repository.rows w') /\ user_id u = auth_id (user res) /\
                  email u = toLowerCase e) /\
    (quiet w = true ->
     (forall u, In u (Repository.rows w) -> email u <> toLowerCase e) ->
     forall hashed token : string,
       bcrypt_hash pw 12 = inr hashed ->
       jwt_sign (mkJwtPayload (Repository.next_id w) (toLowerCase e)) = inr token ->
       exists res w',
         AuthService.register toLowerCase bcrypt_hash jwt_sign (mkRegisterDto e pw) w
           = (Resolved res, w') /\
         auth_email (user res) = toLowerCase e /\
         (bcrypt_compare pw hashed = inr true ->
          exists w'',
            AuthService.login toLowerCase bcrypt_compare jwt_sign (mkLoginDto e pw) w'
              = (Resolved res, w''))) /\
    (forall res w',
        AuthService.login toLowerCase bcrypt_compare jwt_sign (mkLoginDto e pw) w
          = (Resolved res, w') ->
        auth_email (user res) = toLowerCase e) /\
    (forall e',
        toLowerCase e' = toLowerCase e ->
        AuthService.register toLowerCase bcrypt_hash jwt_sign (mkRegisterDto e' pw) w =
          AuthService.register toLowerCase bcrypt_hash jwt_sign (mkRegisterDto e pw) w /\
        AuthService.login toLowerCase bcrypt_compare jwt_sign (mkLoginDto e' pw) w =
          AuthService.login toLowerCase bcrypt_compare jwt_sign (mkLoginDto e pw) w).
Proof.
  intros toLowerCase bcrypt_hash bcrypt_compare jwt_sign e pw w.
  split; [| split; [| split]].
  - intros res w' Hreg.
    exact (register_resolved toLowerCase bcrypt_hash jwt_sign (mkRegisterDto e pw)
             w res w' Hreg).
  - intros Hq Hno hashed token Hhash Hsign.
    destruct (register_fresh toLowerCase bcrypt_hash jwt_sign (mkRegisterDto e pw) w
                hashed Hq Hno Hhash)
      as (w' & Hreg & Hrows & Hq').
    cbv zeta in Hreg, Hrows. simpl in Hreg, Hrows. rewrite Hsign in Hreg.
    eexists. exists w'. split; [exact Hreg |]. split; [reflexivity |].
    intros Hpw.
    destruct (login_known toLowerCase bcrypt_compare jwt_sign (mkLoginDto e pw) w'
                (mkUser (Repository.next_id w) (toLowerCase e) hashed false))
      as (w'' & Hlogin).
    + exact Hq'.
    + rewrite Hrows. simpl. apply visible_app_new.
      * apply no_email_visible. exact Hno.
      * reflexivity.
      * unfold Repository.satisfies. simpl. now rewrite String.eqb_refl.
    + exact Hpw.
    + simpl in Hlogin. rewrite Hsign in Hlogin. exists w''. exact Hlogin.
  - intros res w' Hlogin.
    exact (login_resolved toLowerCase bcrypt_compare jwt_sign (mkLoginDto e pw)
             w res w' Hlogin).
  - intros e' Hcase. split.
    + now apply register_casing.
    + now apply login_casing.
Qed.

Lemma register_login_lowercase_witness :
  exists res w',
    AuthService.register toLowerCase Sample.hash Sample.sign
      (mkRegisterDto "A@B.COM" "Passw0rd") Sample.nobody = (Resolved res, w') /\
    auth_email (user res) = toLowerCase "A@B.COM" /\
    (Sample.compare "Passw0rd" "$2a$12$Passw0rd" = inr true ->
     exists w'',
       AuthService.login toLowerCase Sample.compare Sample.sign
         (mkLoginDto "A@B.COM" "Passw0rd") w' = (Resolved res, w'')).
Proof.
  destruct (register_login_lowercase toLowerCase Sample.hash Sample.compare Sample.sign
              "A@B.COM" "Passw0rd" Sample.nobody)
    as (_ & Hfresh & _ & _).
  apply (Hfresh eq_refl (fun u Hin => match Hin with end)
           "$2a$12$Passw0rd" "jwt-token" eq_refl eq_refl).
Defined.

(** ** Error handling of [BaseService] *)

Lemma try_catch_handleError_failure {T} `{Entity T} {A}
      (body : Task (Repository.World T) A) (operation : string)
      (w : Repository.World T) (thrown : Thrown) :
  failure (try_catch body (BaseService.handleError operation) w) = Some thrown ->
  exists e, failure (body w) = Some e /\ thrown = service_error operation e.
Proof.
  unfold failure, try_catch. destruct (body w) as [[a | e] w']; simpl.
  - discriminate.
  - intros [= <-]. exists e. split; reflexivity.
Qed.

(** C10, as stated, fails on two counts.  A rejection that is not an
    [Error] (the [{ code: '23505' }] of the repository's own test) is
    passed on with the message 'Unknown error'; and [withTransaction] has
    no [catch]: the failure of its operation comes out as it is, its
    [code] included. *)
Lemma handleError_counterexample :
  failure (@BaseService.create Book Book_entity Sample.dune_data
             (Sample.rejecting (ThrownObject None (Some "23505"))))
    = Some (JsError "Service error in create: Unknown error") /\
  failure (@BaseService.create Book Book_entity Sample.dune_data
             (Sample.rejecting (ThrownObject (Some "connection reset") None)))
    = Some (JsError "Service error in create: Unknown error") /\
  failure (BaseService.withTransaction (@Repository.save Book Book_entity Sample.dune_data)
             (Sample.rejecting (QueryFailedError "duplicate key value" "23505" (Some "UQ_1"))))
    = Some (QueryFailedError "duplicate key value" "23505" (Some "UQ_1")) /\
  error_code (QueryFailedError "duplicate key value" "23505" (Some "UQ_1")) = Some "23505".
Proof. repeat split; reflexivity. Qed.

Ltac store_rejects Hf :=
  unfold failure, try_catch, bind, Repository.findOneBy, Repository.find,
    Repository.findOne, Repository.findAndCount, Repository.count, Repository.save,
    Repository.saveMany, Repository.update, Repository.delete, Repository.softDelete,
    Repository.restore, Repository.received;
  cbv zeta; rewrite Hf; reflexivity.

Lemma store_rejection_is_wrapped {T} `{Entity T} (op : Operation T)
      (w : Repository.World T) (e : Thrown) (fs : list Fate) :
  reaches_store op = true ->
  Repository.fates w = Reject e :: fs ->
  failure_of op w = Some (service_error (operation_name op) e).
Proof.
  intros Hreach Hf.
  destruct op; simpl in *;
    try (unfold BaseService.getById, BaseService.getAll, BaseService.create,
           BaseService.update, BaseService.updateByField, BaseService.delete,
           BaseService.deleteByField, BaseService.findByField,
           BaseService.findOneByField, BaseService.exists_, BaseService.count,
           BaseService.updateAndReturn, BaseService.softDelete, BaseService.restore;
         store_rejects Hf).
  - (* getPaginated *)
    unfold BaseService.getPaginated. cbv zeta.
    apply andb_true_iff in Hreach. destruct Hreach as [Hp Hl].
    apply negb_true_iff in Hp. apply negb_true_iff in Hl.
    unfold try_catch at 1. rewrite Hp, Hl.
    store_rejects Hf.
  - (* bulkCreate *)
    destruct dataArray as [| d ds]; [discriminate |].
    unfold BaseService.bulkCreate. store_rejects Hf.
Qed.

(** C10, amended.  Every failure inside an operation of [BaseService]
    that has a [catch] (all but [withTransaction]) comes out as a new plain
    [Error] whose message is 'Service error in <operation>: <m>', [m]
    being the message of the original failure when that is an [Error] and
    'Unknown error' otherwise; it carries neither [code] nor [constraint].
    What the store rejects a call with is what gets wrapped, so the
    callers of [create] see a unique violation and any other failure of
    the store as plain errors that differ in their message text only. *)
Theorem BaseService_failures_are_wrapped :
  forall (T : Type) (E : Entity T) (op : Operation T) (w : Repository.World T),
    (forall thrown : Thrown,
        failure_of op w = Some thrown ->
        exists e : Thrown,
          thrown = JsError ("Service error in " ++ operation_name op ++ ": " ++
                            (if instanceof_Error e then error_message e
                             else "Unknown error")) /\
          instanceof_Error thrown = true /\
          instanceof_HttpException thrown = false /\
          error_code thrown = None /\
          error_constraint thrown = None) /\
    (forall (e : Thrown) (fs : list Fate),
        reaches_store op = true ->
        Repository.fates w = Reject e :: fs ->
        failure_of op w = Some (service_error (operation_name op) e)) /\
    (forall (data : Draft) (e1 e2 : Thrown) (fs : list Fate) (w2 : Repository.World T),
        Repository.fates w = Reject e1 :: fs ->
        Repository.fates w2 = Reject e2 :: fs ->
        instanceof_Error e1 = instanceof_Error e2 ->
        error_message e1 = error_message e2 ->
        failure (BaseService.create data w) = failure (BaseService.create data w2)).
Proof.
  intros T E op w. split; [| split].
  - intros thrown Hfail.
    assert (Hwrapped : exists e, thrown = service_error (operation_name op) e).
    { destruct op; simpl in Hfail;
        apply try_catch_handleError_failure in Hfail;
        destruct Hfail as (e & _ & ->); exists e; reflexivity. }
    destruct Hwrapped as (e & ->). exists e. repeat split; reflexivity.
  - intros e fs. apply store_rejection_is_wrapped.
  - intros data e1 e2 fs w2 Hf1 Hf2 Hinst Hmsg.
    rewrite (store_rejection_is_wrapped (OpCreate data) w e1 fs eq_refl Hf1 : 
               failure (BaseService.create data w) = _).
    rewrite (store_rejection_is_wrapped (OpCreate data) w2 e2 fs eq_refl Hf2 :
               failure (BaseService.create data w2) = _).
    unfold service_error. now rewrite Hinst, Hmsg.
Qed.

Lemma BaseService_failures_are_wrapped_witness :
  failure_of (@OpCreate Book Book_entity Sample.dune_data)
             (Sample.rejecting (@Repository.unique_violation Book Book_entity))
  = Some (service_error "create" (@Repository.unique_violation Book Book_entity)).
Proof.
  destruct (BaseService_failures_are_wrapped Book Book_entity
              (@OpCreate Book Book_entity Sample.dune_data)
              (Sample.rejecting (@Repository.unique_violation Book Book_entity)))
    as (_ & Hstore & _).
  apply (Hstore _ []); reflexivity.
Defined.

(** * Further properties of the code *)

(** ** Paging through a table *)

Section PagingFacts.

Context {T : Type} `{Entity T}.

Lemma insert_by_length (le : T -> T -> bool) (x : T) (l : list T) :
  length (Repository.insert_by le x l) = S (length l).
Proof.
  induction l as [| y l IH]; simpl; [reflexivity |].
  destruct (le x y); simpl; [reflexivity | now rewrite IH].
Qed.

Lemma ordered_length (o : option (string * SortOrder)) (l : list T) :
  length (Repository.ordered o l) = length l.
Proof.
  destruct o as [k |]; simpl; [| reflexivity].
  induction l as [| x l IH]; simpl; [reflexivity |].
  now rewrite insert_by_length, IH.
Qed.

(** What a request in range resolves with, in full. *)
Lemma getPaginated_resolves (options : PaginationOptions)
      (findOptions : option FindManyOptions) (w : Repository.World T) :
  1 <= page options -> 1 <= limit options <= 100 -> runs_next w = true ->
  let q := paginated_query options findOptions in
  let count := Z.of_nat (length (Repository.visible (where_of findOptions)
                                   (Repository.rows w))) in
  BaseService.getPaginated options findOptions w =
    (Resolved (mkPaginatedResult
                 (Repository.select q (Repository.rows w))
                 (mkPagination (page options) (Math_ceil_div count (limit options))
                               count (limit options)
                               (page options <? Math_ceil_div count (limit options))
                               (page options >? 1))),
     after_call (mkCall "findAndCount" q) w).
Proof.
  intros Hp Hl Hrun. cbv zeta.
  rewrite getPaginated_in_range by assumption.
  unfold try_catch, bind, Repository.findAndCount.
  rewrite received_runs by assumption.
  reflexivity.
Qed.

Lemma select_paginated (options : PaginationOptions)
      (findOptions : option FindManyOptions) (table : list T) :
  Repository.select (paginated_query options findOptions) table =
    firstn (Z.to_nat (limit options))
      (skipn (Z.to_nat ((page options - 1) * limit options))
         (Repository.ordered (order (paginated_query options findOptions))
            (Repository.visible (where_of findOptions) table))).
Proof. reflexivity. Qed.

End PagingFacts.

(** X1. A page past the last one is empty: when the offset
    [(page - 1) * limit] reaches the number of matching rows, a request in
    range resolves with no items, no next page, and a page count below
    the page asked. *)
Theorem getPaginated_past_the_end :
  forall (T : Type) (E : Entity T) (options : PaginationOptions)
         (findOptions : option FindManyOptions) (w : Repository.World T),
    1 <= page options ->
    1 <= limit options <= 100 ->
    runs_next w = true ->
    Z.of_nat (length (Repository.visible (where_of findOptions) (Repository.rows w)))
      <= (page options - 1) * limit options ->
    exists (res : PaginatedResult T) (w' : Repository.World T),
      BaseService.getPaginated options findOptions w = (Resolved res, w') /\
      data res = [] /\
      hasNextPage (pagination res) = false /\
      totalPages (pagination res) < page options.
Proof.
  intros T E options findOptions w Hp Hl Hrun Hpast.
  rewrite getPaginated_resolves by assumption. cbv zeta.
  eexists. eexists. split; [reflexivity |]. simpl.
  set (count := Z.of_nat (length _)) in *.
  assert (Hpages : Math_ceil_div count (limit options) < page options).
  { pose proof (Math_ceil_div_bounds count (limit options) ltac:(lia)). nia. }
  split; [| split; [apply Z.ltb_ge; lia | exact Hpages]].
  rewrite select_paginated.
  rewrite skipn_all2; [apply firstn_nil |].
  rewrite ordered_length. subst count. lia.
Qed.

Lemma getPaginated_past_the_end_witness :
  exists (res : PaginatedResult Book) (w' : Repository.World Book),
    BaseService.getPaginated (mkPaginationOptions 3 2 None None) None Sample.shelf
      = (Resolved res, w') /\
    data res = [] /\
    hasNextPage (pagination res) = false /\
    totalPages (pagination res) < 3.
Proof.
  apply (getPaginated_past_the_end Book Book_entity
           (mkPaginationOptions 3 2 None None) None Sample.shelf).
  - simpl. lia.
  - simpl. lia.
  - reflexivity.
  - simpl. lia.
Defined.

(** X3. With a [sortBy] that is not empty the one query that
    [getPaginated] sends is ordered on that column alone, ascending unless
    [sortOrder] says otherwise and whatever order [findOptions] held; it
    takes [limit] rows after skipping [(page - 1) * limit]. *)
Theorem getPaginated_sorted_by :
  forall (T : Type) (E : Entity T) (options : PaginationOptions)
         (findOptions : option FindManyOptions) (w : Repository.World T)
         (field : string),
    1 <= page options ->
    1 <= limit options <= 100 ->
    runs_next w = true ->
    sortBy options = Some field ->
    field <> "" ->
    exists (res : PaginatedResult T) (w' : Repository.World T),
      BaseService.getPaginated options findOptions w = (Resolved res, w') /\
      Repository.calls w' =
        (Repository.calls w ++
         [mkCall "findAndCount"
            (mkFind (where_of findOptions)
                    (Some (field, or_else (sortOrder options) ASC))
                    (Some (limit options))
                    (Some ((page options - 1) * limit options)))])%list.
Proof.
  intros T E options findOptions w field Hp Hl Hrun Hsort Hfield.
  rewrite getPaginated_resolves by assumption. cbv zeta.
  assert (Hq : paginated_query options findOptions =
               mkFind (where_of findOptions)
                      (Some (field, or_else (sortOrder options) ASC))
                      (Some (limit options))
                      (Some ((page options - 1) * limit options))).
  { unfold paginated_query. rewrite Hsort. simpl.
    apply String.eqb_neq in Hfield. now rewrite Hfield. }
  rewrite Hq.
  eexists. eexists. split; reflexivity.
Qed.

Lemma getPaginated_sorted_by_witness :
  exists (res : PaginatedResult Book) (w' : Repository.World Book),
    BaseService.getPaginated (mkPaginationOptions 1 2 (Some "year") None)
      (Some (mkFind [] (Some ("title", DESC)) None None)) Sample.shelf
      = (Resolved res, w') /\
    Repository.calls w' =
      (Repository.calls Sample.shelf ++
       [mkCall "findAndCount"
          (mkFind [] (Some ("year", ASC)) (Some 2) (Some ((1 - 1) * 2)))])%list.
Proof.
  apply (getPaginated_sorted_by Book Book_entity
           (mkPaginationOptions 1 2 (Some "year") None)
           (Some (mkFind [] (Some ("title", DESC)) None None)) Sample.shelf "year").
  - simpl. lia.
  - simpl. lia.
  - reflexivity.
  - reflexivity.
  - discriminate.
Defined.

(** ** Composing the operations of [BaseService] *)

Lemma Book_keyed_by_id : keyed_by_id Book.
Proof. repeat split. Qed.

Lemma User_keyed_by_id : keyed_by_id User.
Proof. repeat split. Qed.

Section Composition.

Context {T : Type} `{Entity T}.

Lemma by_id_column (Hkey : keyed_by_id T) (id : Z) (r : T) :
  Repository.satisfies (BaseService.by_id id) r = (entity_id r =? id).
Proof.
  destruct Hkey as (_ & _ & Hcol).
  unfold Repository.satisfies, BaseService.by_id. simpl.
  rewrite Hcol. simpl. apply andb_true_r.
Qed.

Lemma visible_none (conds : list Cond) (table : list T) :
  (forall r, In r table -> Repository.satisfies conds r = false) ->
  Repository.visible conds table = [].
Proof.
  intros Hnone. unfold Repository.visible.
  induction table as [| r table IH]; [reflexivity |]. simpl.
  rewrite (Hnone r) by now left. rewrite andb_false_r.
  apply IH. intros r' Hin. apply Hnone. now right.
Qed.

Lemma getById_runs (id : Z) (w : Repository.World T) :
  runs_next w = true ->
  BaseService.getById id w =
    (Resolved (hd_error (Repository.visible (BaseService.by_id id) (Repository.rows w))),
     after_call (mkCall "findOneBy" (Repository.filtering (BaseService.by_id id))) w).
Proof.
  intros Hrun. unfold BaseService.getById, try_catch, Repository.findOneBy.
  rewrite received_runs by assumption. reflexivity.
Qed.

End Composition.

(** X4. Round trip of [create] and [getById]: on a store that runs its
    calls, a draft that clashes with no stored row is stored under the
    next id, and [getById] of the id that [create] returned gives back
    the very row that [create] returned. *)
Theorem create_then_getById :
  forall (T : Type) (E : Entity T) (data : Draft) (w : Repository.World T),
    keyed_by_id T ->
    quiet w = true ->
    existsb (unique_clash (materialize (Repository.next_id w) data)) (Repository.rows w)
      = false ->
    (forall r, In r (Repository.rows w) -> entity_id r <> Repository.next_id w) ->
    exists (row : T) (w1 w2 : Repository.World T),
      BaseService.create data w = (Resolved row, w1) /\
      entity_id row = Repository.next_id w /\
      Repository.rows w1 = (Repository.rows w ++ [row])%list /\
      BaseService.getById (entity_id row) w1 = (Resolved (Some row), w2).
Proof.
  intros T E data w Hkey Hq Hfree Hfresh.
  pose proof Hkey as (Hid & Hlive & _).
  unfold BaseService.create.
  rewrite guarded_save_runs by (try apply quiet_runs_next; assumption).
  set (row := materialize (Repository.next_id w) data).
  set (w1 := Repository.mkWorld _ _ _ _).
  assert (Hq1 : quiet w1 = true) by (apply (quiet_tl w); [assumption | reflexivity]).
  exists row, w1. eexists. split; [reflexivity |].
  split; [apply Hid |]. split; [reflexivity |].
  rewrite getById_runs by now apply quiet_runs_next.
  f_equal. f_equal. unfold w1. cbn [Repository.rows].
  rewrite visible_app_new; [reflexivity | | apply Hlive |].
  - apply visible_none. intros r Hin. rewrite by_id_column by assumption.
    apply Z.eqb_neq. unfold row. rewrite Hid. now apply Hfresh.
  - rewrite by_id_column by assumption. apply Z.eqb_refl.
Qed.

Lemma create_then_getById_witness :
  exists (row : Book) (w1 w2 : Repository.World Book),
    @BaseService.create Book Book_entity Sample.dune_data Sample.shelf = (Resolved row, w1) /\
    entity_id row = Repository.next_id Sample.shelf /\
    Repository.rows w1 = (Repository.rows Sample.shelf ++ [row])%list /\
    BaseService.getById (entity_id row) w1 = (Resolved (Some row), w2).
Proof.
  apply (create_then_getById Book Book_entity Sample.dune_data Sample.shelf).
  - exact Book_keyed_by_id.
  - reflexivity.
  - reflexivity.
  - intros r Hin. simpl in Hin.
    destruct Hin as [<- | [<- | [<- | []]]]; simpl; lia.
Defined.

(** X5. [delete] takes out the rows with that id and no other, reports
    how many there were (none is not an error), and a [getById] of the id
    afterwards finds nothing. *)
Theorem delete_then_getById :
  forall (T : Type) (E : Entity T) (id : Z) (w : Repository.World T),
    keyed_by_id T ->
    quiet w = true ->
    exists (w1 w2 : Repository.World T),
      BaseService.delete id w =
        (Resolved (Z.of_nat (length (filter (fun r => entity_id r =? id)
                                            (Repository.rows w)))), w1) /\
      Repository.rows w1 = filter (fun r => negb (entity_id r =? id)) (Repository.rows w) /\
      BaseService.getById id w1 = (Resolved None, w2).
Proof.
  intros T E id w Hkey Hq.
  unfold BaseService.delete, try_catch, Repository.delete.
  rewrite received_runs by now apply quiet_runs_next.
  set (w1 := Repository.mkWorld _ _ _ _).
  assert (Hrows : Repository.rows w1 =
                  filter (fun r => negb (entity_id r =? id)) (Repository.rows w)).
  { unfold w1. cbn [Repository.rows after_call]. apply filter_ext.
    intros r. now rewrite by_id_column. }
  assert (Hq1 : quiet w1 = true) by (apply (quiet_tl w); [assumption | reflexivity]).
  exists w1. eexists. split; [| split; [exact Hrows |]].
  - f_equal. f_equal. unfold Repository.affected. cbn [after_call Repository.rows].
    f_equal. f_equal. apply filter_ext. intros r. now rewrite by_id_column.
  - rewrite getById_runs by now apply quiet_runs_next.
    f_equal. f_equal. rewrite visible_none; [reflexivity |].
    intros r Hin. rewrite Hrows in Hin. apply filter_In in Hin.
    destruct Hin as [_ Hne]. rewrite by_id_column by assumption.
    now apply negb_true_iff in Hne.
Qed.

Lemma delete_then_getById_witness :
  exists (w1 w2 : Repository.World Book),
    BaseService.delete 2 Sample.shelf =
      (Resolved (Z.of_nat (length (filter (fun r : Book => entity_id r =? 2)
                                          (Repository.rows Sample.shelf)))), w1) /\
    Repository.rows w1 =
      filter (fun r : Book => negb (entity_id r =? 2)) (Repository.rows Sample.shelf) /\
    BaseService.getById 2 w1 = (Resolved None, w2).
Proof.
  apply (delete_then_getById Book Book_entity 2 Sample.shelf).
  - exact Book_keyed_by_id.
  - reflexivity.
Defined.

(** X6. [updateAndReturn] is an update followed by a read, not one step:
    when the store runs the update and rejects the read that follows, the
    update stays applied, and the failure comes out wrapped twice,
    'Service error in updateAndReturn: Service error in getById: ...'. *)
Theorem updateAndReturn_reread_failure :
  forall (T : Type) (E : Entity T) (id : Z) (data : Patch) (w : Repository.World T)
         (e : Thrown) (fs : list Fate),
    Repository.fates w = Proceed :: Reject e :: fs ->
    Repository.unique_ok (patched (BaseService.by_id id) data (Repository.rows w)) = true ->
    exists w' : Repository.World T,
      BaseService.updateAndReturn id data w =
        (Rejected (service_error "updateAndReturn" (service_error "getById" e)), w') /\
      Repository.rows w' = patched (BaseService.by_id id) data (Repository.rows w) /\
      error_message (service_error "updateAndReturn" (service_error "getById" e)) =
        "Service error in updateAndReturn: Service error in getById: " ++
        (if instanceof_Error e then error_message e else "Unknown error").
Proof.
  intros T E id data w e fs Hf Hok.
  unfold BaseService.updateAndReturn, try_catch at 1, bind, Repository.update.
  unfold Repository.received at 1. rewrite Hf.
  cbn [Repository.rows]. unfold patched in Hok. rewrite Hok.
  unfold BaseService.getById, try_catch, Repository.findOneBy, Repository.received.
  cbn [Repository.fates].
  eexists. split; [reflexivity |]. split; reflexivity.
Qed.

Lemma updateAndReturn_reread_failure_witness :
  exists w' : Repository.World Book,
    @BaseService.updateAndReturn Book Book_entity 1
      (mkBookPatch (Some "Gatsby") None None None None None)
      (Repository.mkWorld [Sample.gatsby] 2 [] [Proceed; Reject (JsError "Connection lost")]) =
      (Rejected (service_error "updateAndReturn"
                   (service_error "getById" (JsError "Connection lost"))), w') /\
    Repository.rows w' =
      @patched Book Book_entity (BaseService.by_id 1)
        (mkBookPatch (Some "Gatsby") None None None None None)
        (Repository.rows
           (Repository.mkWorld [Sample.gatsby] 2 []
              [Proceed; Reject (JsError "Connection lost")])) /\
    error_message (service_error "updateAndReturn"
                     (service_error "getById" (JsError "Connection lost"))) =
      "Service error in updateAndReturn: Service error in getById: " ++
      (if instanceof_Error (JsError "Connection lost")
       then error_message (JsError "Connection lost") else "Unknown error").
Proof.
  apply (updateAndReturn_reread_failure Book Book_entity 1
           (mkBookPatch (Some "Gatsby") None None None None None)
           (Repository.mkWorld [Sample.gatsby] 2 [] [Proceed; Reject (JsError "Connection lost")])
           (JsError "Connection lost") []).
  - reflexivity.
  - reflexivity.
Defined.

Section BulkFacts.

Context {T : Type} `{Entity T}.

Lemma insert_all_rows (ds : list Draft) (w : Repository.World T) :
  match Repository.insert_all ds w with
  | (Resolved created, w') =>
      created = materialized (Repository.next_id w) ds /\
      Repository.rows w' = (Repository.rows w ++ created)%list
  | (Rejected _, _) => True
  end.
Proof.
  revert w. induction ds as [| d ds IH]; intros w; simpl.
  - unfold ret. split; [reflexivity | now rewrite app_nil_r].
  - unfold bind, Repository.insert.
    destruct (existsb _ _); [exact I |].
    match goal with
    | |- context [Repository.insert_all ds ?w1] =>
        specialize (IH w1); destruct (Repository.insert_all ds w1) as [[rs | e] w2]
    end; [| exact I].
    destruct IH as [Hrs Hrows]. unfold ret. cbn [Repository.next_id] in Hrs. split.
    + now rewrite Hrs.
    + rewrite Hrows. cbn [Repository.rows]. now rewrite <- app_assoc.
Qed.

Lemma materialized_length (id : Z) (ds : list Draft) :
  length (materialized id ds) = length ds.
Proof.
  revert id. induction ds as [| d ds IH]; intros id; [reflexivity |].
  simpl. now rewrite IH.
Qed.

End BulkFacts.

(** X7. [bulkCreate] stores every draft or none: with no draft it
    resolves with nothing and sends no call; when it resolves, the rows
    it returns are the drafts, one row for each and in their order, under
    consecutive new ids, and the table is the old one with these rows
    appended; when it fails, the table is as it was. *)
Theorem bulkCreate_all_or_nothing :
  forall (T : Type) (E : Entity T) (dataArray : list Draft) (w : Repository.World T),
    BaseService.bulkCreate [] w = (Resolved [], w) /\
    (forall created : list T,
        fst (BaseService.bulkCreate dataArray w) = Resolved created ->
        created = materialized (Repository.next_id w) dataArray /\
        length created = length dataArray /\
        Repository.rows (snd (BaseService.bulkCreate dataArray w)) =
          (Repository.rows w ++ created)%list) /\
    (forall e : Thrown,
        fst (BaseService.bulkCreate dataArray w) = Rejected e ->
        Repository.rows (snd (BaseService.bulkCreate dataArray w)) = Repository.rows w).
Proof.
  intros T E dataArray w. split; [reflexivity |].
  destruct dataArray as [| d ds].
  - split.
    + intros created [= <-].
      split; [reflexivity |]. split; [reflexivity | simpl; now rewrite app_nil_r].
    + intros e He. discriminate He.
  - unfold BaseService.bulkCreate, try_catch, Repository.saveMany.
    match goal with
    | |- context [Repository.received ?c ?run w] =>
        destruct (received_cases c run w) as [-> | [e0 ->]]
    end.
    + unfold Repository.transaction.
      pose proof (insert_all_rows (d :: ds)
                    (after_call (mkCall "save" Repository.all_rows) w)) as Hall.
      destruct (Repository.insert_all (d :: ds) _) as [[rs | e0] w2]; simpl.
      * split; [| intros e He; discriminate He].
        intros created [= <-]. destruct Hall as [Hrs Hrows].
        split; [exact Hrs |]. split; [| exact Hrows].
        rewrite Hrs. exact (materialized_length _ (d :: ds)).
      * split; [intros created Hc; discriminate Hc |]. intros e _. reflexivity.
    + simpl. split; [intros created Hc; discriminate Hc |]. intros e _. reflexivity.
Qed.

(** [bulkCreate] of two drafts on an empty table. *)
Example bulkCreate_two_books :
  @BaseService.bulkCreate Book Book_entity
    [Sample.dune_data; mkBookData "Emma" "Jane Austen" None (Some 1815) None 1]
    Sample.no_books =
  (Resolved [mkBook 1 "Dune" "Frank Herbert" None (Some 1965) None 1 false;
             mkBook 2 "Emma" "Jane Austen" None (Some 1815) None 1 false],
   Repository.mkWorld
     [mkBook 1 "Dune" "Frank Herbert" None (Some 1965) None 1 false;
      mkBook 2 "Emma" "Jane Austen" None (Some 1815) None 1 false]
     3 [mkCall "save" Repository.all_rows] []).
Proof. reflexivity. Qed.

(** ** Logging in and registering again *)

Section LoginFacts.

Variable toLowerCase : string -> string.
Variable bcrypt_hash : string -> Z -> Thrown + string.
Variable bcrypt_compare : string -> string -> Thrown + bool.
Variable jwt_sign : JwtPayload -> Thrown + string.

Abbreviation register := (AuthService.register toLowerCase bcrypt_hash jwt_sign).
Abbreviation login := (AuthService.login toLowerCase bcrypt_compare jwt_sign).

(** The accounts [login] looks at, and what it makes of them. *)
Lemma login_runs (dto : LoginDto) (w : Repository.World User) :
  quiet w = true ->
  exists w' : Repository.World User,
    login dto w =
      (match Repository.visible [CEq "email" (VStr (toLowerCase (login_email dto)))]
                                (Repository.rows w) with
       | [] => Rejected (UnauthorizedException "Invalid email or password")
       | u :: _ =>
           match bcrypt_compare (login_password dto) (password u) with
           | inl e => Rejected e
           | inr false => Rejected (UnauthorizedException "Invalid email or password")
           | inr true =>
               match jwt_sign (mkJwtPayload (user_id u) (email u)) with
               | inl e => Rejected e
               | inr token =>
                   Resolved (mkAuthResponse (mkAuthUser (user_id u) (email u)) token)
               end
           end
       end, w').
Proof.
  intros Hq.
  unfold AuthService.login, bind at 1.
  unfold BaseService.findByField, try_catch, Repository.find. cbv zeta.
  rewrite received_runs by now apply quiet_runs_next.
  unfold Repository.read at 1. cbv beta iota.
  unfold Repository.select at 1, Repository.window, Repository.ordered.
  cbn [where_ order take skip after_call Repository.rows].
  set (w1 := after_call _ w).
  assert (Hq1 : quiet w1 = true) by (apply (quiet_tl w); [assumption | reflexivity]).
  destruct (Repository.visible _ (Repository.rows w)) as [| u us] eqn:Hvis.
  - cbn [length Z.of_nat Z.eqb]. eexists. reflexivity.
  - replace (Z.of_nat (length (u :: us)) =? 0) with false
      by (symmetry; apply Z.eqb_neq; simpl length; lia).
    unfold bind at 1, Repository.findOne.
    rewrite received_runs by now apply quiet_runs_next.
    unfold Repository.read. cbv beta iota.
    unfold Repository.select, Repository.window, Repository.ordered, Repository.filtering.
    cbn [where_ order take skip after_call Repository.rows w1].
    subst w1. cbn [after_call Repository.rows]. rewrite Hvis. cbn [hd_error].
    unfold bind, settle.
    destruct (bcrypt_compare _ _) as [e | [|]]; unfold throw, ret; cbn [negb].
    + eexists. reflexivity.
    + destruct (jwt_sign _); eexists; reflexivity.
    + eexists. reflexivity.
Qed.

End LoginFacts.

(** X8. An email no live account holds and a password that does not match
    the stored hash are answered alike, with
    [UnauthorizedException('Invalid email or password')].  What
    [bcrypt.compare] or the signer throws is not turned into that answer:
    it comes out of [login] as it was thrown.  On a store that runs its
    calls [login] fails in no other way, and when it resolves the
    password matched the hash of the account it returns. *)
Theorem login_fails_alike :
  forall (toLowerCase : string -> string)
         (bcrypt_compare : string -> string -> Thrown + bool)
         (jwt_sign : JwtPayload -> Thrown + string)
         (loginDto : LoginDto) (w : Repository.World User),
    quiet w = true ->
    let accounts :=
      Repository.visible [CEq "email" (VStr (toLowerCase (login_email loginDto)))]
                         (Repository.rows w) in
    let settled := fst (AuthService.login toLowerCase bcrypt_compare jwt_sign loginDto w) in
    (accounts = [] ->
     settled = Rejected (UnauthorizedException "Invalid email or password")) /\
    (forall u, hd_error accounts = Some u ->
               bcrypt_compare (login_password loginDto) (password u) = inr false ->
               settled = Rejected (UnauthorizedException "Invalid email or password")) /\
    (forall u e, hd_error accounts = Some u ->
                 bcrypt_compare (login_password loginDto) (password u) = inl e ->
                 settled = Rejected e) /\
    (forall u e, hd_error accounts = Some u ->
                 bcrypt_compare (login_password loginDto) (password u) = inr true ->
                 jwt_sign (mkJwtPayload (user_id u) (email u)) = inl e ->
                 settled = Rejected e) /\
    (forall e : Thrown,
        settled = Rejected e ->
        e = UnauthorizedException "Invalid email or password" \/
        exists u, hd_error accounts = Some u /\
                  (bcrypt_compare (login_password loginDto) (password u) = inl e \/
                   jwt_sign (mkJwtPayload (user_id u) (email u)) = inl e)) /\
    (forall res : AuthResponse,
        settled = Resolved res ->
        exists u, hd_error accounts = Some u /\
                  bcrypt_compare (login_password loginDto) (password u) = inr true /\
                  jwt_sign (mkJwtPayload (user_id u) (email u)) = inr (access_token res) /\
                  user res = mkAuthUser (user_id u) (email u)).
Proof.
  intros toLowerCase bcrypt_compare jwt_sign dto w Hq accounts settled.
  destruct (login_runs toLowerCase bcrypt_compare jwt_sign dto w Hq) as (w' & Hrun).
  unfold settled. rewrite Hrun. fold accounts. cbn [fst].
  destruct accounts as [| u us]; cbn [hd_error].
  - split; [reflexivity |]. repeat (split; [intros; discriminate |]).
    split; [intros e [= <-]; now left |]. intros res Hres. discriminate Hres.
  - destruct (bcrypt_compare (login_password dto) (password u)) as [e0 | [|]] eqn:Hpw.
    + split; [intros Hnil; discriminate Hnil |].
      split; [intros u' [= <-] Hfalse; congruence |].
      split; [intros u' e [= <-] He; congruence |].
      split; [intros u' e [= <-] He; congruence |].
      split; [| intros res Hres; discriminate Hres].
      intros e [= <-]. right. exists u. split; [reflexivity | now left].
    + destruct (jwt_sign (mkJwtPayload (user_id u) (email u))) as [e1 | token] eqn:Hsign.
      * split; [intros Hnil; discriminate Hnil |].
        split; [intros u' [= <-] Hfalse; congruence |].
        split; [intros u' e [= <-] He; congruence |].
        split; [intros u' e [= <-] _ He; rewrite Hsign in He; congruence |].
        split; [| intros res Hres; discriminate Hres].
        intros e [= <-]. right. exists u. split; [reflexivity | now right].
      * split; [intros Hnil; discriminate Hnil |].
        split; [intros u' [= <-] Hfalse; congruence |].
        split; [intros u' e [= <-] He; congruence |].
        split; [intros u' e [= <-] _ He; rewrite Hsign in He; congruence |].
        split; [intros e He; discriminate He |].
        intros res [= <-]. exists u. cbn [access_token user]. auto.
    + split; [intros Hnil; discriminate Hnil |].
      split; [reflexivity |].
      split; [intros u' e [= <-] He; congruence |].
      split; [intros u' e [= <-] He; congruence |].
      split; [| intros res Hres; discriminate Hres].
      intros e [= <-]. now left.
Qed.

Lemma login_fails_alike_witness :
  fst (AuthService.login toLowerCase Sample.compare Sample.sign
         (mkLoginDto "nobody@example.com" "Passw0rd") Sample.members) =
    Rejected (UnauthorizedException "Invalid email or password") /\
  fst (AuthService.login toLowerCase Sample.compare Sample.sign
         (mkLoginDto "alice@example.com" "wrong") Sample.members) =
    Rejected (UnauthorizedException "Invalid email or password") /\
  fst (AuthService.login toLowerCase Sample.broken_compare Sample.sign
         (mkLoginDto "alice@example.com" "Passw0rd") Sample.members) =
    Rejected (JsError "Bcrypt error") /\
  fst (AuthService.login toLowerCase Sample.compare Sample.broken_sign
         (mkLoginDto "alice@example.com" "Passw0rd") Sample.members) =
    Rejected (JsError "secretOrPrivateKey must have a value").
Proof.
  split; [| split; [| split]].
  - apply (login_fails_alike toLowerCase Sample.compare Sample.sign
             (mkLoginDto "nobody@example.com" "Passw0rd") Sample.members eq_refl).
    reflexivity.
  - apply (proj1 (proj2
             (login_fails_alike toLowerCase Sample.compare Sample.sign
                (mkLoginDto "alice@example.com" "wrong") Sample.members eq_refl))
             Sample.alice); reflexivity.
  - apply (proj1 (proj2 (proj2
             (login_fails_alike toLowerCase Sample.broken_compare Sample.sign
                (mkLoginDto "alice@example.com" "Passw0rd") Sample.members eq_refl)))
             Sample.alice); reflexivity.
  - apply (proj1 (proj2 (proj2 (proj2
             (login_fails_alike toLowerCase Sample.compare Sample.broken_sign
                (mkLoginDto "alice@example.com" "Passw0rd") Sample.members eq_refl))))
             Sample.alice); reflexivity.
Defined.

(** X9. A failure of the store during [login] is not turned into the
    unauthorized answer: at the first lookup it comes out as
    [BaseService] wraps it, at the second, which goes to the repository
    directly, as the repository threw it, [code] included. *)
Theorem login_store_failure :
  forall (toLowerCase : string -> string)
         (bcrypt_compare : string -> string -> Thrown + bool)
         (jwt_sign : JwtPayload -> Thrown + string)
         (loginDto : LoginDto) (w : Repository.World User) (e : Thrown) (fs : list Fate),
    (Repository.fates w = Reject e :: fs ->
     fst (AuthService.login toLowerCase bcrypt_compare jwt_sign loginDto w) =
       Rejected (service_error "findByField" e)) /\
    (Repository.fates w = Proceed :: Reject e :: fs ->
     Repository.visible [CEq "email" (VStr (toLowerCase (login_email loginDto)))]
                        (Repository.rows w) <> [] ->
     fst (AuthService.login toLowerCase bcrypt_compare jwt_sign loginDto w) = Rejected e).
Proof.
  intros toLowerCase bcrypt_compare jwt_sign dto w e fs. split.
  - intros Hf.
    unfold AuthService.login, bind at 1.
    unfold BaseService.findByField, try_catch, Repository.find, Repository.received.
    cbv zeta. rewrite Hf. reflexivity.
  - intros Hf Hsome.
    unfold AuthService.login, bind at 1.
    unfold BaseService.findByField, try_catch, Repository.find. cbv zeta.
    unfold Repository.received at 1. rewrite Hf.
    unfold Repository.read at 1. cbv beta iota.
    unfold Repository.select at 1, Repository.window, Repository.ordered.
    cbn [where_ order take skip Repository.rows].
    destruct (Repository.visible _ (Repository.rows w)) as [| u us]; [congruence |].
    replace (Z.of_nat (length (u :: us)) =? 0) with false
      by (symmetry; apply Z.eqb_neq; simpl length; lia).
    unfold bind, Repository.findOne, Repository.received. cbn [Repository.fates].
    reflexivity.
Qed.

Lemma login_store_failure_witness :
  fst (AuthService.login toLowerCase Sample.compare Sample.sign
         (mkLoginDto "alice@example.com" "Passw0rd")
         (Repository.mkWorld [Sample.alice] 2 []
            [Proceed; Reject (QueryFailedError "terminating connection" "57P01" None)])) =
    Rejected (QueryFailedError "terminating connection" "57P01" None).
Proof.
  apply (proj2 (login_store_failure toLowerCase Sample.compare Sample.sign
                  (mkLoginDto "alice@example.com" "Passw0rd")
                  (Repository.mkWorld [Sample.alice] 2 []
                     [Proceed; Reject (QueryFailedError "terminating connection" "57P01" None)])
                  (QueryFailedError "terminating connection" "57P01" None) [])).
  - reflexivity.
  - discriminate.
Defined.

(** X10. Once [register] has hashed the password and stored the account
    (whatever the signer does afterwards), registering an email with the
    same lowercase form again, with whatever password, is answered with
    [ConflictException('User with this email already exists')] and stores
    nothing. *)
Theorem register_twice_conflicts :
  forall (toLowerCase : string -> string)
         (bcrypt_hash : string -> Z -> Thrown + string)
         (jwt_sign : JwtPayload -> Thrown + string)
         (first second : RegisterDto) (w : Repository.World User) (hashed : string),
    quiet w = true ->
    (forall u, In u (Repository.rows w) -> email u <> toLowerCase (reg_email first)) ->
    bcrypt_hash (reg_password first) 12 = inr hashed ->
    toLowerCase (reg_email second) = toLowerCase (reg_email first) ->
    exists (settled : Outcome AuthResponse) (w1 w2 : Repository.World User),
      AuthService.register toLowerCase bcrypt_hash jwt_sign first w = (settled, w1) /\
      Repository.rows w1 =
        (Repository.rows w ++
         [mkUser (Repository.next_id w) (toLowerCase (reg_email first)) hashed false])%list /\
      (forall token : string,
          jwt_sign (mkJwtPayload (Repository.next_id w) (toLowerCase (reg_email first)))
            = inr token ->
          settled =
            Resolved (mkAuthResponse
                        (mkAuthUser (Repository.next_id w) (toLowerCase (reg_email first)))
                        token)) /\
      AuthService.register toLowerCase bcrypt_hash jwt_sign second w1 =
        (Rejected (ConflictException "User with this email already exists"), w2) /\
      Repository.rows w2 = Repository.rows w1.
Proof.
  intros toLowerCase bcrypt_hash jwt_sign first second w hashed Hq Hno Hhash Hcase.
  destruct (register_fresh toLowerCase bcrypt_hash jwt_sign first w hashed Hq Hno Hhash)
    as (w1 & Hreg & Hrows & Hq1).
  cbv zeta in Hreg, Hrows. cbn [user_id email] in Hreg.
  eexists. exists w1. eexists. split; [exact Hreg |]. split; [exact Hrows |].
  split; [intros token Hsign; now rewrite Hsign |].
  unfold AuthService.register, bind.
  unfold BaseService.exists_, try_catch, bind, Repository.count.
  rewrite received_runs by now apply quiet_runs_next.
  unfold Repository.read, ret. cbv beta iota zeta. cbn [after_call Repository.rows].
  rewrite Hrows, Hcase.
  rewrite visible_app_new.
  - cbn [length Z.of_nat Z.gtb Z.compare Pos.of_succ_nat]. split; [reflexivity |].
    exact Hrows.
  - apply no_email_visible. exact Hno.
  - reflexivity.
  - unfold Repository.satisfies. simpl. now rewrite String.eqb_refl.
Qed.

Lemma register_twice_conflicts_witness :
  exists (settled : Outcome AuthResponse) (w1 w2 : Repository.World User),
    AuthService.register toLowerCase Sample.hash Sample.sign
      (mkRegisterDto "Bob@Example.com" "Passw0rd") Sample.members = (settled, w1) /\
    Repository.rows w1 =
      (Repository.rows Sample.members ++
       [mkUser 2 (toLowerCase "Bob@Example.com") "$2a$12$Passw0rd" false])%list /\
    (forall token : string,
        Sample.sign (mkJwtPayload 2 (toLowerCase "Bob@Example.com")) = inr token ->
        settled =
          Resolved (mkAuthResponse (mkAuthUser 2 (toLowerCase "Bob@Example.com")) token)) /\
    AuthService.register toLowerCase Sample.hash Sample.sign
      (mkRegisterDto "BOB@example.COM" "0therPass") w1 =
      (Rejected (ConflictException "User with this email already exists"), w2) /\
    Repository.rows w2 = Repository.rows w1.
Proof.
  apply (register_twice_conflicts toLowerCase Sample.hash Sample.sign
           (mkRegisterDto "Bob@Example.com" "Passw0rd")
           (mkRegisterDto "BOB@example.COM" "0therPass") Sample.members
           "$2a$12$Passw0rd").
  - reflexivity.
  - intros u Hin. simpl in Hin. destruct Hin as [<- | []]. discriminate.
  - reflexivity.
  - reflexivity.
Defined.

(** ** The book routes *)

Lemma findByIdAndUser_runs (bookId owner : Z) (w : Repository.World Book) :
  runs_next w = true ->
  BooksService.findByIdAndUser bookId owner w =
    (Resolved (hd_error (Repository.visible
                           [CEq "id" (VNum bookId); CEq "userId" (VNum owner)]
                           (Repository.rows w))),
     after_call (mkCall "findOneBy"
                   (Repository.filtering
                      [CEq "id" (VNum bookId); CEq "userId" (VNum owner)])) w).
Proof.
  intros Hrun. unfold BooksService.findByIdAndUser, try_catch, Repository.findOneBy.
  rewrite received_runs by assumption. reflexivity.
Qed.

Lemma id_userId_satisfies (bookId owner : Z) (b : Book) :
  Repository.satisfies [CEq "id" (VNum bookId); CEq "userId" (VNum owner)] b =
    (book_id b =? bookId) && (userId b =? owner).
Proof. unfold Repository.satisfies. simpl. now rewrite andb_true_r. Qed.

Lemma no_book_of_user (bookId owner : Z) (table : list Book) :
  (forall b, In b table -> book_id b = bookId -> userId b = owner ->
             book_deletedAt b = true) ->
  Repository.visible [CEq "id" (VNum bookId); CEq "userId" (VNum owner)] table = [].
Proof.
  intros Hnone. unfold Repository.visible.
  induction table as [| b table IH]; [reflexivity |]. cbn [filter].
  rewrite IH by (intros b' Hin; apply Hnone; now right).
  rewrite id_userId_satisfies.
  destruct (Z.eqb_spec (book_id b) bookId) as [Hid | Hid];
    [| now rewrite andb_false_r].
  destruct (Z.eqb_spec (userId b) owner) as [Hown | Hown];
    [| now rewrite andb_false_r].
  change (deleted b) with (book_deletedAt b).
  rewrite (Hnone b (or_introl eq_refl) Hid Hown). reflexivity.
Qed.

(** X11. A book that is not there and a book of somebody else get the
    same answer: when no live book with that id belongs to the requester
    and the store runs the lookup, the routes that read, update and
    delete by id all answer 404 'Book not found', and nothing is updated
    or deleted. *)
Theorem foreign_or_missing_book_is_404 :
  forall (user : User) (id : Z) (updateBookDto : BookPatch) (w : Repository.World Book),
    runs_next w = true ->
    (forall b, In b (Repository.rows w) -> book_id b = id -> userId b = user_id user ->
               book_deletedAt b = true) ->
    fst (BooksController.getBookById user id w) =
      Rejected (HttpException NOT_FOUND "Book not found") /\
    fst (BooksController.updateBook user id updateBookDto w) =
      Rejected (HttpException NOT_FOUND "Book not found") /\
    fst (BooksController.deleteBook user id w) =
      Rejected (HttpException NOT_FOUND "Book not found") /\
    Repository.rows (snd (BooksController.updateBook user id updateBookDto w)) =
      Repository.rows w /\
    Repository.rows (snd (BooksController.deleteBook user id w)) = Repository.rows w.
Proof.
  intros user id dto w Hrun Hnone.
  pose proof (findByIdAndUser_runs id (user_id user) w Hrun) as Hfind.
  rewrite (no_book_of_user id (user_id user) _ Hnone) in Hfind. cbn [hd_error] in Hfind.
  unfold BooksController.getBookById, BooksController.updateBook,
    BooksController.deleteBook, try_catch, bind.
  rewrite Hfind. repeat split.
Qed.

Lemma foreign_or_missing_book_is_404_witness :
  fst (BooksController.getBookById Sample.alice 3 Sample.shelf) =
    Rejected (HttpException NOT_FOUND "Book not found") /\
  fst (BooksController.updateBook Sample.alice 3
         (mkBookPatch (Some "Mine") None None None None None) Sample.shelf) =
    Rejected (HttpException NOT_FOUND "Book not found") /\
  fst (BooksController.deleteBook Sample.alice 3 Sample.shelf) =
    Rejected (HttpException NOT_FOUND "Book not found") /\
  Repository.rows (snd (BooksController.updateBook Sample.alice 3
                          (mkBookPatch (Some "Mine") None None None None None)
                          Sample.shelf)) =
    Repository.rows Sample.shelf /\
  Repository.rows (snd (BooksController.deleteBook Sample.alice 3 Sample.shelf)) =
    Repository.rows Sample.shelf.
Proof.
  apply (foreign_or_missing_book_is_404 Sample.alice 3
           (mkBookPatch (Some "Mine") None None None None None) Sample.shelf).
  - reflexivity.
  - intros b Hin Hid Hown. simpl in Hin.
    destruct Hin as [<- | [<- | [<- | []]]]; simpl in *; lia.
Defined.

(** X12. [uploadCoverImage] never answers 400 and never touches the
    table: its own refusals (a type other than jpeg, jpg or png; more
    than 3 MB) are caught by its own [catch] and come out, like a failure
    of the object store, as 500 'Failed to upload cover image: ...'; a
    file that is refused is not handed to the object store. *)
Theorem uploadCoverImage_failures_are_500 :
  forall (upload : File -> Z -> Thrown + string) (coverImage : File) (user : User)
         (w : Repository.World Book),
    let settled := BooksController.uploadCoverImage upload coverImage user w in
    let allowed :=
      existsb (String.eqb (mimetype coverImage)) ["image/jpeg"; "image/jpg"; "image/png"] in
    snd settled = w /\
    (forall e, fst settled = Rejected e ->
       exists m, e = HttpException INTERNAL_SERVER_ERROR
                       ("Failed to upload cover image: " ++ m)) /\
    (allowed = false ->
     fst settled =
       Rejected (HttpException INTERNAL_SERVER_ERROR
                   "Failed to upload cover image: Invalid file type. Only JPEG, PNG images are allowed.")) /\
    (allowed = true -> size coverImage > 3 * 1024 * 1024 ->
     fst settled =
       Rejected (HttpException INTERNAL_SERVER_ERROR
                   "Failed to upload cover image: File too large. Maximum size is 3MB.")) /\
    (allowed = true -> size coverImage <= 3 * 1024 * 1024 ->
     fst settled =
       match upload coverImage (user_id user) with
       | inr url => Resolved url
       | inl e => Rejected (HttpException INTERNAL_SERVER_ERROR
                              ("Failed to upload cover image: " ++ error_message e))
       end).
Proof.
  intros upload file user w. cbv zeta.
  split; [apply uploadCoverImage_world |].
  unfold BooksController.uploadCoverImage, try_catch.
  destruct (existsb _ _) eqn:Hallowed; cbn [negb].
  - destruct (Z.gtb_spec (size file) (3 * 1024 * 1024)) as [Hbig | Hsmall].
    + split; [| split; [| split]]; try (intros; first [discriminate | congruence | exfalso; lia]).
      * intros e [= <-]. eexists. reflexivity.
      * reflexivity.
    + destruct (upload file (user_id user)) as [e0 | url];
        (split; [| split; [| split]]); try (intros; first [discriminate | congruence | exfalso; lia]).
      * intros e [= <-]. eexists. reflexivity.
      * reflexivity.
      * reflexivity.
  - split; [| split; [| split]]; try (intros; first [discriminate | congruence | exfalso; lia]).
    + intros e [= <-]. eexists. reflexivity.
    + reflexivity.
Qed.

Lemma uploadCoverImage_failures_are_500_aux (upload : File -> Z -> Thrown + string)
      (file : File) (user : User) (w : Repository.World Book) (e : Thrown) :
  fst (BooksController.uploadCoverImage upload file user w) = Rejected e ->
  exists m, e = HttpException INTERNAL_SERVER_ERROR ("Failed to upload cover image: " ++ m).
Proof.
  unfold BooksController.uploadCoverImage, try_catch.
  destruct (negb _); [intros [= <-]; eexists; reflexivity |].
  destruct (size file >? _); [intros [= <-]; eexists; reflexivity |].
  destruct (upload file (user_id user)); [intros [= <-]; eexists; reflexivity |].
  intros He. discriminate He.
Qed.

Lemma uploadCoverImage_any_world (upload : File -> Z -> Thrown + string)
      (file : File) (user : User) (w w0 : Repository.World Book) :
  fst (BooksController.uploadCoverImage upload file user w) =
  fst (BooksController.uploadCoverImage upload file user w0).
Proof.
  unfold BooksController.uploadCoverImage, try_catch.
  destruct (negb _); [reflexivity |].
  destruct (size file >? _); [reflexivity |].
  destruct (upload file (user_id user)); reflexivity.
Qed.

Lemma titleExistsForUser_runs (owner : Z) (name : string) (w : Repository.World Book) :
  runs_next w = true ->
  BooksService.titleExistsForUser owner name w =
    (Resolved (Z.of_nat (length (Repository.visible
                                   [CEq "userId" (VNum owner); CEq "title" (VStr name)]
                                   (Repository.rows w))) >? 0),
     after_call (mkCall "count"
                   (Repository.filtering
                      [CEq "userId" (VNum owner); CEq "title" (VStr name)])) w).
Proof.
  intros Hrun.
  unfold BooksService.titleExistsForUser, try_catch, bind, Repository.count.
  rewrite received_runs by assumption. reflexivity.
Qed.

(** X13. The title is checked before the cover image is looked at, and
    the book is stored last: when the title is free and the cover image
    is refused, [createBook] answers the 500 of [uploadCoverImage], the
    repository has seen the count of the pre-check and nothing else, and
    no book is stored. *)
Theorem createBook_refused_cover :
  forall (upload : File -> Z -> Thrown + string) (user : User)
         (createBookDto : CreateBookDto) (coverImage : File)
         (w : Repository.World Book) (e : Thrown),
    runs_next w = true ->
    Repository.visible
      [CEq "userId" (VNum (user_id user)); CEq "title" (VStr (c_title createBookDto))]
      (Repository.rows w) = [] ->
    fst (BooksController.uploadCoverImage upload coverImage user w) = Rejected e ->
    BooksController.createBook upload user createBookDto (Some coverImage) w =
      (Rejected e,
       after_call (mkCall "count"
                     (Repository.filtering
                        [CEq "userId" (VNum (user_id user));
                         CEq "title" (VStr (c_title createBookDto))])) w).
Proof.
  intros upload user dto file w e Hrun Hfree Hrefused.
  destruct (uploadCoverImage_failures_are_500_aux upload file user w e Hrefused) as (m & ->).
  unfold BooksController.createBook, try_catch, bind at 1.
  unfold bind at 1.
  rewrite titleExistsForUser_runs by assumption. rewrite Hfree.
  cbn [length Z.of_nat Z.gtb Z.compare]. unfold ret at 1. cbv beta iota.
  set (w1 := after_call _ w).
  unfold bind at 1. unfold bind at 1.
  pose proof (uploadCoverImage_world upload file user w1) as Hw.
  pose proof (uploadCoverImage_any_world upload file user w1 w) as Hfst.
  rewrite Hrefused in Hfst.
  destruct (BooksController.uploadCoverImage upload file user w1) as [r w2].
  simpl in Hw, Hfst. subst w2 r. reflexivity.
Qed.

Lemma createBook_refused_cover_witness :
  BooksController.createBook Sample.upload Sample.alice Sample.dune
    (Some (mkFile "application/pdf" 1024 "cover.pdf")) Sample.shelf =
    (Rejected (HttpException INTERNAL_SERVER_ERROR
                 "Failed to upload cover image: Invalid file type. Only JPEG, PNG images are allowed."),
     after_call (mkCall "count"
                   (Repository.filtering
                      [CEq "userId" (VNum (user_id Sample.alice));
                       CEq "title" (VStr (c_title Sample.dune))])) Sample.shelf).
Proof.
  apply (createBook_refused_cover Sample.upload Sample.alice Sample.dune
           (mkFile "application/pdf" 1024 "cover.pdf") Sample.shelf).
  - reflexivity.
  - reflexivity.
  - reflexivity.
Defined.

(** X14. [deleteBook] removes the requester's book and nothing else: on
    a store that runs its calls, with unique ids, a live book of the
    requester under that id is deleted, the route resolves, and the table
    is the old one without that book. *)
Theorem deleteBook_removes_the_book :
  forall (user : User) (id : Z) (w : Repository.World Book) (book : Book),
    quiet w = true ->
    NoDup (map book_id (Repository.rows w)) ->
    In book (Repository.rows w) ->
    book_id book = id -> userId book = user_id user -> book_deletedAt book = false ->
    fst (BooksController.deleteBook user id w) =
      Resolved (successResponse tt "Book deleted successfully") /\
    (forall b, In b (Repository.rows (snd (BooksController.deleteBook user id w))) <->
               In b (Repository.rows w) /\ b <> book).
Proof.
  intros user id w book Hq Hnd Hin Hid Hown Hlive.
  assert (Hfound : exists b0 rest,
             Repository.visible [CEq "id" (VNum id); CEq "userId" (VNum (user_id user))]
                                (Repository.rows w) = b0 :: rest).
  { assert (Hv : In book (Repository.visible
                            [CEq "id" (VNum id); CEq "userId" (VNum (user_id user))]
                            (Repository.rows w))).
    { unfold Repository.visible. apply filter_In. split; [assumption |].
      change (deleted book) with (book_deletedAt book).
      rewrite Hlive, id_userId_satisfies, Hid, Hown, !Z.eqb_refl. reflexivity. }
    destruct (Repository.visible _ _) as [| b0 rest]; [destruct Hv | eauto]. }
  destruct Hfound as (b0 & rest & Hvis).
  assert (Hrun : exists w',
             BooksController.deleteBook user id w =
               (Resolved (successResponse tt "Book deleted successfully"), w') /\
             Repository.rows w' =
               filter (fun r => negb (Repository.satisfies (BaseService.by_id id) r))
                      (Repository.rows w)).
  { unfold BooksController.deleteBook, try_catch at 1, bind at 1.
    rewrite findByIdAndUser_runs by now apply quiet_runs_next.
    rewrite Hvis. cbn [hd_error].
    set (w1 := after_call _ w).
    assert (Hq1 : quiet w1 = true) by (apply (quiet_tl w); [assumption | reflexivity]).
    unfold bind, BaseService.delete, try_catch, Repository.delete.
    rewrite received_runs by now apply quiet_runs_next.
    unfold ret. eexists. split; reflexivity. }
  destruct Hrun as (w' & -> & Hrows). cbn [fst snd]. rewrite Hrows.
  split; [reflexivity |].
  intros b. rewrite filter_In, by_id_satisfies. split.
  - intros [Hb Hne]. split; [assumption |]. intros ->.
    rewrite Hid, Z.eqb_refl in Hne. discriminate.
  - intros [Hb Hne]. split; [assumption |].
    apply negb_true_iff, Z.eqb_neq. intros Hsame. apply Hne.
    apply (same_id_same_book (Repository.rows w)); congruence.
Qed.

Lemma deleteBook_removes_the_book_witness :
  fst (BooksController.deleteBook Sample.alice 2 Sample.shelf) =
    Resolved (successResponse tt "Book deleted successfully") /\
  (forall b, In b (Repository.rows (snd (BooksController.deleteBook Sample.alice 2
                                           Sample.shelf))) <->
             In b (Repository.rows Sample.shelf) /\ b <> Sample.ulysses).
Proof.
  apply (deleteBook_removes_the_book Sample.alice 2 Sample.shelf Sample.ulysses).
  - reflexivity.
  - simpl. repeat constructor; simpl; intuition discriminate.
  - simpl. auto.
  - reflexivity.
  - reflexivity.
  - reflexivity.
Defined.



(** X16. A search term switches paging off: with a [search] that is not
    empty the list route sends one query for the requester's books whose
    title or author matches, and answers with all of them, whatever page,
    limit, sort and author filter the query carries. *)
Theorem getAllBooks_search_is_not_paged :
  forall (user : User) (query : BookQueryDto) (w : Repository.World Book) (term : string),
    q_search query = Some term ->
    term <> "" ->
    runs_next w = true ->
    let conds :=
      [CEq "userId" (VNum (user_id user));
       COr (CILike "title" ("%" ++ term ++ "%")) (CILike "author" ("%" ++ term ++ "%"))] in
    BooksController.getAllBooks user query w =
      (Resolved (successResponse (Repository.visible conds (Repository.rows w))
                                 "Books retrieved successfully"),
       after_call (mkCall "getMany" (Repository.filtering conds)) w).
Proof.
  intros user query w term Hsearch Hterm Hrun. cbv zeta.
  unfold BooksController.getAllBooks, try_catch at 1.
  rewrite Hsearch. cbn [truthy or_else].
  apply String.eqb_neq in Hterm. rewrite Hterm. cbn [negb].
  unfold bind, BooksService.searchByTitleForUser, try_catch, Repository.getMany.
  rewrite received_runs by assumption. reflexivity.
Qed.

Lemma getAllBooks_search_is_not_paged_witness :
  BooksController.getAllBooks Sample.alice
    (mkBookQueryDto (Some 7) (Some 1000) (Some "year") (Some DESC) (Some "Joyce") (Some "gat"))
    Sample.shelf =
    (Resolved (successResponse
                 (Repository.visible
                    [CEq "userId" (VNum (user_id Sample.alice));
                     COr (CILike "title" ("%" ++ "gat" ++ "%"))
                         (CILike "author" ("%" ++ "gat" ++ "%"))]
                    (Repository.rows Sample.shelf))
                 "Books retrieved successfully"),
     after_call (mkCall "getMany"
                   (Repository.filtering
                      [CEq "userId" (VNum (user_id Sample.alice));
                       COr (CILike "title" ("%" ++ "gat" ++ "%"))
                           (CILike "author" ("%" ++ "gat" ++ "%"))])) Sample.shelf).
Proof.
  apply (getAllBooks_search_is_not_paged Sample.alice
           (mkBookQueryDto (Some 7) (Some 1000) (Some "year") (Some DESC)
                           (Some "Joyce") (Some "gat"))
           Sample.shelf "gat").
  - reflexivity.
  - discriminate.
  - reflexivity.
Defined.

(** X17. Renaming a book to a title the requester already uses is
    stopped before the update: the route answers 409 with a message that
    quotes the new title, and no row changes. *)
Theorem updateBook_title_conflict :
  forall (user : User) (id : Z) (updateBookDto : BookPatch) (w : Repository.World Book)
         (existing other : Book) (newTitle : string),
    quiet w = true ->
    hd_error (Repository.visible
                [CEq "id" (VNum id); CEq "userId" (VNum (user_id user))]
                (Repository.rows w)) = Some existing ->
    p_title updateBookDto = Some newTitle ->
    newTitle <> "" ->
    newTitle <> title existing ->
    In other (Repository.rows w) ->
    book_deletedAt other = false ->
    userId other = user_id user ->
    title other = newTitle ->
    exists w' : Repository.World Book,
      BooksController.updateBook user id updateBookDto w =
        (Rejected (HttpException CONFLICT (duplicate_title_message newTitle)), w') /\
      Repository.rows w' = Repository.rows w.
Proof.
  intros user id dto w existing other newTitle Hq Hfound Htitle Hne Hdiff Hin Hlive Hown Hsame.
  unfold BooksController.updateBook, try_catch at 1, bind at 1.
  rewrite findByIdAndUser_runs by now apply quiet_runs_next.
  rewrite Hfound, Htitle. cbn [truthy or_else].
  apply String.eqb_neq in Hne. apply String.eqb_neq in Hdiff.
  rewrite Hne, Hdiff. cbn [negb andb].
  set (w1 := after_call _ w).
  assert (Hq1 : quiet w1 = true) by (apply (quiet_tl w); [assumption | reflexivity]).
  unfold bind at 1. unfold bind at 1.
  rewrite titleExistsForUser_runs by now apply quiet_runs_next.
  assert (Hexists : (Z.of_nat (length (Repository.visible
                       [CEq "userId" (VNum (user_id user)); CEq "title" (VStr newTitle)]
                       (Repository.rows w1))) >? 0) = true).
  { apply (visible_nonempty _ _ other); [exact Hin | exact Hlive |].
    unfold Repository.satisfies. simpl.
    rewrite Hown, Hsame, Z.eqb_refl, String.eqb_refl. reflexivity. }
  rewrite Hexists. eexists. split; reflexivity.
Qed.

Lemma updateBook_title_conflict_witness :
  exists w' : Repository.World Book,
    BooksController.updateBook Sample.alice 2
      (mkBookPatch (Some "The Great Gatsby") None None None None None) Sample.shelf =
      (Rejected (HttpException CONFLICT (duplicate_title_message "The Great Gatsby")), w') /\
    Repository.rows w' = Repository.rows Sample.shelf.
Proof.
  apply (updateBook_title_conflict Sample.alice 2
           (mkBookPatch (Some "The Great Gatsby") None None None None None)
           Sample.shelf Sample.ulysses Sample.gatsby "The Great Gatsby").
  - reflexivity.
  - reflexivity.
  - reflexivity.
  - discriminate.
  - discriminate.
  - simpl. auto.
  - reflexivity.
  - reflexivity.
  - reflexivity.
Defined.

(** X18. The pre-check of [createBook] comes first: a requester who
    already has a live book under that very title gets 409 with a message
    that quotes it, whatever cover image comes along, and nothing is
    stored. *)
Theorem createBook_duplicate_title :
  forall (upload : File -> Z -> Thrown + string) (user : User)
         (createBookDto : CreateBookDto) (coverImage : option File)
         (w : Repository.World Book) (b : Book),
    runs_next w = true ->
    In b (Repository.rows w) -> book_deletedAt b = false ->
    userId b = user_id user -> title b = c_title createBookDto ->
    BooksController.createBook upload user createBookDto coverImage w =
      (Rejected (HttpException CONFLICT (duplicate_title_message (c_title createBookDto))),
       after_call (mkCall "count"
                     (Repository.filtering
                        [CEq "userId" (VNum (user_id user));
                         CEq "title" (VStr (c_title createBookDto))])) w).
Proof.
  intros upload user dto coverImage w b Hrun Hin Hlive Hown Htitle.
  unfold BooksController.createBook, try_catch, bind at 1.
  unfold bind at 1.
  rewrite titleExistsForUser_runs by assumption.
  assert (Hexists : (Z.of_nat (length (Repository.visible
                       [CEq "userId" (VNum (user_id user)); CEq "title" (VStr (c_title dto))]
                       (Repository.rows w))) >? 0) = true).
  { apply (visible_nonempty _ _ b); [exact Hin | exact Hlive |].
    unfold Repository.satisfies. simpl.
    rewrite Hown, Htitle, Z.eqb_refl, String.eqb_refl. reflexivity. }
  rewrite Hexists. reflexivity.
Qed.

Lemma createBook_duplicate_title_witness :
  BooksController.createBook Sample.upload Sample.alice
    (mkCreateBookDto "Ulysses" "Somebody Else" None None (Some 2))
    (Some (mkFile "image/png" 2048 "cover.png")) Sample.shelf =
    (Rejected (HttpException CONFLICT (duplicate_title_message "Ulysses")),
     after_call (mkCall "count"
                   (Repository.filtering
                      [CEq "userId" (VNum (user_id Sample.alice));
                       CEq "title" (VStr "Ulysses")])) Sample.shelf).
Proof.
  apply (createBook_duplicate_title Sample.upload Sample.alice
           (mkCreateBookDto "Ulysses" "Somebody Else" None None (Some 2))
           (Some (mkFile "image/png" 2048 "cover.png")) Sample.shelf Sample.ulysses).
  - reflexivity.
  - simpl. auto.
  - reflexivity.
  - reflexivity.
  - reflexivity.
Defined.

(** ** What a search term matches *)

Lemma like_match_percent (p s : list ascii) :
  like_match ("%"%char :: p) s = somewhere (like_match p) s.
Proof.
  cbn [like_match]. cbn [Ascii.eqb Bool.eqb]. cbv iota.
  induction s as [| d s IH]; [reflexivity |].
  cbn [somewhere]. now rewrite <- IH.
Qed.

Lemma like_match_only_percent (s : list ascii) : like_match ["%"%char] s = true.
Proof.
  rewrite like_match_percent.
  induction s as [| d s IH]; [reflexivity |].
  cbn [somewhere]. rewrite IH. apply orb_true_r.
Qed.

Lemma like_match_literal (t s : list ascii) :
  forallb (fun c => negb (is_wildcard c)) t = true ->
  like_match (t ++ ["%"%char]) s = prefixb t s.
Proof.
  revert s. induction t as [| c t IH]; intros s Hlit.
  - apply like_match_only_percent.
  - cbn [forallb] in Hlit. apply andb_true_iff in Hlit. destruct Hlit as [Hc Ht].
    unfold is_wildcard in Hc. apply negb_true_iff in Hc.
    apply orb_false_iff in Hc. destruct Hc as [Hc Hb].
    apply orb_false_iff in Hc. destruct Hc as [Hp Hu].
    cbn [app like_match]. rewrite Hp, Hu, Hb.
    destruct s as [| d s]; [reflexivity |].
    cbn [prefixb]. now rewrite IH.
Qed.

Lemma prefix_prefixb (t s : string) :
  String.prefix t s = prefixb (list_ascii_of_string t) (list_ascii_of_string s).
Proof.
  revert s. induction t as [| c t IH]; intros s.
  - destruct s; reflexivity.
  - destruct s as [| d s]; [reflexivity |]. simpl.
    rewrite IH. destruct (Ascii.eqb_spec c d) as [-> | Hne].
    + destruct (ascii_dec d d); [reflexivity | congruence].
    + destruct (ascii_dec c d); [congruence | reflexivity].
Qed.

Lemma includes_somewhere (s sub : string) :
  includes s sub =
    somewhere (prefixb (list_ascii_of_string sub)) (list_ascii_of_string s).
Proof.
  induction s as [| d s IH].
  - cbn [includes list_ascii_of_string somewhere]. now rewrite prefix_prefixb.
  - cbn [includes list_ascii_of_string somewhere]. now rewrite prefix_prefixb, IH.
Qed.

Lemma list_ascii_app (a b : string) :
  list_ascii_of_string (a ++ b) = (list_ascii_of_string a ++ list_ascii_of_string b)%list.
Proof. induction a as [| c a IH]; simpl; [reflexivity | now rewrite IH]. Qed.

Lemma toLowerCase_app (a b : string) :
  toLowerCase (a ++ b) = toLowerCase a ++ toLowerCase b.
Proof. induction a as [| c a IH]; simpl; [reflexivity | now rewrite IH]. Qed.

Lemma lower_ascii_not_wildcard (c : ascii) :
  is_wildcard c = false -> is_wildcard (lower_ascii c) = false.
Proof.
  destruct c as [[] [] [] [] [] [] [] []]; vm_compute; congruence.
Qed.

Lemma literal_toLowerCase (term : string) :
  literal term = true -> literal (toLowerCase term) = true.
Proof.
  unfold literal. induction term as [| c term IH]; [reflexivity |].
  cbn [toLowerCase list_ascii_of_string forallb].
  intros Hlit. apply andb_true_iff in Hlit. destruct Hlit as [Hc Ht].
  apply negb_true_iff in Hc.
  rewrite (lower_ascii_not_wildcard c Hc). cbn [negb andb]. now apply IH.
Qed.

(** For a term without wildcards, [ILIKE '%term%'] is containment of the
    lowercased term in the lowercased value. *)
Lemma ilike_contains (value term : string) :
  literal term = true ->
  ilike value ("%" ++ term ++ "%") = includes (toLowerCase value) (toLowerCase term).
Proof.
  intros Hlit. unfold ilike.
  rewrite !toLowerCase_app. cbn [toLowerCase lower_ascii].
  change (toLowerCase "%") with "%".
  rewrite !list_ascii_app. cbn [list_ascii_of_string app].
  change (String "%" (toLowerCase term ++ "%")) with ("%" ++ (toLowerCase term ++ "%")) || idtac.
  rewrite includes_somewhere.
  match goal with
  | |- like_match ?p ?s = _ =>
      change p with ("%"%char :: (list_ascii_of_string (toLowerCase term) ++ ["%"%char])%list)
  end.
  rewrite like_match_percent.
  assert (Hsame : forall s, like_match (list_ascii_of_string (toLowerCase term) ++ ["%"%char]) s
                            = prefixb (list_ascii_of_string (toLowerCase term)) s).
  { intros s. apply like_match_literal. apply (literal_toLowerCase term Hlit). }
  generalize (list_ascii_of_string (toLowerCase value)) as s.
  induction s as [| d s IH]; cbn [somewhere]; now rewrite Hsame, ?IH.
Qed.

Lemma visible_iff {T} `{Entity T} (conds : list Cond) (table : list T) (r : T) :
  In r (Repository.visible conds table) <->
  In r table /\ deleted r = false /\ Repository.satisfies conds r = true.
Proof.
  unfold Repository.visible. rewrite filter_In, andb_true_iff, negb_true_iff. tauto.
Qed.

(** X19. [searchByTitleForUser] with a term that holds no [%], [_] or
    backslash returns exactly the live books of that owner whose title or
    author contains the term, letter case aside. *)
Theorem searchByTitleForUser_contains :
  forall (owner : Z) (searchTerm : string) (w : Repository.World Book),
    runs_next w = true ->
    literal searchTerm = true ->
    exists (books : list Book) (w' : Repository.World Book),
      BooksService.searchByTitleForUser owner searchTerm w = (Resolved books, w') /\
      forall b : Book,
        In b books <->
        In b (Repository.rows w) /\ book_deletedAt b = false /\ userId b = owner /\
        (includes (toLowerCase (title b)) (toLowerCase searchTerm) ||
         includes (toLowerCase (author b)) (toLowerCase searchTerm)) = true.
Proof.
  intros owner term w Hrun Hlit.
  unfold BooksService.searchByTitleForUser, try_catch, Repository.getMany. cbv zeta.
  rewrite received_runs by assumption.
  eexists. eexists. split; [reflexivity |].
  intros b. unfold Repository.select, Repository.window, Repository.ordered.
  cbn [Repository.filtering where_ order take skip after_call Repository.rows].
  rewrite visible_iff. unfold Repository.satisfies.
  cbn [forallb Repository.matches column Book_entity Book_column String.eqb Ascii.eqb
       Bool.eqb Value_eqb].
  rewrite !ilike_contains by assumption.
  rewrite andb_true_r, andb_true_iff, Z.eqb_eq.
  change (deleted b) with (book_deletedAt b). tauto.
Qed.

Lemma searchByTitleForUser_contains_witness :
  exists (books : list Book) (w' : Repository.World Book),
    BooksService.searchByTitleForUser 1 "GAT" Sample.shelf = (Resolved books, w') /\
    forall b : Book,
      In b books <->
      In b (Repository.rows Sample.shelf) /\ book_deletedAt b = false /\ userId b = 1 /\
      (includes (toLowerCase (title b)) (toLowerCase "GAT") ||
       includes (toLowerCase (author b)) (toLowerCase "GAT")) = true.
Proof.
  apply (searchByTitleForUser_contains 1 "GAT" Sample.shelf); reflexivity.
Defined.

(** X20. [titleExistsForUser] is exact: on a store that runs the call it
    answers true exactly when a live book of that owner has that very
    title, letter case included. *)
Theorem titleExistsForUser_exact :
  forall (owner : Z) (name : string) (w : Repository.World Book),
    runs_next w = true ->
    exists (found : bool) (w' : Repository.World Book),
      BooksService.titleExistsForUser owner name w = (Resolved found, w') /\
      (found = true <->
       exists b : Book, In b (Repository.rows w) /\ book_deletedAt b = false /\
                        userId b = owner /\ title b = name).
Proof.
  intros owner name w Hrun.
  rewrite titleExistsForUser_runs by assumption.
  eexists. eexists. split; [reflexivity |].
  set (conds := [CEq "userId" (VNum owner); CEq "title" (VStr name)]).
  assert (Hsat : forall b : Book,
             Repository.satisfies conds b = true <-> userId b = owner /\ title b = name).
  { intros b. unfold Repository.satisfies, conds. simpl.
    rewrite andb_true_r, andb_true_iff, Z.eqb_eq, String.eqb_eq. tauto. }
  split.
  - intros Hpos. destruct (Repository.visible conds (Repository.rows w)) as [| b bs] eqn:Hv;
      [discriminate Hpos |].
    assert (Hb : In b (Repository.visible conds (Repository.rows w)))
      by (rewrite Hv; now left).
    apply visible_iff in Hb. destruct Hb as (Hin & Hlive & Hs).
    apply Hsat in Hs. exists b. tauto.
  - intros (b & Hin & Hlive & Hown & Htitle).
    apply (visible_nonempty _ _ b); [exact Hin | exact Hlive |].
    apply Hsat. tauto.
Qed.

Lemma titleExistsForUser_exact_witness :
  exists (found : bool) (w' : Repository.World Book),
    BooksService.titleExistsForUser 1 "ulysses" Sample.shelf = (Resolved found, w') /\
    (found = true <->
     exists b : Book, In b (Repository.rows Sample.shelf) /\ book_deletedAt b = false /\
                      userId b = 1 /\ title b = "ulysses").
Proof.
  apply (titleExistsForUser_exact 1 "ulysses" Sample.shelf). reflexivity.
Defined.

(** X21. [findByAuthors] asks the store nothing for an empty list and
    resolves with no book; for a list with names it returns exactly the
    live books whose author is one of them, of whatever owner. *)
Theorem findByAuthors_in_list :
  forall (authors : list string) (w : Repository.World Book),
    BooksService.findByAuthors [] w = (Resolved [], w) /\
    (authors <> [] -> runs_next w = true ->
     exists (books : list Book) (w' : Repository.World Book),
       BooksService.findByAuthors authors w = (Resolved books, w') /\
       forall b : Book,
         In b books <->
         In b (Repository.rows w) /\ book_deletedAt b = false /\ In (author b) authors).
Proof.
  intros authors w. split; [reflexivity |].
  intros Hsome Hrun. destruct authors as [| a authors]; [congruence |].
  unfold BooksService.findByAuthors, try_catch, Repository.getMany.
  rewrite received_runs by assumption.
  eexists. eexists. split; [reflexivity |].
  intros b. unfold Repository.select, Repository.window, Repository.ordered.
  cbn [Repository.filtering where_ order take skip after_call Repository.rows].
  rewrite visible_iff. unfold Repository.satisfies.
  cbn [forallb Repository.matches]. rewrite andb_true_r.
  change (deleted b) with (book_deletedAt b).
  assert (Hin : existsb (Value_eqb (column "author" b)) (map VStr (a :: authors)) = true <->
                In (author b) (a :: authors)).
  { rewrite existsb_exists. split.
    - intros (v & Hv & Heq). apply in_map_iff in Hv. destruct Hv as (x & <- & Hx).
      simpl in Heq. apply String.eqb_eq in Heq. now subst.
    - intros Hx. exists (VStr (author b)). split; [now apply in_map |].
      simpl. apply String.eqb_refl. }
  rewrite Hin. tauto.
Qed.

(** *** Object names *)

Lemma adjacent_underscores_iff (s : list N) :
  adjacent_underscores s = true <->
  exists p q, s = (p ++ MinioService.underscore :: MinioService.underscore :: q)%list.
Proof.
  split.
  - induction s as [| x t IH]; [discriminate |].
    cbn [adjacent_underscores]. destruct t as [| y t']; [discriminate |].
    rewrite orb_true_iff, andb_true_iff, !N.eqb_eq. intros [[-> ->] | Hrest].
    + now exists [], t'.
    + destruct (IH Hrest) as (p & q & ->). now exists (x :: p), q.
  - intros (p & q & ->). induction p as [| x p IH]; [reflexivity |].
    cbn [app adjacent_underscores].
    destruct (p ++ MinioService.underscore :: MinioService.underscore :: q)%list eqn:Hp.
    + now destruct p.
    + rewrite IH. apply orb_true_r.
Qed.

Lemma adjacent_underscores_other (x : N) (r : list N) :
  x <> MinioService.underscore ->
  adjacent_underscores (x :: r) = adjacent_underscores r.
Proof.
  intros Hx. apply N.eqb_neq in Hx. cbn [adjacent_underscores].
  destruct r; [reflexivity |]. now rewrite Hx.
Qed.

Lemma adjacent_underscores_rev_true (s : list N) :
  adjacent_underscores s = true -> adjacent_underscores (rev s) = true.
Proof.
  intros Hs. apply adjacent_underscores_iff in Hs. destruct Hs as (p & q & ->).
  apply adjacent_underscores_iff. exists (rev q), (rev p).
  rewrite rev_app_distr. cbn [rev]. now rewrite <- !app_assoc.
Qed.

Lemma adjacent_underscores_rev (s : list N) :
  adjacent_underscores (rev s) = adjacent_underscores s.
Proof.
  destruct (adjacent_underscores (rev s)) eqn:Hr, (adjacent_underscores s) eqn:Hs;
    try reflexivity.
  - apply adjacent_underscores_rev_true in Hr. rewrite rev_involutive in Hr. congruence.
  - apply adjacent_underscores_rev_true in Hs. congruence.
Qed.

Lemma adjacent_underscores_suffix (p r : list N) :
  adjacent_underscores (p ++ r) = false -> adjacent_underscores r = false.
Proof.
  intros Hall. destruct (adjacent_underscores r) eqn:Hr; [| reflexivity].
  apply adjacent_underscores_iff in Hr. destruct Hr as (p' & q & ->).
  assert (Hyes : adjacent_underscores
                   (p ++ p' ++ MinioService.underscore :: MinioService.underscore :: q) = true).
  { apply adjacent_underscores_iff. exists (p ++ p')%list, q. now rewrite app_assoc. }
  congruence.
Qed.

Lemma squeeze_other (y : N) (t : list N) :
  y <> MinioService.underscore ->
  MinioService.squeeze (y :: t) = y :: MinioService.squeeze t.
Proof.
  intros Hy. apply N.eqb_neq in Hy. cbn [MinioService.squeeze]. now rewrite Hy.
Qed.

Lemma squeeze_adjacent (s : list N) :
  adjacent_underscores (MinioService.squeeze s) = false.
Proof.
  induction s as [| x t IH]; [reflexivity |].
  destruct (N.eq_dec x MinioService.underscore) as [Hx | Hx].
  - cbn [MinioService.squeeze]. rewrite (proj2 (N.eqb_eq _ _) Hx).
    destruct t as [| y t']; [reflexivity |].
    destruct (N.eq_dec y MinioService.underscore) as [Hy | Hy].
    + rewrite (proj2 (N.eqb_eq _ _) Hy). exact IH.
    + rewrite (proj2 (N.eqb_neq _ _) Hy).
      rewrite squeeze_other in * by assumption.
      change (((x =? MinioService.underscore)%N && (y =? MinioService.underscore)%N
               || adjacent_underscores (y :: MinioService.squeeze t')) = false).
      rewrite (proj2 (N.eqb_neq _ _) Hy), andb_false_r. exact IH.
  - rewrite squeeze_other by assumption. now rewrite adjacent_underscores_other.
Qed.

Lemma squeeze_Forall (P : N -> Prop) (s : list N) :
  Forall P s -> Forall P (MinioService.squeeze s).
Proof.
  induction 1 as [| x t Hx Ht IH]; [constructor |].
  cbn [MinioService.squeeze]. destruct (x =? MinioService.underscore)%N.
  - destruct t as [| y t']; [now constructor |].
    destruct (y =? MinioService.underscore)%N; [exact IH | now constructor].
  - now constructor.
Qed.

Lemma squeeze_fixes (s : list N) :
  adjacent_underscores s = false -> MinioService.squeeze s = s.
Proof.
  induction s as [| x t IH]; [reflexivity |]. intros Hs.
  destruct (N.eq_dec x MinioService.underscore) as [Hx | Hx].
  - cbn [MinioService.squeeze]. rewrite (proj2 (N.eqb_eq _ _) Hx).
    destruct t as [| y t']; [reflexivity |].
    cbn [adjacent_underscores] in Hs. apply orb_false_iff in Hs. destruct Hs as [Hpair Hrest].
    rewrite (proj2 (N.eqb_eq _ _) Hx) in Hpair. cbn [andb] in Hpair.
    rewrite Hpair. f_equal. apply IH. exact Hrest.
  - rewrite squeeze_other by assumption. f_equal. apply IH.
    now rewrite adjacent_underscores_other in Hs.
Qed.

Lemma drop_underscores_suffix (s : list N) :
  exists p, s = (p ++ MinioService.drop_underscores s)%list.
Proof.
  induction s as [| x t [p IH]]; [now exists [] |].
  cbn [MinioService.drop_underscores]. destruct (x =? MinioService.underscore)%N.
  - exists (x :: p). cbn [app]. now rewrite <- IH.
  - now exists [].
Qed.

Lemma drop_underscores_hd (s : list N) :
  hd 0%N (MinioService.drop_underscores s) <> MinioService.underscore.
Proof.
  induction s as [| x t IH]; [discriminate |].
  cbn [MinioService.drop_underscores].
  destruct (N.eqb_spec x MinioService.underscore) as [Hx | Hx]; [exact IH | exact Hx].
Qed.

Lemma drop_underscores_fixes (s : list N) :
  hd 0%N s <> MinioService.underscore -> MinioService.drop_underscores s = s.
Proof.
  destruct s as [| x t]; [reflexivity |]. cbn [hd MinioService.drop_underscores].
  intros Hx. now rewrite (proj2 (N.eqb_neq _ _) Hx).
Qed.

Lemma last_snoc {A} (l : list A) (x d : A) : last (l ++ [x]) d = x.
Proof.
  induction l as [| y l IH]; [reflexivity |].
  cbn [app]. destruct (l ++ [x])%list eqn:Hl; [now destruct l |].
  cbn [last]. exact IH.
Qed.

Lemma last_rev {A} (l : list A) (d : A) : last (rev l) d = hd d l.
Proof.
  destruct l as [| x l]; [reflexivity |]. cbn [rev hd]. apply last_snoc.
Qed.

Lemma hd_rev_last {A} (l : list A) (d : A) : hd d (rev l) = last l d.
Proof.
  rewrite <- (rev_involutive l) at 2. now rewrite last_rev.
Qed.

Lemma last_suffix {A} (p l : list A) (d : A) :
  l <> [] -> last (p ++ l) d = last l d.
Proof.
  intros Hl. induction p as [| x p IH]; [reflexivity |].
  cbn [app]. destruct (p ++ l)%list eqn:Hpl.
  - apply app_eq_nil in Hpl. tauto.
  - cbn [last]. exact IH.
Qed.

Lemma strip_underscores_hd (s : list N) :
  hd 0%N (MinioService.strip_underscores s) <> MinioService.underscore.
Proof.
  unfold MinioService.strip_underscores. rewrite hd_rev_last.
  destruct (drop_underscores_suffix (rev (MinioService.drop_underscores s))) as [p Hp].
  destruct (MinioService.drop_underscores (rev (MinioService.drop_underscores s))) as [| x l] eqn:Hd.
  - discriminate.
  - rewrite <- (last_suffix p (x :: l)) by discriminate.
    rewrite <- Hp, last_rev. apply drop_underscores_hd.
Qed.

Lemma strip_underscores_last (s : list N) :
  last (MinioService.strip_underscores s) 0%N <> MinioService.underscore.
Proof.
  unfold MinioService.strip_underscores. rewrite last_rev. apply drop_underscores_hd.
Qed.

Lemma drop_underscores_Forall (P : N -> Prop) (s : list N) :
  Forall P s -> Forall P (MinioService.drop_underscores s).
Proof.
  intros Hs. destruct (drop_underscores_suffix s) as [p Hp].
  rewrite Hp in Hs. apply Forall_app in Hs. tauto.
Qed.

Lemma strip_underscores_Forall (P : N -> Prop) (s : list N) :
  Forall P s -> Forall P (MinioService.strip_underscores s).
Proof.
  intros Hs. unfold MinioService.strip_underscores.
  apply Forall_rev, drop_underscores_Forall, Forall_rev, drop_underscores_Forall, Hs.
Qed.

Lemma drop_underscores_adjacent (s : list N) :
  adjacent_underscores s = false ->
  adjacent_underscores (MinioService.drop_underscores s) = false.
Proof.
  intros Hs. destruct (drop_underscores_suffix s) as [p Hp].
  rewrite Hp in Hs. now apply adjacent_underscores_suffix in Hs.
Qed.

Lemma strip_underscores_adjacent (s : list N) :
  adjacent_underscores s = false ->
  adjacent_underscores (MinioService.strip_underscores s) = false.
Proof.
  intros Hs. unfold MinioService.strip_underscores.
  rewrite adjacent_underscores_rev. apply drop_underscores_adjacent.
  rewrite adjacent_underscores_rev. now apply drop_underscores_adjacent.
Qed.

Lemma strip_underscores_fixes (s : list N) :
  hd 0%N s <> MinioService.underscore ->
  last s 0%N <> MinioService.underscore ->
  MinioService.strip_underscores s = s.
Proof.
  intros Hhd Hlast. unfold MinioService.strip_underscores.
  rewrite (drop_underscores_fixes s) by assumption.
  rewrite drop_underscores_fixes by now rewrite hd_rev_last.
  apply rev_involutive.
Qed.

Lemma is_safe_not_replaced (x : N) :
  MinioService.is_safe x = true ->
  Forall (fun entry => (x =? fst entry)%N = false) MinioService.replacements.
Proof.
  intros Hx. unfold MinioService.replacements.
  repeat (constructor;
          [ cbn [fst]; apply N.eqb_neq; intros ->; vm_compute in Hx; discriminate Hx |]).
  constructor.
Qed.

Lemma replace_all_fixes (char replacement : N) (s : list N) :
  Forall (fun x => (x =? char)%N = false) s ->
  MinioService.replace_all char replacement s = s.
Proof.
  induction 1 as [| x t Hx Ht IH]; [reflexivity |].
  unfold MinioService.replace_all in *. cbn [map]. now rewrite Hx, IH.
Qed.

Lemma replacements_fix (entries : list (N * N)) (s : list N) :
  Forall (fun x => Forall (fun entry => (x =? fst entry)%N = false) entries) s ->
  fold_left (fun sanitized entry =>
               MinioService.replace_all (fst entry) (snd entry) sanitized) entries s = s.
Proof.
  induction entries as [| entry entries IH]; [reflexivity |]. intros Hs.
  cbn [fold_left]. rewrite replace_all_fixes.
  - apply IH. eapply Forall_impl; [| exact Hs]. intros x Hx. now inversion Hx.
  - eapply Forall_impl; [| exact Hs]. intros x Hx. now inversion Hx.
Qed.

Lemma safe_units_fix (s : list N) :
  forallb MinioService.is_safe s = true ->
  map (fun x => if MinioService.is_safe x then x else MinioService.underscore) s = s.
Proof.
  induction s as [| x t IH]; [reflexivity |].
  cbn [forallb map]. rewrite andb_true_iff. intros [Hx Ht]. now rewrite Hx, IH.
Qed.

Lemma clean_name_fixes (s : list N) :
  clean_name s = true -> MinioService.sanitizeFileName s = s.
Proof.
  unfold clean_name. rewrite !andb_true_iff, !negb_true_iff.
  intros [[[Hsafe Hadj] Hhd] Hlast]. apply N.eqb_neq in Hhd, Hlast.
  unfold MinioService.sanitizeFileName. cbv zeta.
  rewrite replacements_fix.
  - rewrite safe_units_fix by assumption. rewrite squeeze_fixes by assumption.
    now apply strip_underscores_fixes.
  - rewrite forallb_forall in Hsafe. apply Forall_forall. intros x Hx.
    apply is_safe_not_replaced. now apply Hsafe.
Qed.

Lemma safe_or_underscore (s : list N) :
  Forall (fun x => MinioService.is_safe x = true)
         (map (fun x => if MinioService.is_safe x then x else MinioService.underscore) s).
Proof.
  induction s as [| x t IH]; [constructor |].
  cbn [map]. constructor; [| exact IH].
  destruct (MinioService.is_safe x) eqn:Hx; [exact Hx | reflexivity].
Qed.

(** X22. Whatever the name, [sanitizeFileName] returns a clean one: only
    letters, digits, dots, hyphens and underscores, no two underscores
    side by side, and no underscore at either end. *)
Theorem sanitizeFileName_is_clean :
  forall fileName : list N, clean_name (MinioService.sanitizeFileName fileName) = true.
Proof.
  intros fileName. unfold MinioService.sanitizeFileName. cbv zeta.
  set (replaced := fold_left _ MinioService.replacements fileName).
  set (squeezed := MinioService.squeeze _).
  assert (Hsafe : Forall (fun x => MinioService.is_safe x = true) squeezed)
    by apply squeeze_Forall, safe_or_underscore.
  assert (Hadj : adjacent_underscores squeezed = false) by apply squeeze_adjacent.
  unfold clean_name. rewrite !andb_true_iff, !negb_true_iff. repeat split.
  - apply forallb_forall, Forall_forall. now apply strip_underscores_Forall.
  - now apply strip_underscores_adjacent.
  - apply N.eqb_neq, strip_underscores_hd.
  - apply N.eqb_neq, strip_underscores_last.
Qed.

(** X23. [sanitizeFileName] leaves a clean name as it is, so sanitising a
    name a second time changes nothing more. *)
Theorem sanitizeFileName_idempotent :
  forall fileName : list N,
    (clean_name fileName = true -> MinioService.sanitizeFileName fileName = fileName) /\
    MinioService.sanitizeFileName (MinioService.sanitizeFileName fileName) =
    MinioService.sanitizeFileName fileName.
Proof.
  intros fileName. split; [apply clean_name_fixes |].
  apply clean_name_fixes.
  unfold MinioService.sanitizeFileName. cbv zeta.
  unfold clean_name. rewrite !andb_true_iff, !negb_true_iff. repeat split.
  - apply forallb_forall, Forall_forall, strip_underscores_Forall, squeeze_Forall,
      safe_or_underscore.
  - apply strip_underscores_adjacent, squeeze_adjacent.
  - apply N.eqb_neq, strip_underscores_hd.
  - apply N.eqb_neq, strip_underscores_last.
Qed.

Lemma split_nonempty (sep : N) (s : list N) : MinioService.split sep s <> [].
Proof.
  destruct s as [| x t]; [discriminate |]. cbn [MinioService.split].
  destruct (x =? sep)%N; [discriminate |].
  destruct (MinioService.split sep t); discriminate.
Qed.

Lemma split_no_separator (sep : N) (s : list N) :
  ~ In sep s -> MinioService.split sep s = [s].
Proof.
  induction s as [| x t IH]; [reflexivity |]. intros Hs.
  cbn [MinioService.split].
  destruct (N.eqb_spec x sep) as [-> | Hx]; [exfalso; apply Hs; now left |].
  rewrite IH; [reflexivity |]. intros Ht. apply Hs. now right.
Qed.

Lemma split_two (sep : N) (t : list N) :
  In sep t -> exists a b rest, MinioService.split sep t = a :: b :: rest.
Proof.
  induction t as [| x t IH]; [intros [] |]. intros Hin.
  cbn [MinioService.split]. destruct (N.eqb_spec x sep) as [-> | Hx].
  - destruct (MinioService.split sep t) as [| b rest] eqn:Ht;
      [now apply split_nonempty in Ht |]. now exists [], b, rest.
  - destruct Hin as [-> | Hin]; [congruence |].
    destruct (IH Hin) as (a & b & rest & ->). now exists (x :: a), b, rest.
Qed.

Lemma last_split_cons (sep x : N) (t : list N) :
  In sep t ->
  last (MinioService.split sep (x :: t)) [] = last (MinioService.split sep t) [].
Proof.
  intros Hin. destruct (split_two sep t Hin) as (a & b & rest & Ht).
  cbn [MinioService.split]. rewrite Ht. now destruct (x =? sep)%N.
Qed.

Lemma last_split_app (sep : N) (p e : list N) :
  last (MinioService.split sep (p ++ sep :: e)) [] = last (MinioService.split sep e) [].
Proof.
  induction p as [| x p IH].
  - cbn [app MinioService.split]. rewrite N.eqb_refl.
    destruct (MinioService.split sep e) eqn:He; [now apply split_nonempty in He |].
    reflexivity.
  - cbn [app]. rewrite last_split_cons; [exact IH |].
    apply in_or_app. right. now left.
Qed.

Lemma last_split_no_separator (sep : N) (s : list N) :
  ~ In sep (last (MinioService.split sep s) []).
Proof.
  induction s as [| x t IH]; [intros [] |].
  cbn [MinioService.split]. destruct (N.eqb_spec x sep) as [-> | Hx].
  - destruct (MinioService.split sep t) eqn:Ht; [now apply split_nonempty in Ht |].
    exact IH.
  - destruct (MinioService.split sep t) as [| segment rest] eqn:Ht;
      [now apply split_nonempty in Ht |].
    destruct rest as [| next rest]; [| exact IH].
    cbn [last] in *. intros [Heq | Hin]; [congruence | now apply IH].
Qed.

Lemma extension_alone (s : list N) :
  last (MinioService.split MinioService.dot
          (last (MinioService.split MinioService.dot s) [])) [] =
  last (MinioService.split MinioService.dot s) [].
Proof.
  rewrite (split_no_separator MinioService.dot (last _ [])); [reflexivity |].
  apply last_split_no_separator.
Qed.

Lemma generateFileName_extension (timestamp uuidv4 originalFileName : list N) :
  last (MinioService.split MinioService.dot
          (MinioService.generateFileName timestamp uuidv4 originalFileName)) [] =
  last (MinioService.split MinioService.dot originalFileName) [].
Proof.
  unfold MinioService.generateFileName. cbv zeta.
  change (MinioService.units ".") with [MinioService.dot].
  rewrite !app_assoc. rewrite <- (app_assoc _ [MinioService.dot]).
  cbn [app]. rewrite last_split_app. apply extension_alone.
Qed.

(** X24. The name [generateFileName] makes ends in the extension of the
    original name, taken as it is (neither sanitised nor shortened), so
    [getContentType] answers the same for both. *)
Theorem generateFileName_keeps_extension :
  forall timestamp uuidv4 originalFileName : list N,
    let generated := MinioService.generateFileName timestamp uuidv4 originalFileName in
    let extension := last (MinioService.split MinioService.dot originalFileName) [] in
    (exists prefix : list N, generated = (prefix ++ MinioService.dot :: extension)%list) /\
    last (MinioService.split MinioService.dot generated) [] = extension /\
    MinioService.getContentType generated = MinioService.getContentType originalFileName.
Proof.
  intros timestamp uuidv4 originalFileName generated extension. split; [| split].
  - unfold generated, MinioService.generateFileName. cbv zeta.
    change (MinioService.units ".") with [MinioService.dot].
    eexists. rewrite !app_assoc. rewrite <- (app_assoc _ [MinioService.dot]).
    reflexivity.
  - apply generateFileName_extension.
  - unfold MinioService.getContentType. cbv zeta.
    unfold generated. now rewrite generateFileName_extension.
Qed.

(** X25. For a name without a dot [generateFileName] takes the whole name
    for the extension and nothing for the base: the result is the
    timestamp, the first eight units of the uuid, and then [-.] followed
    by the name as it was given. *)
Theorem generateFileName_without_dot :
  forall timestamp uuidv4 originalFileName : list N,
    ~ In MinioService.dot originalFileName ->
    MinioService.generateFileName timestamp uuidv4 originalFileName =
    (timestamp ++ MinioService.units "-" ++ firstn 8 uuidv4 ++
     MinioService.units "-." ++ originalFileName)%list.
Proof.
  intros timestamp uuidv4 originalFileName Hdot.
  unfold MinioService.generateFileName. cbv zeta.
  rewrite split_no_separator by assumption. reflexivity.
Qed.

Lemma generateFileName_without_dot_witness :
  MinioService.generateFileName (MinioService.units "1700000000000")
    (MinioService.units "3f2b8c1e-aaaa") (MinioService.units "my cover") =
  MinioService.units "1700000000000-3f2b8c1e-.my cover".
Proof.
  apply (generateFileName_without_dot (MinioService.units "1700000000000")
           (MinioService.units "3f2b8c1e-aaaa") (MinioService.units "my cover")).
  vm_compute. intros H. repeat (destruct H as [H | H]; [discriminate H |]). exact H.
Defined.

Lemma lower_unit_dot (x : N) :
  (MinioService.lower_unit x =? MinioService.dot)%N = (x =? MinioService.dot)%N.
Proof.
  unfold MinioService.lower_unit, MinioService.dot.
  destruct ((65 <=? x) && (x <=? 90))%N eqn:Hup; [| reflexivity].
  apply andb_true_iff in Hup. destruct Hup as [Hlo Hhi].
  apply N.leb_le in Hlo, Hhi.
  destruct (N.eqb_spec (x + 32) 46), (N.eqb_spec x 46); try reflexivity; lia.
Qed.

Lemma split_lower (s : list N) :
  MinioService.split MinioService.dot (map MinioService.lower_unit s) =
  map (map MinioService.lower_unit) (MinioService.split MinioService.dot s).
Proof.
  induction s as [| x t IH]; [reflexivity |].
  cbn [map MinioService.split]. rewrite lower_unit_dot, IH.
  destruct (x =? MinioService.dot)%N; [reflexivity |].
  now destruct (MinioService.split MinioService.dot t).
Qed.

Lemma last_map {A B} (f : A -> B) (l : list A) (d : A) :
  last (map f l) (f d) = f (last l d).
Proof.
  induction l as [| x l IH]; [reflexivity |].
  cbn [map]. destruct l as [| y l]; [reflexivity |]. exact IH.
Qed.

Lemma extension_lower (s : list N) :
  map MinioService.lower_unit (last (MinioService.split MinioService.dot s) []) =
  last (MinioService.split MinioService.dot (map MinioService.lower_unit s)) [].
Proof.
  rewrite split_lower.
  now rewrite <- (last_map (map MinioService.lower_unit) _ []).
Qed.

(** X26. [getContentType] looks at nothing but the extension and not at
    its letter case: two names that differ only in the case of ASCII
    letters get the same content type. *)
Theorem getContentType_ignores_case :
  forall a b : list N,
    map MinioService.lower_unit a = map MinioService.lower_unit b ->
    MinioService.getContentType a = MinioService.getContentType b.
Proof.
  intros a b Hsame. unfold MinioService.getContentType. cbv zeta.
  now rewrite !extension_lower, Hsame.
Qed.

Lemma getContentType_ignores_case_witness :
  MinioService.getContentType (MinioService.units "Cover.final.PNG") =
  MinioService.getContentType (MinioService.units "cover.FINAL.png").
Proof.
  apply (getContentType_ignores_case (MinioService.units "Cover.final.PNG")
           (MinioService.units "cover.FINAL.png")).
  reflexivity.
Defined.

(** *** Looking a user up by email *)

(** X27. Whatever [toLowerCase] does to a string, on a store that runs
    the call [findUserByEmail] changes no row and resolves with a live
    user whose stored email is the lowercased argument, or with null when
    there is none; when the store
    rejects the call the failure comes out wrapped twice, as a plain
    [Error] with the prefix of [findUserByEmail] before the message that
    [BaseService.findByField] made. *)
Theorem findUserByEmail_outcomes :
  forall (toLowerCase : string -> string) (address : string)
         (w : Repository.World User),
    (runs_next w = true ->
     exists (found : option User) (w' : Repository.World User),
       AuthService.findUserByEmail toLowerCase address w = (Resolved found, w') /\
       Repository.rows w' = Repository.rows w /\
       match found with
       | Some u =>
           In u (Repository.rows w) /\ user_deletedAt u = false /\
           email u = toLowerCase address
       | None =>
           forall u : User,
             In u (Repository.rows w) -> user_deletedAt u = false ->
             email u <> toLowerCase address
       end) /\
    (forall (e : Thrown) (fs : list Fate),
        Repository.fates w = Reject e :: fs ->
        failure (AuthService.findUserByEmail toLowerCase address w) =
          Some (JsError ("Error finding user by email: " ++
                         error_message (service_error "findByField" e)))).
Proof.
  intros toLowerCase address w. split.
  - intros Hrun.
    unfold AuthService.findUserByEmail, bind, BaseService.findByField, try_catch,
      Repository.find. cbv zeta.
    rewrite received_runs by assumption.
    unfold Repository.read, ret. cbv beta iota.
    eexists. eexists. split; [reflexivity |]. split; [reflexivity |].
    unfold Repository.select, Repository.window, Repository.ordered.
    cbn [where_ order take skip Repository.filtering after_call Repository.rows].
    assert (Hsat : forall u : User,
               Repository.satisfies [CEq "email" (VStr (toLowerCase address))] u = true <->
               email u = toLowerCase address).
    { intros u. unfold Repository.satisfies. simpl.
      rewrite andb_true_r. apply String.eqb_eq. }
    destruct (Repository.visible _ (Repository.rows w)) as [| u us] eqn:Hvis;
      cbn [hd_error].
    + intros u Hin Hlive Hmail.
      assert (Hu : In u (Repository.visible
                           [CEq "email" (VStr (toLowerCase address))] (Repository.rows w))).
      { apply visible_iff. split; [exact Hin |]. split; [exact Hlive |]. now apply Hsat. }
      rewrite Hvis in Hu. exact Hu.
    + assert (Hu : In u (Repository.visible
                           [CEq "email" (VStr (toLowerCase address))] (Repository.rows w)))
        by (rewrite Hvis; now left).
      apply visible_iff in Hu. destruct Hu as (Hin & Hlive & Hs).
      split; [exact Hin |]. split; [exact Hlive |]. now apply Hsat.
  - intros e fs Hf.
    unfold failure, AuthService.findUserByEmail, bind, BaseService.findByField, try_catch,
      Repository.find, Repository.received. cbv zeta.
    rewrite Hf. reflexivity.
Qed.
